(** * Longest-isoform selector: [extract_longest_mRNA.py]

    A shallow embedding of the class [Maxlen] ([_readgff], [_getmax], [main])
    and of the script's entry point, followed by the properties of the
    selector that the specification states.

    Conventions of the embedding.
    - Text is [string]; a character is one code point below 256.  Python's
      notion of white space restricted to that range is [is_space].
    - A Python [dict] is an association list in insertion order ([odict]):
      assigning to an existing key keeps the key's position, assigning to a
      new key appends it.
    - Exceptions are values of [exn]; code that can raise lives in the monad
      [M], which threads the outside world (files and the error stream)
      and stops at the first exception raised. *)

From Stdlib Require Import ZArith Ascii String Sorted Lia.
From stdpp Require Import base option list strings gmap.

Local Open Scope Z_scope.

(** ** Python's text primitives *)

Module Py.

(** [str.isspace] on code points below 256. *)
Definition is_space (c : ascii) : bool :=
  match N_of_ascii c with
  | 9 | 10 | 11 | 12 | 13 | 28 | 29 | 30 | 31 | 32 | 133 | 160 => true
  | _ => false
  end%N.

(** Removal of the characters of a class at both ends. *)
Fixpoint lstrip_class (cls : ascii → bool) (s : string) : string :=
  match s with
  | String c r => if cls c then lstrip_class cls r else s
  | EmptyString => EmptyString
  end.

Fixpoint rstrip_class (cls : ascii → bool) (s : string) : string :=
  match s with
  | String c r =>
      match rstrip_class cls r with
      | EmptyString => if cls c then EmptyString else String c EmptyString
      | r' => String c r'
      end
  | EmptyString => EmptyString
  end.

(** [s.strip()] *)
Definition strip (s : string) : string :=
  rstrip_class is_space (lstrip_class is_space s).

(** [s.startswith(p)] *)
Fixpoint startswith (p s : string) : bool :=
  match p, s with
  | EmptyString, _ => true
  | String a p', String b s' => if Ascii.eqb a b then startswith p' s' else false
  | String _ _, EmptyString => false
  end.

(** [s.split(sep)] for a one-character separator: one field more than
    there are separators, so the result is never empty. *)
Fixpoint split (sep : ascii) (s : string) : list string :=
  match s with
  | EmptyString => [EmptyString]
  | String c r =>
      if Ascii.eqb c sep then EmptyString :: split sep r
      else match split sep r with
           | f :: fs => String c f :: fs
           | [] => [String c EmptyString]
           end
  end.

Definition tab : ascii := ascii_of_N 9.
Definition newline : ascii := ascii_of_N 10.

(** The truth value of a string: non-empty. *)
Definition truthy (s : string) : bool :=
  match s with EmptyString => false | String _ _ => true end.

Fixpoint drop (n : nat) (s : string) : string :=
  match n, s with
  | S n', String _ r => drop n' r
  | _, _ => s
  end.

Fixpoint take (n : nat) (s : string) : string :=
  match n, s with
  | S n', String c r => String c (take n' r)
  | _, _ => EmptyString
  end.

(** *** [int(s)] in base 10

    White space is skipped on both sides, one sign is allowed, and the
    digits may be separated by single underscores.  [None] stands for
    [ValueError].  The white space of [int] is not that of [strip]: of the
    characters below 128 it takes those of C's [isspace] only, so that the
    separators 28 to 31 are not skipped.  (The interpreter's optional limit
    on the number of digits is left out.) *)

Definition is_int_space (c : ascii) : bool :=
  match N_of_ascii c with
  | 9 | 10 | 11 | 12 | 13 | 32 | 133 | 160 => true
  | _ => false
  end%N.

Definition digit (c : ascii) : option Z :=
  let n := N_of_ascii c in
  if ((48 <=? n) && (n <=? 57))%N then Some (Z.of_N n - 48) else None.

(** [prev] tells whether the previous character was a digit: an
    underscore is accepted only between two digits. *)
Fixpoint digits (acc : Z) (prev : bool) (s : string) : option Z :=
  match s with
  | EmptyString => if prev then Some acc else None
  | String c r =>
      match digit c with
      | Some d => digits (10 * acc + d) true r
      | None =>
          if Ascii.eqb c "_"%char && prev then digits acc false r else None
      end
  end.

Definition int (s : string) : option Z :=
  match rstrip_class is_int_space (lstrip_class is_int_space s) with
  | String c r =>
      if Ascii.eqb c "-"%char then Z.opp <$> digits 0 false r
      else if Ascii.eqb c "+"%char then digits 0 false r
      else digits 0 false (String c r)
  | EmptyString => None
  end.

End Py.

(** ** The two regular expressions

    Both patterns of the scanner are sequences of literals, greedy captured
    runs [([cls]+)] and greedy runs [cls*].  [match_here] is the
    backtracking matcher for such sequences: each run first takes as many
    characters as it can and gives them back one at a time until the rest
    of the pattern matches. *)

Module Re.

Inductive item :=
| Lit (s : string)
| Group1 (cls : ascii → bool)
| Star (cls : ascii → bool).

(** Length of the longest prefix made of characters of the class. *)
Fixpoint span (cls : ascii → bool) (s : string) : nat :=
  match s with
  | String c r => if cls c then S (span cls r) else O
  | EmptyString => O
  end.

(** Tries the lengths [n], [n-1], ..., [lo] in this order. *)
Fixpoint greedy {A} (try : nat → option A) (lo n : nat) : option A :=
  if (n <? lo)%nat then None
  else match try n with
       | Some r => Some r
       | None => match n with S m => greedy try lo m | O => None end
       end.

(** The captured groups of a match anchored at the start of [s]. *)
Fixpoint match_here (p : list item) (s : string) : option (list string) :=
  match p with
  | [] => Some []
  | Lit l :: p' =>
      if Py.startswith l s then match_here p' (Py.drop (String.length l) s)
      else None
  | Group1 cls :: p' =>
      greedy (λ k, cons (Py.take k s) <$> match_here p' (Py.drop k s))
             1 (span cls s)
  | Star cls :: p' =>
      greedy (λ k, match_here p' (Py.drop k s)) 0 (span cls s)
  end.

(** The groups of the leftmost match: the first element of
    [re.findall(p, s)], [None] when the list is empty. *)
Fixpoint first_match (p : list item) (s : string) : option (list string) :=
  match match_here p s with
  | Some g => Some g
  | None =>
      match s with
      | String _ r => first_match p r
      | EmptyString => None
      end
  end.

Definition not_semicolon (c : ascii) : bool := negb (Ascii.eqb c ";"%char).
(** [.] without DOTALL *)
Definition dot (c : ascii) : bool := negb (Ascii.eqb c Py.newline).

(** [ID=([^;]+);.*Parent=([^;]+)] *)
Definition mrna_pattern : list item :=
  [Lit "ID="; Group1 not_semicolon; Lit ";"; Star dot;
   Lit "Parent="; Group1 not_semicolon].

(** [Parent=([^;]+)] *)
Definition cds_pattern : list item :=
  [Lit "Parent="; Group1 not_semicolon].

End Re.

(** ** Insertion-ordered dictionaries *)

Section odict.
Context {K V : Type} `{EqDecision K}.

(** [d.get(k)] *)
Fixpoint od_get (k : K) (d : list (K * V)) : option V :=
  match d with
  | [] => None
  | (k', v) :: d' => if decide (k = k') then Some v else od_get k d'
  end.

(** [d[k] = v]: in place when [k] is a key, at the end otherwise. *)
Fixpoint od_set (k : K) (v : V) (d : list (K * V)) : list (K * V) :=
  match d with
  | [] => [(k, v)]
  | (k', v') :: d' =>
      if decide (k = k') then (k, v) :: d' else (k', v') :: od_set k v d'
  end.

(** [k in d] *)
Definition od_mem (k : K) (d : list (K * V)) : bool :=
  match od_get k d with Some _ => true | None => false end.

(** The keys in iteration order. *)
Definition od_keys (d : list (K * V)) : list K := d.*1.
End odict.

Abbreviation odict K V := (list (K * V)).

(** ** [sorted(items, key=..., reverse=True)]

    Python's sort is stable, also with [reverse=True]: it returns the one
    arrangement of the items in which the keys never increase and items of
    equal key keep their original order.  Insertion sort builds it. *)

Section sorted.
Context {A : Type} (key : A → Z).

Fixpoint insert_desc (x : A) (l : list A) : list A :=
  match l with
  | [] => [x]
  | y :: l' => if key y <=? key x then x :: l else y :: insert_desc x l'
  end.

Fixpoint sorted_desc (l : list A) : list A :=
  match l with
  | [] => []
  | x :: l' => insert_desc x (sorted_desc l')
  end.
End sorted.

(** ** Exceptions, the world, and the monad of the program *)

Inductive exn :=
| ValueError
| KeyError
| IndexError
| IOError (msg : string)
| SystemExit (code : Z).

Inductive result (A : Type) :=
| Ok (a : A)
| Raise (e : exn).
Arguments Ok {A} a.
Arguments Raise {A} e.

(** The world of one run: the text files by path (after decoding and
    newline translation), the paths that cannot be opened for reading or for
    writing, each with the message of the error the system reports, and what
    has been written to [sys.stderr]. *)
Record world := World {
  files : gmap string string;
  read_errors : gmap string string;
  write_errors : gmap string string;
  stderr : list string
}.

Definition M (A : Type) : Type := world → result A * world.

Definition raise {A} (e : exn) : M A := λ w, (Raise e, w).

Global Instance M_ret : MRet M := λ A a w, (Ok a, w).
Global Instance M_bind : MBind M := λ A B f m w,
  match m w with
  | (Ok a, w') => f a w'
  | (Raise e, w') => (Raise e, w')
  end.

(** [for x in xs: acc = body acc x] *)
Fixpoint for_each {A S} (xs : list A) (body : S → A → M S) (acc : S) : M S :=
  match xs with
  | [] => mret acc
  | x :: xs' => acc' ← body acc x; for_each xs' body acc'
  end.

(** [try: m  except IOError as e: handler e] *)
Definition except_IOError {A} (m : M A) (handler : string → M A) : M A :=
  λ w, match m w with
       | (Raise (IOError msg), w') => handler msg w'
       | r => r
       end.

(** [d[k]] *)
Definition getitem {K V} `{EqDecision K} (k : K) (d : odict K V) : M V :=
  match od_get k d with Some v => mret v | None => raise KeyError end.

(** [l[i]] for a non-negative [i] *)
Definition index {A} (l : list A) (i : nat) : M A :=
  match l !! i with Some x => mret x | None => raise IndexError end.

(** [int(s)] *)
Definition int (s : string) : M Z :=
  match Py.int s with Some n => mret n | None => raise ValueError end.

(** [sys.stderr.write(text)] *)
Definition stderr_write (text : string) : M unit :=
  λ w, (Ok (), World (files w) (read_errors w) (write_errors w) (stderr w ++ [text])).

(** [sys.exit(code)] *)
Definition sys_exit {A} (code : Z) : M A := raise (SystemExit code).

(** The lines of a text as iteration over an open file yields them: each
    ends with its newline, except possibly the last. *)
Fixpoint lines_of (s : string) : list string :=
  match s with
  | EmptyString => []
  | String c r =>
      if Ascii.eqb c Py.newline then String c EmptyString :: lines_of r
      else match lines_of r with
           | l :: ls => String c l :: ls
           | [] => [String c EmptyString]
           end
  end.

(** The message of the error for a path that does not exist (the quoting
    that [repr] applies to unusual characters of the path is left out). *)
Definition no_such_file (path : string) : string :=
  "[Errno 2] No such file or directory: '" +:+ path +:+ "'".

(** [open(path, 'r')] followed by reading the file to its end. *)
Definition open_read (path : string) : M (list string) :=
  λ w, match read_errors w !! path with
       | Some msg => (Raise (IOError msg), w)
       | None =>
           match files w !! path with
           | Some text => (Ok (lines_of text), w)
           | None => (Raise (IOError (no_such_file path)), w)
           end
       end.

(** [open(path, 'w')]: the file is created or truncated. *)
Definition open_write (path : string) : M unit :=
  λ w, match write_errors w !! path with
       | Some msg => (Raise (IOError msg), w)
       | None =>
           (Ok (), World (<[path := ""]> (files w)) (read_errors w)
                         (write_errors w) (stderr w))
       end.

(** [out.write(text)] on the file opened at [path]. *)
Definition file_write (path text : string) : M unit :=
  λ w, (Ok (), World (alter (λ old, old +:+ text) path (files w))
                     (read_errors w) (write_errors w) (stderr w)).

(** [os.path.isfile(path)] *)
Definition isfile (path : string) : M bool :=
  λ w, (Ok (bool_decide (is_Some (files w !! path))), w).

(** The texts that the program writes to [sys.stderr]. *)
Definition warn_no_mrna (mrna_id : string) : string :=
  "Warning: " +:+ mrna_id +:+ " has no mRNA info!" +:+ String Py.newline "".

Definition warn_not_found (mrna_id : string) : string :=
  "Warning: " +:+ mrna_id +:+ " not found in mRNA info" +:+ String Py.newline "".

Definition error_line (msg : string) : string :=
  "Error: " +:+ msg +:+ String Py.newline "".

Definition error_no_input (gff : string) : string :=
  "Error: Input file " +:+ gff +:+ " does not exist" +:+ String Py.newline "".

(** ** The class [Maxlen] *)

Module Maxlen.

(** The dictionaries that [_readgff] builds. *)
Record scan := Scan {
  gene_mrna_len : odict string (odict string Z);
  mrna_info : odict string string;
  rna_proid : odict string string;
  mrna_gene : odict string string
}.

Definition empty_scan : scan := Scan [] [] [] [].

(** [_getmax]: the body of the loop, then the loop. *)
Definition _getmax_step (genelen : odict string (odict string Z))
    (mrnaids : list string) (geneid : string) : M (list string) :=
  d ← getitem geneid genelen;
  let newidlen := sorted_desc snd d in
  first ← index newidlen 0;
  mret (mrnaids ++ [first.1]).

Definition _getmax (genelen : odict string (odict string Z)) : M (list string) :=
  for_each (od_keys genelen) (_getmax_step genelen) [].

(** The body of the loop of [_readgff] over the lines of the file. *)
Definition scan_line (st : scan) (line : string) : M scan :=
  if Py.startswith "#" line || negb (Py.truthy (Py.strip line)) then mret st
  else
    let lines := Py.split Py.tab (Py.strip line) in
    if (length lines <? 9)%nat then mret st
    else
      ty ← index lines 2;
      if String.eqb ty "mRNA" then
        attrs ← index lines 8;
        match Re.first_match Re.mrna_pattern attrs with
        | Some [mrna_id; gene_id] =>
            let mg := od_set mrna_id gene_id (mrna_gene st) in
            let gml :=
              if od_mem gene_id (gene_mrna_len st) then gene_mrna_len st
              else od_set gene_id [] (gene_mrna_len st) in
            d ← getitem gene_id gml;
            let gml := od_set gene_id (od_set mrna_id 0 d) gml in
            let mi := od_set mrna_id line (mrna_info st) in
            mret (Scan gml mi (rna_proid st) mg)
        | _ => mret st
        end
      else if String.eqb ty "CDS" then
        attrs ← index lines 8;
        match Re.first_match Re.cds_pattern attrs with
        | Some [mrna_id] =>
            let rp := od_set mrna_id mrna_id (rna_proid st) in
            if od_mem mrna_id (mrna_info st) then
              buf ← getitem mrna_id (mrna_info st);
              let mi := od_set mrna_id (buf +:+ line) (mrna_info st) in
              gene_id ← getitem mrna_id (mrna_gene st);
              c4 ← index lines 4;
              stop ← int c4;
              c3 ← index lines 3;
              start ← int c3;
              let cdslen := stop - start + 1 in
              d ← getitem gene_id (gene_mrna_len st);
              n ← getitem mrna_id d;
              let gml :=
                od_set gene_id (od_set mrna_id (n + cdslen) d) (gene_mrna_len st) in
              mret (Scan gml mi rp (mrna_gene st))
            else
              stderr_write (warn_no_mrna mrna_id);;
              mret (Scan (gene_mrna_len st) (mrna_info st) rp (mrna_gene st))
        | _ => mret st
        end
      else mret st.

Definition _readgff (gff : string) : M scan :=
  con ← open_read gff;
  for_each con scan_line empty_scan.

(** The loop of [main] that writes the selected blocks. *)
Definition write_block (outgff : string) (m_i : odict string string)
    (_ : unit) (mrna_id : string) : M unit :=
  if od_mem mrna_id m_i then
    buf ← getitem mrna_id m_i;
    file_write outgff buf
  else
    stderr_write (warn_not_found mrna_id).

Definition main (gff outgff : string) : M unit :=
  except_IOError
    (open_write outgff;;
     st ← _readgff gff;
     maxmrnaidlen ← _getmax (gene_mrna_len st);
     for_each maxmrnaidlen (write_block outgff (mrna_info st)) ())
    (λ msg,
       stderr_write (error_line msg);;
       sys_exit 1).

End Maxlen.

(** ** The script

    The function [main] of the module, after [argparse] has produced the
    two paths. *)

Module Script.

Definition main (gff outgff : string) : M unit :=
  exists_ ← isfile gff;
  if negb exists_ then
    stderr_write (error_no_input gff);;
    sys_exit 1
  else Maxlen.main gff outgff.

End Script.

(** The exit status of the process. *)
Definition exit_status (r : result unit) : Z :=
  match r with
  | Ok _ => 0
  | Raise (SystemExit code) => code
  | Raise _ => 1
  end.

(** * The records of a file and the states of the scanner

    The definitions below are not part of the program: they describe its
    input and its states, and the theorems are stated with them. *)

(** ** What the scanner sees in a line

    [parse] performs the tests of the loop body of [_readgff] without its
    effects: a line is an mRNA record with its [ID] and [Parent], a CDS
    record with its [Parent] and its start and end columns, or a line the
    scanner passes over. *)

Inductive record :=
| Other
| MRna (mrna_id gene_id : string)
| Cds (parent c3 c4 : string).

Definition columns (line : string) : list string :=
  Py.split Py.tab (Py.strip line).

Definition parse (line : string) : record :=
  if Py.startswith "#" line || negb (Py.truthy (Py.strip line)) then Other
  else if (length (columns line) <? 9)%nat then Other
  else
    match columns line !! 2%nat, columns line !! 8%nat with
    | Some ty, Some attrs =>
        if String.eqb ty "mRNA" then
          match Re.first_match Re.mrna_pattern attrs with
          | Some [mrna_id; gene_id] => MRna mrna_id gene_id
          | _ => Other
          end
        else if String.eqb ty "CDS" then
          match Re.first_match Re.cds_pattern attrs,
                columns line !! 3%nat, columns line !! 4%nat with
          | Some [parent], Some c3, Some c4 => Cds parent c3 c4
          | _, _, _ => Other
          end
        else Other
    | _, _ => Other
    end.

(** The world after [text] has been written to the error stream. *)
Definition warned (ws : list string) (w : world) : world :=
  World (files w) (read_errors w) (write_errors w) (stderr w ++ ws).

Import Maxlen.

(** The state after an mRNA record has been registered. *)
Definition register (line mrna_id gene_id : string) (st : scan) : scan :=
  let gml :=
    if od_mem gene_id (gene_mrna_len st) then gene_mrna_len st
    else od_set gene_id [] (gene_mrna_len st) in
  Scan (od_set gene_id (od_set mrna_id 0 (default [] (od_get gene_id gml))) gml)
       (od_set mrna_id line (mrna_info st))
       (rna_proid st)
       (od_set mrna_id gene_id (mrna_gene st)).

(** The state after a CDS record whose parent is not registered. *)
Definition orphan (parent : string) (st : scan) : scan :=
  Scan (gene_mrna_len st) (mrna_info st)
       (od_set parent parent (rna_proid st)) (mrna_gene st).

(** The state after a CDS record of length [len] has been attached to the
    transcript [parent] of [gene_id], whose buffer was [buf], whose gene's
    dictionary was [d] and whose length was [n]. *)
Definition attach (line parent gene_id buf : string) (d : odict string Z)
    (n len : Z) (st : scan) : scan :=
  Scan (od_set gene_id (od_set parent (n + len) d) (gene_mrna_len st))
       (od_set parent (buf +:+ line) (mrna_info st))
       (od_set parent parent (rna_proid st))
       (mrna_gene st).

(** One turn of the loop as a function of the record: the result and the
    warnings written. *)
Definition step (line : string) (st : scan) : result scan * list string :=
  match parse line with
  | Other => (Ok st, [])
  | MRna mrna_id gene_id => (Ok (register line mrna_id gene_id st), [])
  | Cds parent c3 c4 =>
      match od_get parent (mrna_info st) with
      | None => (Ok (orphan parent st), [warn_no_mrna parent])
      | Some buf =>
          match od_get parent (mrna_gene st) with
          | None => (Raise KeyError, [])
          | Some gene_id =>
              match Py.int c4, Py.int c3 with
              | None, _ | _, None => (Raise ValueError, [])
              | Some stop, Some start =>
                  match od_get gene_id (gene_mrna_len st) with
                  | None => (Raise KeyError, [])
                  | Some d =>
                      match od_get parent d with
                      | None => (Raise KeyError, [])
                      | Some n =>
                          (Ok (attach line parent gene_id buf d n
                                      (stop - start + 1) st), [])
                      end
                  end
              end
          end
      end
  end.

Fixpoint steps (lines : list string) (st : scan) : result scan * list string :=
  match lines with
  | [] => (Ok st, [])
  | line :: rest =>
      match step line st with
      | (Ok st', ws) =>
          let '(r, ws') := steps rest st' in (r, ws ++ ws')
      | (Raise e, ws) => (Raise e, ws)
      end
  end.

(** ** The records of a file *)

(** The distinct elements of a list in the order of their first occurrence. *)
Definition dedup {A} `{EqDecision A} (l : list A) : list A :=
  fold_left (λ acc x, if decide (x ∈ acc) then acc else acc ++ [x]) l [].

(** The [ID]s of the mRNA records, in file order. *)
Definition mrna_ids (lines : list string) : list string :=
  omap (λ l, match parse l with MRna t _ => Some t | _ => None end) lines.

(** The [Parent]s of the mRNA records, in file order. *)
Definition genes (lines : list string) : list string :=
  omap (λ l, match parse l with MRna _ g => Some g | _ => None end) lines.

(** The [ID]s of the mRNA records whose [Parent] is [g], in file order. *)
Definition transcripts (g : string) (lines : list string) : list string :=
  omap (λ l, match parse l with
             | MRna t g' => if decide (g' = g) then Some t else None
             | _ => None
             end) lines.

(** The [Parent] of the latest mRNA record with [ID] [t]. *)
Definition gene_of (t : string) (lines : list string) : option string :=
  last (omap (λ l, match parse l with
                   | MRna t' g => if decide (t' = t) then Some g else None
                   | _ => None
                   end) lines).

(** [''.join(l)] *)
Definition join (l : list string) : string := foldr String.app "" l.

(** A feature block of the transcript [t]: the line of an mRNA record with
    [ID] [t] followed by lines of CDS records with [Parent] [t]. *)
Definition is_block (t buf : string) : Prop :=
  ∃ ml cls, buf = ml +:+ join cls ∧
            (∃ g, parse ml = MRna t g) ∧
            Forall (λ c, ∃ c3 c4, parse c = Cds t c3 c4) cls.

(** ** What holds of every state the scanner reaches

    [consistent pre st] relates the dictionaries to the lines [pre] read so
    far.  Nothing is assumed of the lines. *)

Record consistent (pre : list string) (st : scan) : Prop := Consistent {
  cons_genes : od_keys (gene_mrna_len st) = dedup (genes pre);
  cons_transcripts : ∀ g d,
    od_get g (gene_mrna_len st) = Some d → od_keys d = dedup (transcripts g pre);
  cons_info : od_keys (mrna_info st) = dedup (mrna_ids pre);
  cons_gene_of : ∀ t, od_get t (mrna_gene st) = gene_of t pre;
  cons_blocks : ∀ t buf, od_get t (mrna_info st) = Some buf → is_block t buf
}.

(** A list whose keys never increase. *)
Definition descending {A} (key : A → Z) : list A → Prop :=
  Sorted (λ x y, key y ≤ key x).

(** ** The selector *)

(** The transcript that [_getmax] picks from the dictionary of one gene. *)
Definition longest (d : odict string Z) : option string :=
  fst <$> head (sorted_desc snd d).

(** The list that [_getmax] returns. *)
Definition selection (gml : odict string (odict string Z)) : list string :=
  omap (λ gd, longest gd.2) gml.

(** ** Whole runs of [Maxlen.main] *)

(** The world once the output file has been opened. *)
Definition truncated (out : string) (w : world) : world :=
  World (<[out := ""]> (files w)) (read_errors w) (write_errors w) (stderr w).

(** The buffers of the selected transcripts, in the order of selection. *)
Definition blocks (st : scan) : list string :=
  omap (λ t, od_get t (mrna_info st)) (selection (gene_mrna_len st)).


(** ** A small annotation file

    Gene [G1] has the transcripts [T1] (one CDS of length 300) and [T2]
    (two CDS of lengths 100 and 50), gene [G2] has [T3]; one CDS names the
    undeclared parent [T9]. *)

Definition row (fields : list string) : string :=
  String.concat (String Py.tab "") fields +:+ String Py.newline "".

Definition mrna_row (start stop id parent : string) : string :=
  row ["chr1"; "src"; "mRNA"; start; stop; "."; "+"; ".";
       "ID=" +:+ id +:+ ";Parent=" +:+ parent].

Definition cds_row (start stop parent : string) : string :=
  row ["chr1"; "src"; "CDS"; start; stop; "."; "+"; "0"; "Parent=" +:+ parent].

Definition demo_lines : list string :=
  [ "##gff-version 3" +:+ String Py.newline "";
    row ["chr1"; "src"; "gene"; "1"; "900"; "."; "+"; "."; "ID=G1"];
    mrna_row "1" "900" "T1" "G1";
    cds_row "1" "300" "T1";
    mrna_row "1" "900" "T2" "G1";
    cds_row "1" "100" "T2";
    cds_row "201" "250" "T2";
    cds_row "5" "9" "T9";
    mrna_row "1000" "1900" "T3" "G2";
    cds_row "1000" "1009" "T3" ].

Definition demo_text : string := Eval vm_compute in join demo_lines.

(** A world that holds the file under the path [in.gff]. *)
Definition demo_world : world := World {[ "in.gff" := demo_text ]} ∅ ∅ [].

(** The dictionaries after the scan of [demo_lines]. *)
Definition demo_scan : scan :=
  Eval vm_compute in
    match steps demo_lines empty_scan with
    | (Ok st, _) => st
    | (Raise _, _) => empty_scan
    end.

(** The dictionaries after the first seven lines of [demo_lines], that is,
    before the CDS line of the undeclared parent [T9]. *)
Definition demo_prefix_scan : scan :=
  Eval vm_compute in
    match steps (take 7 demo_lines) empty_scan with
    | (Ok st, _) => st
    | (Raise _, _) => empty_scan
    end.

(** The world after the run on [demo_world] with the output [out.gff]. *)
Definition demo_final : world :=
  World (<[ "out.gff" := join (blocks demo_scan) ]> (files demo_world))
        ∅ ∅ [warn_no_mrna "T9"].

(** A gene whose two transcripts have the same summed CDS length. *)
Definition tie_lines : list string :=
  [mrna_row "1" "900" "Ta" "G"; mrna_row "1" "900" "Tb" "G";
   cds_row "101" "190" "Tb"; cds_row "1" "90" "Ta"].

Definition tie_world : world := World {[ "in.gff" := join tie_lines ]} ∅ ∅ [].

(** A file whose second line is a CDS record with a malformed end column,
    and a world in which the output file already exists. *)
Definition broken_text : string :=
  Eval vm_compute in mrna_row "1" "900" "T1" "G1" +:+ cds_row "1" "3x0" "T1".

Definition broken_world : world :=
  World {[ "in.gff" := broken_text; "out.gff" := "previous contents" ]} ∅ ∅ [].

(** The transcript [t] is registered under the gene [g]: the scanner maps
    [t] to [g] and holds a buffer and a length under [g] for it. *)
Definition tracked (t g : string) (st : scan) : Prop :=
  od_get t (mrna_gene st) = Some g ∧
  is_Some (od_get t (mrna_info st)) ∧
  ∃ d, od_get g (gene_mrna_len st) = Some d ∧ is_Some (od_get t d).

(** The dictionaries after an mRNA record [T1] of gene [G1] and one CDS
    line of it. *)
Definition dup_scan : scan :=
  Eval vm_compute in
    match steps [mrna_row "1" "900" "T1" "G1"; cds_row "1" "300" "T1"] empty_scan with
    | (Ok st, _) => st
    | (Raise _, _) => empty_scan
    end.

(** An mRNA line whose start column is not a number, alone in a file. *)
Definition odd_mrna_line : string := Eval vm_compute in mrna_row "x" "900" "T1" "G1".

Definition odd_world : world := World {[ "in.gff" := odd_mrna_line ]} ∅ ∅ [].

(** A CDS line whose end column is not a number and whose parent is not
    declared, alone in a file. *)
Definition odd_cds_line : string := Eval vm_compute in cds_row "1" "3x0" "T9".

Definition odd_cds_world : world := World {[ "in.gff" := odd_cds_line ]} ∅ ∅ [].

(** ** Well-formed files *)

(** The length that [line] adds to the coding length of [t]: [end - start
    + 1] when it is a CDS record with [Parent] [t]. *)
Definition cds_len (t line : string) : Z :=
  match parse line with
  | Cds p c3 c4 =>
      if decide (p = t) then
        match Py.int c4, Py.int c3 with
        | Some stop, Some start => stop - start + 1
        | _, _ => 0
        end
      else 0
  | _ => 0
  end.

(** The summed CDS length of the transcript [t]. *)
Definition cds_sum (t : string) (lines : list string) : Z :=
  foldr (λ line acc, cds_len t line + acc) 0 lines.

(** The transcript a record belongs to: its [ID] for an mRNA record, its
    [Parent] for a CDS record. *)
Definition owner (line : string) : option string :=
  match parse line with
  | MRna t _ => Some t
  | Cds p _ _ => Some p
  | Other => None
  end.

(** The feature block of [t] in a file: its mRNA line and its CDS lines, in
    file order. *)
Definition block_lines (t : string) (lines : list string) : list string :=
  filter (λ line, owner line = Some t) lines.

Definition block (lines : list string) (t : string) : string :=
  join (block_lines t lines).

(** A file is well formed when no two mRNA records share an [ID] and every
    CDS record of a declared transcript comes after the mRNA record of the
    transcript and has integer coordinates. *)
Record well_formed (lines : list string) : Prop := WellFormed {
  wf_ids : NoDup (mrna_ids lines);
  wf_cds : ∀ pre line post p c3 c4,
    lines = pre ++ line :: post → parse line = Cds p c3 c4 →
    p ∈ mrna_ids lines →
    p ∈ mrna_ids pre ∧ is_Some (Py.int c3) ∧ is_Some (Py.int c4)
}.

(** On a well-formed file the dictionaries hold the blocks and the summed
    CDS lengths of the file. *)
Record exact (pre : list string) (st : scan) : Prop := Exact {
  exact_info : ∀ t, t ∈ mrna_ids pre → od_get t (mrna_info st) = Some (block pre t);
  exact_len : ∀ g d t n,
    od_get g (gene_mrna_len st) = Some d → od_get t d = Some n → n = cds_sum t pre
}.

(** A check of the second condition of [well_formed]: [seen] holds the
    [ID]s of the mRNA records read so far, [declared] tells the [ID]s that
    the file declares. *)
Fixpoint cds_ok (declared : string → bool) (seen lines : list string) : bool :=
  match lines with
  | [] => true
  | line :: rest =>
      match parse line with
      | Cds p c3 c4 =>
          (negb (declared p) ||
           (bool_decide (p ∈ seen) &&
            bool_decide (is_Some (Py.int c3)) && bool_decide (is_Some (Py.int c4))))
          && cds_ok declared seen rest
      | MRna t _ => cds_ok declared (seen ++ [t]) rest
      | Other => cds_ok declared seen rest
      end
  end.

Definition well_formedb (lines : list string) : bool :=
  bool_decide (NoDup (mrna_ids lines)) &&
  cds_ok (λ p, bool_decide (p ∈ mrna_ids lines)) [] lines.

(** A file of single-isoform genes: every line is an mRNA or a CDS record,
    no two mRNA records name the same gene, and every CDS record names an
    mRNA record read before it and has integer coordinates. *)
Record single_isoform (lines : list string) : Prop := SingleIsoform {
  si_records : Forall (λ line, parse line ≠ Other) lines;
  si_genes : NoDup (genes lines);
  si_cds : ∀ pre line post p c3 c4,
    lines = pre ++ line :: post → parse line = Cds p c3 c4 →
    p ∈ mrna_ids pre ∧ is_Some (Py.int c3) ∧ is_Some (Py.int c4)
}.

Definition single_isoformb (lines : list string) : bool :=
  forallb (λ line, match parse line with Other => false | _ => true end) lines &&
  bool_decide (NoDup (genes lines)) &&
  cds_ok (λ _, true) [] lines.

(** Two genes whose mRNA records carry the same [ID]. *)
Definition shared_id_lines : list string :=
  Eval vm_compute in [mrna_row "1" "900" "T1" "G1"; mrna_row "1000" "1900" "T1" "G2"].

Definition shared_id_world : world :=
  World {[ "in.gff" := join shared_id_lines ]} ∅ ∅ [].

(** A file of two single-isoform genes, the CDS line of the first after
    the mRNA line of the second. *)
Definition single_lines : list string :=
  Eval vm_compute in
    [mrna_row "1" "900" "T1" "G1"; mrna_row "1000" "1900" "T2" "G2";
     cds_row "1" "300" "T1"; cds_row "1000" "1100" "T2"].

Definition single_world : world :=
  World {[ "in.gff" := join single_lines ]} ∅ ∅ [].

(** ** Feature blocks as lines of the input *)

(** A feature block of the transcript [t] in a file: one line of the file
    that is an mRNA record with [ID] [t], followed by lines of the file that
    are CDS records with [Parent] [t]. *)
Definition feature_block (lines : list string) (t : string) (bl : list string) : Prop :=
  ∃ ml cls g, bl = ml :: cls ∧ ml ∈ lines ∧ parse ml = MRna t g ∧
              Forall (λ c, c ∈ lines ∧ ∃ c3 c4, parse c = Cds t c3 c4) cls.

(** Every buffer is the text of a feature block of its transcript in the
    lines read so far. *)
Definition blocked (pre : list string) (st : scan) : Prop :=
  ∀ t buf, od_get t (mrna_info st) = Some buf →
    ∃ bl, buf = join bl ∧ feature_block pre t bl.

(** Two genes; the last line of the file, the CDS line of the first gene,
    has no newline. *)
Definition glued_text : string :=
  Eval vm_compute in
    mrna_row "1" "900" "T1" "G1" +:+ mrna_row "1000" "1900" "T2" "G2" +:+
    "chr1" +:+ String Py.tab "src" +:+ String Py.tab "CDS" +:+ String Py.tab "1" +:+
    String Py.tab "300" +:+ String Py.tab "." +:+ String Py.tab "+" +:+
    String Py.tab "0" +:+ String Py.tab "Parent=T1".

Definition glued_world : world := World {[ "in.gff" := glued_text ]} ∅ ∅ [].

(** * Further descriptions of the input *)

(** The lines that the loop of [_readgff] passes over before it looks at
    the attributes: comments, blank lines, lines of fewer than nine columns
    and features that are neither mRNA nor CDS. *)
Definition ignored (line : string) : bool :=
  Py.startswith "#" line || negb (Py.truthy (Py.strip line)) ||
  (length (columns line) <? 9)%nat ||
  match columns line !! 2%nat with
  | Some ty => negb (String.eqb ty "mRNA") && negb (String.eqb ty "CDS")
  | None => true
  end.

(** The [Parent]s of the CDS records, in file order. *)
Definition cds_parents (lines : list string) : list string :=
  omap (λ l, match parse l with Cds p _ _ => Some p | _ => None end) lines.

(** The [Parent]s of the CDS records that no earlier mRNA record has
    registered, in file order; [seen] holds the [ID]s of the mRNA records
    read so far. *)
Fixpoint orphans (seen lines : list string) : list string :=
  match lines with
  | [] => []
  | line :: rest =>
      match parse line with
      | Cds p _ _ =>
          if decide (p ∈ seen) then orphans seen rest else p :: orphans seen rest
      | MRna t _ => orphans (seen ++ [t]) rest
      | Other => orphans seen rest
      end
  end.

(** The lines of every buffer are lines read so far that belong to the
    transcript of the buffer. *)
Definition sourced (pre : list string) (st : scan) : Prop :=
  ∀ t buf, od_get t (mrna_info st) = Some buf →
    ∃ ls, buf = join ls ∧ Forall (λ l, l ∈ pre ∧ owner l = Some t) ls.

(** A complete line: characters other than the newline, then one newline. *)
Fixpoint is_line (s : string) : bool :=
  match s with
  | EmptyString => false
  | String c r =>
      if Ascii.eqb c Py.newline then
        match r with EmptyString => true | String _ _ => false end
      else is_line r
  end.

(** A text whose last line, if it has one, ends with its newline. *)
Definition terminated (text : string) : bool :=
  forallb is_line (lines_of text).

(** A mapping of two genes, the second without a transcript. *)
Definition hollow_mapping : odict string (odict string Z) :=
  [("G1", [("T1", 3); ("T2", 5)]); ("G2", [])].

(** ** The text of a record *)

(** Every character of [s] is of the class. *)
Fixpoint all_chars (cls : ascii → bool) (s : string) : bool :=
  match s with
  | EmptyString => true
  | String c r => cls c && all_chars cls r
  end.

(** [p in s] *)
Fixpoint occurs (p s : string) : bool :=
  Py.startswith p s ||
  match s with String _ r => occurs p r | EmptyString => false end.

Definition not_tab (c : ascii) : bool := negb (Ascii.eqb c Py.tab).

(** The attributes of a record in the usual order: the [ID] first, other
    attributes [mid], the [Parent], other attributes [rest]. *)
Definition id_parent (id mid parent rest : string) : string :=
  "ID=" +:+ id +:+ ";" +:+ mid +:+ "Parent=" +:+ parent +:+ rest.

(** [rest] is empty or begins a further attribute. *)
Definition attr_end (rest : string) : bool :=
  negb (Py.truthy rest) || Py.startswith ";" rest.

(** A text that is not empty and that [rstrip] leaves as it is. *)
Definition rstrip_ok (cls : ascii → bool) (s : string) : Prop :=
  Py.truthy s = true ∧ Py.rstrip_class cls s = s.

(** An identifier as the scanner can extract it: not empty, without
    semicolon and without tab. *)
Definition ident (x : string) : Prop :=
  Py.truthy x = true ∧ all_chars Re.not_semicolon x = true ∧
  all_chars not_tab x = true.

(** A CDS record of the transcript [t] with integer coordinates. *)
Definition cds_of (t line : string) : Prop :=
  ∃ c3 c4, parse line = Cds t c3 c4 ∧ is_Some (Py.int c3) ∧ is_Some (Py.int c4).

(** The output of the run on [demo_world], and a world whose input file
    holds it. *)
Definition demo_output : string :=
  Eval vm_compute in default "" (files demo_final !! "out.gff").

Definition demo_rerun_world : world := World {[ "in.gff" := demo_output ]} ∅ ∅ [].

(** ** Scanning after another file *)

(** The dictionaries of [stx] are those of [st0] followed by those of
    [st] (the third dictionary, which the scanner never reads, apart). *)
Definition extends (st0 st stx : scan) : Prop :=
  gene_mrna_len stx = gene_mrna_len st0 ++ gene_mrna_len st ∧
  mrna_info stx = mrna_info st0 ++ mrna_info st ∧
  mrna_gene stx = mrna_gene st0 ++ mrna_gene st.

(** The record of [line] names no transcript and no gene of [st0]. *)
Definition fresh_for (st0 : scan) (line : string) : Prop :=
  match parse line with
  | MRna t g =>
      (t ∉ od_keys (mrna_info st0)) ∧ (t ∉ od_keys (mrna_gene st0)) ∧
      (g ∉ od_keys (gene_mrna_len st0))
  | Cds p _ _ => (p ∉ od_keys (mrna_info st0)) ∧ (p ∉ od_keys (mrna_gene st0))
  | Other => True
  end.

(** The genes that [st] gives to its transcripts are not genes of [st0]. *)
Definition genes_apart (st0 st : scan) : Prop :=
  ∀ t g, od_get t (mrna_gene st) = Some g → g ∉ od_keys (gene_mrna_len st0).

(** The file of [demo_world] followed by that of [tie_world]. *)
Definition both_world : world :=
  World {[ "in.gff" := demo_text +:+ join tie_lines ]} ∅ ∅ [].

(** * Checks of the text primitives *)

Example int_plain : Py.int "1200" = Some 1200.
Proof. reflexivity. Qed.
Example int_signed : Py.int " -7 " = Some (-7).
Proof. reflexivity. Qed.
Example int_underscore : Py.int "1_000" = Some 1000.
Proof. reflexivity. Qed.
Example int_bad1 : Py.int "1__0" = None.
Proof. reflexivity. Qed.
Example int_bad2 : Py.int "12a" = None.
Proof. reflexivity. Qed.
Example int_bad3 : Py.int "" = None.
Proof. reflexivity. Qed.
Example int_bad4 : Py.int "- 1" = None.
Proof. reflexivity. Qed.
(** [int] does not skip the separator 31 that [strip] removes; both skip
    the no-break space 160. *)
Example int_unit_separator : Py.int (String (ascii_of_N 31) "5") = None.
Proof. reflexivity. Qed.
Example strip_unit_separator : Py.strip (String (ascii_of_N 31) "5") = "5".
Proof. reflexivity. Qed.
Example int_no_break_space : Py.int (String (ascii_of_N 160) "12") = Some 12.
Proof. reflexivity. Qed.
Example split_ex : Py.split "," "a,,b," = ["a"; ""; "b"; ""].
Proof. reflexivity. Qed.
Example strip_ex : Py.strip "  a b  " = "a b".
Proof. reflexivity. Qed.
Example re_mrna :
  Re.first_match Re.mrna_pattern "ID=T1;Name=x;Parent=G1;Note=Parent" = Some ["T1"; "G1"].
Proof. reflexivity. Qed.
Example re_mrna_last_parent :
  Re.first_match Re.mrna_pattern "geneID=T1;Parent=G1;Parent=G2" = Some ["T1"; "G2"].
Proof. reflexivity. Qed.
Example re_mrna_order :
  Re.first_match Re.mrna_pattern "Parent=G1;ID=T1" = None.
Proof. reflexivity. Qed.
Example re_mrna_newline :
  Re.first_match Re.mrna_pattern ("ID=T1;" +:+ String Py.newline "Parent=G1") = None.
Proof. reflexivity. Qed.
Example re_mrna_empty_id :
  Re.first_match Re.mrna_pattern "ID=;ID=T2;Parent=G1" = Some ["T2"; "G1"].
Proof. reflexivity. Qed.
Example re_cds :
  Re.first_match Re.cds_pattern "ID=c1;Parent=T1;x=1" = Some ["T1"].
Proof. reflexivity. Qed.

(** * Reasoning about the scanner *)

(** ** Dictionaries *)

Section odict_facts.
Context {K V : Type} `{EqDecision K}.
Implicit Types (d : odict K V) (k : K) (v : V).

Lemma od_get_set_eq k v d : od_get k (od_set k v d) = Some v.
Proof.
  induction d as [|[k' v'] d IH]; simpl.
  - by rewrite decide_True.
  - destruct (decide (k = k')) as [->|Hne]; simpl.
    + by rewrite decide_True.
    + by rewrite decide_False.
Qed.

Lemma od_get_set_ne k k' v d : k ≠ k' → od_get k' (od_set k v d) = od_get k' d.
Proof.
  intros Hne. induction d as [|[k0 v0] d IH]; simpl.
  - by rewrite decide_False.
  - destruct (decide (k = k0)) as [->|Hne0]; simpl.
    + by rewrite !(decide_False (P := k' = k0)).
    + by rewrite IH.
Qed.

Lemma od_get_Some_elem k v d : od_get k d = Some v → (k, v) ∈ d.
Proof.
  induction d as [|[k' v'] d IH]; simpl; [done|].
  destruct (decide (k = k')) as [->|Hne].
  - intros [= ->]. apply list_elem_of_here.
  - intros Hg. apply list_elem_of_further. auto.
Qed.

Lemma od_get_is_Some k d : is_Some (od_get k d) ↔ k ∈ od_keys d.
Proof.
  unfold od_keys. induction d as [|[k' v'] d IH]; simpl.
  - split; [intros [? [=]]|intros Hin; inversion Hin].
  - destruct (decide (k = k')) as [->|Hne].
    + split; [intros _; apply list_elem_of_here|eauto].
    + rewrite IH. split; [apply list_elem_of_further|].
      intros Hin. inversion Hin; subst; done.
Qed.

Lemma od_get_None k d : od_get k d = None ↔ k ∉ od_keys d.
Proof. rewrite <- od_get_is_Some, eq_None_not_Some. done. Qed.

Lemma od_mem_true k d : od_mem k d = true ↔ k ∈ od_keys d.
Proof.
  rewrite <- od_get_is_Some. unfold od_mem.
  destruct (od_get k d); split; try done; eauto.
Qed.

Lemma od_mem_false k d : od_mem k d = false ↔ k ∉ od_keys d.
Proof. rewrite <- od_mem_true. destruct (od_mem k d); naive_solver. Qed.

(** Assignment keeps the order of the keys and appends a new key. *)
Lemma od_keys_set k v d :
  od_keys (od_set k v d) = if decide (k ∈ od_keys d) then od_keys d else od_keys d ++ [k].
Proof.
  unfold od_keys. induction d as [|[k' v'] d IH].
  - case_decide as Hin; [inversion Hin|done].
  - simpl od_set. destruct (decide (k = k')) as [->|Hne].
    + rewrite decide_True; [done|]. apply list_elem_of_here.
    + rewrite fmap_cons, IH. simpl.
      destruct (decide (k ∈ d.*1)) as [Hin|Hnin].
      * rewrite decide_True; [done|]. by apply list_elem_of_further.
      * rewrite decide_False; [done|].
        intros Hin. inversion Hin; subst; done.
Qed.

Lemma od_set_fresh k v d : k ∉ od_keys d → od_set k v d = d ++ [(k, v)].
Proof.
  unfold od_keys. induction d as [|[k' v'] d IH]; simpl; [done|].
  intros Hnin. rewrite decide_False.
  - rewrite IH; [done|]. intros Hin. apply Hnin. by apply list_elem_of_further.
  - intros ->. apply Hnin. apply list_elem_of_here.
Qed.

Lemma od_elem_get k v d : NoDup (od_keys d) → (k, v) ∈ d → od_get k d = Some v.
Proof.
  unfold od_keys. induction d as [|[k' v'] d IH]; simpl.
  - intros _ Hin. inversion Hin.
  - intros [Hnin Hnd]%NoDup_cons Hin. destruct (decide (k = k')) as [->|Hne].
    + apply elem_of_cons in Hin as [[= ->]|Hin]; [done|].
      exfalso. apply Hnin. apply list_elem_of_fmap. by exists (k', v).
    + apply elem_of_cons in Hin as [[= -> ->]|Hin]; [done|]. auto.
Qed.

Lemma od_keys_set_NoDup k v d : NoDup (od_keys d) → NoDup (od_keys (od_set k v d)).
Proof.
  intros Hnd. rewrite od_keys_set. case_decide; [done|].
  apply NoDup_app. split_and!; [done| |apply NoDup_singleton].
  intros x Hx ->%list_elem_of_singleton. done.
Qed.

Lemma od_set_nonempty k v d : od_set k v d ≠ [].
Proof. destruct d as [|[k' v'] d]; simpl; [done|]. by case_decide. Qed.

End odict_facts.

(** ** The monad and the loop *)

Lemma warned_nil w : warned [] w = w.
Proof. destruct w; unfold warned; simpl. by rewrite app_nil_r. Qed.

Lemma warned_app ws1 ws2 w : warned ws2 (warned ws1 w) = warned (ws1 ++ ws2) w.
Proof. unfold warned; simpl. by rewrite app_assoc. Qed.

Lemma run_bind {A B} (m : M A) (f : A → M B) w :
  (m ≫= f) w = match m w with (Ok a, w') => f a w' | (Raise e, w') => (Raise e, w') end.
Proof. reflexivity. Qed.

Lemma run_index_Some {A B} (l : list A) i x (f : A → M B) w :
  l !! i = Some x → (index l i ≫= f) w = f x w.
Proof. intros H. rewrite run_bind. unfold index. by rewrite H. Qed.

(** The loop body of [_readgff] computes [step] and writes its warnings. *)
Lemma scan_line_step st line w :
  scan_line st line w = ((step line st).1, warned (step line st).2 w).
Proof.
  unfold scan_line, step, parse. fold (columns line).
  destruct (Py.startswith "#" line || negb (Py.truthy (Py.strip line))).
  { simpl. by rewrite warned_nil. }
  destruct (length (columns line) <? 9)%nat eqn:Hlen.
  { simpl. by rewrite warned_nil. }
  apply Nat.ltb_ge in Hlen.
  destruct (lookup_lt_is_Some_2 (columns line) 2%nat) as [ty Hty]; [lia|].
  destruct (lookup_lt_is_Some_2 (columns line) 3%nat) as [c3 Hc3]; [lia|].
  destruct (lookup_lt_is_Some_2 (columns line) 4%nat) as [c4 Hc4]; [lia|].
  destruct (lookup_lt_is_Some_2 (columns line) 8%nat) as [attrs Hattrs]; [lia|].
  rewrite (run_index_Some _ _ _ _ _ Hty), Hty, Hattrs.
  destruct (String.eqb ty "mRNA").
  { rewrite (run_index_Some _ _ _ _ _ Hattrs).
    destruct (Re.first_match Re.mrna_pattern attrs) as [[|t [|g [|]]]|];
      simpl; rewrite ?warned_nil; try done.
    rewrite run_bind. unfold getitem, register.
    destruct (od_mem g (gene_mrna_len st)) eqn:Hmem.
    - apply od_mem_true, od_get_is_Some in Hmem as [d Hd]. rewrite Hd. done.
    - rewrite od_get_set_eq. done. }
  destruct (String.eqb ty "CDS"); [|simpl; by rewrite warned_nil].
  rewrite (run_index_Some _ _ _ _ _ Hattrs), Hc3, Hc4.
  destruct (Re.first_match Re.cds_pattern attrs) as [[|p [|]]|];
    simpl; rewrite ?warned_nil; try done.
  unfold od_mem. destruct (od_get p (mrna_info st)) as [buf|] eqn:Hbuf.
  2:{ done. }
  rewrite run_bind. unfold getitem at 1. rewrite Hbuf. simpl.
  rewrite run_bind. unfold getitem at 1.
  destruct (od_get p (mrna_gene st)) as [g|]; simpl; rewrite ?warned_nil; [|done].
  rewrite (run_index_Some _ _ _ _ _ Hc4).
  rewrite run_bind. unfold int at 1.
  destruct (Py.int c4) as [e|]; simpl; rewrite ?warned_nil; [|done].
  rewrite (run_index_Some _ _ _ _ _ Hc3).
  rewrite run_bind. unfold int at 1.
  destruct (Py.int c3) as [s|]; simpl; rewrite ?warned_nil; [|done].
  rewrite run_bind. unfold getitem at 1.
  destruct (od_get g (gene_mrna_len st)) as [d|]; simpl; rewrite ?warned_nil; [|done].
  rewrite run_bind. unfold getitem at 1.
  destruct (od_get p d) as [n|]; simpl; rewrite ?warned_nil; done.
Qed.

Lemma for_each_steps lines st w :
  for_each lines scan_line st w = ((steps lines st).1, warned (steps lines st).2 w).
Proof.
  revert st w. induction lines as [|line rest IH]; intros st w; simpl.
  - by rewrite warned_nil.
  - rewrite run_bind, scan_line_step.
    destruct (step line st) as [[st'|e] ws]; simpl; [|done].
    rewrite IH. destruct (steps rest st') as [r ws']; simpl.
    by rewrite warned_app.
Qed.

Lemma steps_app l1 l2 st :
  steps (l1 ++ l2) st =
  match steps l1 st with
  | (Ok st', ws) => let '(r, ws') := steps l2 st' in (r, ws ++ ws')
  | (Raise e, ws) => (Raise e, ws)
  end.
Proof.
  revert st. induction l1 as [|line l1 IH]; intros st; simpl.
  - by destruct (steps l2 st).
  - destruct (step line st) as [[st'|e] ws]; [|done].
    rewrite IH. destruct (steps l1 st') as [[st''|e] ws']; [|done].
    destruct (steps l2 st'') as [r ws'']. by rewrite app_assoc.
Qed.

Lemma steps_snoc_Ok pre line st st' ws :
  steps (pre ++ [line]) st = (Ok st', ws) →
  ∃ st0 ws0 ws1, steps pre st = (Ok st0, ws0) ∧ step line st0 = (Ok st', ws1) ∧
                 ws = ws0 ++ ws1.
Proof.
  rewrite steps_app. destruct (steps pre st) as [[st0|e] ws0]; [|done].
  simpl. destruct (step line st0) as [[st1|e] ws1] eqn:Hstep; [|done].
  rewrite app_nil_r. intros [= -> <-]. by exists st0, ws0, ws1.
Qed.

(** ** The records of a file *)

Section dedup_facts.
Context {A : Type} `{EqDecision A}.
Implicit Types (l : list A) (x : A).

Lemma dedup_snoc l x :
  dedup (l ++ [x]) = if decide (x ∈ dedup l) then dedup l else dedup l ++ [x].
Proof. unfold dedup. by rewrite fold_left_app. Qed.

Lemma elem_of_dedup l x : x ∈ dedup l ↔ x ∈ l.
Proof.
  induction l as [|y l IH] using rev_ind.
  - done.
  - rewrite dedup_snoc, elem_of_app, list_elem_of_singleton, <- IH.
    case_decide.
    + split; [auto|]. intros [?| ->]; done.
    + by rewrite elem_of_app, list_elem_of_singleton.
Qed.

Lemma NoDup_dedup l : NoDup (dedup l).
Proof.
  induction l as [|y l IH] using rev_ind.
  - apply NoDup_nil_2.
  - rewrite dedup_snoc. case_decide; [done|].
    apply NoDup_app. split_and!; [done| |apply NoDup_singleton].
    intros x Hx ->%list_elem_of_singleton. done.
Qed.

Lemma dedup_NoDup l : NoDup l → dedup l = l.
Proof.
  induction l as [|y l IH] using rev_ind; [done|].
  intros (Hl & Hy & _)%NoDup_app. rewrite dedup_snoc, IH by done.
  rewrite decide_False; [done|]. intros Hin. apply (Hy y Hin), list_elem_of_here.
Qed.

Lemma dedup_nil_inv l : dedup l = [] → l = [].
Proof.
  destruct l as [|x l]; [done|]. intros Hd.
  assert (x ∈ dedup (x :: l)) as Hin by (apply elem_of_dedup, list_elem_of_here).
  rewrite Hd in Hin. inversion Hin.
Qed.
End dedup_facts.

Section record_facts.
Implicit Types (pre lines : list string) (line t g : string).

Lemma mrna_ids_snoc pre line :
  mrna_ids (pre ++ [line]) =
  mrna_ids pre ++ match parse line with MRna t _ => [t] | _ => [] end.
Proof. unfold mrna_ids. rewrite omap_app. simpl. by destruct (parse line). Qed.

Lemma genes_snoc pre line :
  genes (pre ++ [line]) =
  genes pre ++ match parse line with MRna _ g => [g] | _ => [] end.
Proof. unfold genes. rewrite omap_app. simpl. by destruct (parse line). Qed.

Lemma transcripts_snoc g pre line :
  transcripts g (pre ++ [line]) =
  transcripts g pre ++
    match parse line with
    | MRna t g' => if decide (g' = g) then [t] else []
    | _ => []
    end.
Proof.
  unfold transcripts. rewrite omap_app. simpl.
  destruct (parse line); try done. by case_decide.
Qed.

Lemma gene_of_snoc t pre line :
  gene_of t (pre ++ [line]) =
  match parse line with
  | MRna t' g => if decide (t' = t) then Some g else gene_of t pre
  | _ => gene_of t pre
  end.
Proof.
  unfold gene_of. rewrite omap_app. simpl.
  destruct (parse line); rewrite ?app_nil_r; try done.
  case_decide; [apply last_snoc|by rewrite app_nil_r].
Qed.

Lemma elem_of_mrna_ids t lines :
  t ∈ mrna_ids lines ↔ ∃ l g, l ∈ lines ∧ parse l = MRna t g.
Proof.
  unfold mrna_ids. rewrite list_elem_of_omap. split.
  - intros (l & Hl & Hp). destruct (parse l) eqn:E; try done. injection Hp as ->. eauto.
  - intros (l & g & Hl & Hp). exists l. by rewrite Hp.
Qed.

Lemma elem_of_genes g lines :
  g ∈ genes lines ↔ ∃ l t, l ∈ lines ∧ parse l = MRna t g.
Proof.
  unfold genes. rewrite list_elem_of_omap. split.
  - intros (l & Hl & Hp). destruct (parse l) eqn:E; try done. injection Hp as ->. eauto.
  - intros (l & t & Hl & Hp). exists l. by rewrite Hp.
Qed.

Lemma elem_of_transcripts t g lines :
  t ∈ transcripts g lines ↔ ∃ l, l ∈ lines ∧ parse l = MRna t g.
Proof.
  unfold transcripts. rewrite list_elem_of_omap. split.
  - intros (l & Hl & Hp). destruct (parse l) eqn:E; try done.
    case_decide; simplify_eq. eauto.
  - intros (l & Hl & Hp). exists l. rewrite Hp. by rewrite decide_True.
Qed.

Lemma gene_of_Some t g lines : gene_of t lines = Some g → t ∈ transcripts g lines.
Proof.
  unfold gene_of. intros Hl%last_Some_elem_of.
  apply list_elem_of_omap in Hl as (l & Hl & Hp).
  apply elem_of_transcripts. exists l. split; [done|].
  destruct (parse l); try done. by case_decide; simplify_eq.
Qed.

Lemma gene_of_is_Some t lines : t ∈ mrna_ids lines → is_Some (gene_of t lines).
Proof.
  intros (l & g & Hl & Hp)%elem_of_mrna_ids. unfold gene_of.
  apply last_is_Some. intros Hnil.
  assert (g ∈ omap (λ l, match parse l with
                         | MRna t' g => if decide (t' = t) then Some g else None
                         | _ => None
                         end) lines) as Hin.
  { apply list_elem_of_omap. exists l. rewrite Hp. by rewrite decide_True. }
  rewrite Hnil in Hin. inversion Hin.
Qed.

Lemma transcripts_genes t g lines : t ∈ transcripts g lines → g ∈ genes lines.
Proof. rewrite elem_of_transcripts, elem_of_genes. intros (l & ? & ?). eauto. Qed.

Lemma transcripts_mrna_ids t g lines : t ∈ transcripts g lines → t ∈ mrna_ids lines.
Proof. rewrite elem_of_transcripts, elem_of_mrna_ids. intros (l & ? & ?). eauto. Qed.

Lemma genes_transcripts g lines : g ∈ genes lines → ∃ t, t ∈ transcripts g lines.
Proof.
  intros (l & t & ?)%elem_of_genes. exists t. apply elem_of_transcripts. eauto.
Qed.
End record_facts.

(** ** Joining strings *)

Lemma string_app_cons c s1 s2 : String c s1 +:+ s2 = String c (s1 +:+ s2).
Proof. reflexivity. Qed.

Lemma string_app_nil_l s : "" +:+ s = s.
Proof. reflexivity. Qed.

Lemma string_app_nil_r s : s +:+ "" = s.
Proof. induction s as [|c s IH]; [done|]. by rewrite string_app_cons, IH. Qed.

Lemma string_app_assoc s1 s2 s3 : (s1 +:+ s2) +:+ s3 = s1 +:+ (s2 +:+ s3).
Proof.
  induction s1 as [|c s1 IH]; [done|]. by rewrite !string_app_cons, IH.
Qed.

Lemma join_cons x l : join (x :: l) = x +:+ join l.
Proof. reflexivity. Qed.

Lemma join_app l1 l2 : join (l1 ++ l2) = join l1 +:+ join l2.
Proof.
  induction l1 as [|x l1 IH]; [done|].
  by rewrite <- app_comm_cons, !join_cons, IH, string_app_assoc.
Qed.

Lemma join_snoc l x : join (l ++ [x]) = join l +:+ x.
Proof. by rewrite join_app, join_cons, string_app_nil_r. Qed.

(** ** Every state that the scanner reaches is consistent *)

Lemma consistent_empty : consistent [] empty_scan.
Proof. by split. Qed.

Lemma od_mem_get {V} (k : string) (d : odict string V) :
  od_mem k d = match od_get k d with Some _ => true | None => false end.
Proof. reflexivity. Qed.

Lemma consistent_register pre st line t g :
  consistent pre st → parse line = MRna t g →
  consistent (pre ++ [line]) (register line t g st).
Proof.
  intros [Hg Ht Hi Hgo Hb] Hp. unfold register.
  set (gml := if od_mem g (gene_mrna_len st) then gene_mrna_len st
              else od_set g [] (gene_mrna_len st)).
  assert (od_keys gml = dedup (genes pre ++ [g])) as Hkeys.
  { subst gml. rewrite dedup_snoc, <- Hg.
    destruct (od_mem g (gene_mrna_len st)) eqn:Hmem.
    - apply od_mem_true in Hmem. by rewrite decide_True.
    - apply od_mem_false in Hmem. rewrite od_keys_set. by rewrite !decide_False. }
  assert (g ∈ od_keys gml) as Hgin.
  { rewrite Hkeys. apply elem_of_dedup, elem_of_app. right. apply list_elem_of_here. }
  assert (od_keys (default [] (od_get g gml)) = dedup (transcripts g pre)) as Hd0.
  { subst gml. destruct (od_mem g (gene_mrna_len st)) eqn:Hmem.
    - apply od_mem_true, od_get_is_Some in Hmem as [d Hd]. rewrite Hd. eauto.
    - rewrite od_get_set_eq. simpl. apply od_mem_false in Hmem.
      rewrite Hg, elem_of_dedup in Hmem.
      destruct (dedup (transcripts g pre)) as [|t' l] eqn:E; [done|].
      exfalso. apply Hmem. apply (transcripts_genes t').
      apply elem_of_dedup. rewrite E. apply list_elem_of_here. }
  split; simpl.
  - rewrite od_keys_set, decide_True by done. rewrite Hkeys, genes_snoc. by rewrite Hp.
  - intros g' d. rewrite transcripts_snoc, Hp. destruct (decide (g = g')) as [<-|Hne].
    + rewrite od_get_set_eq. intros [= <-].
      by rewrite od_keys_set, dedup_snoc, Hd0.
    + rewrite od_get_set_ne, app_nil_r by done. subst gml.
      destruct (od_mem g (gene_mrna_len st)); [apply Ht|].
      rewrite od_get_set_ne by done. apply Ht.
  - rewrite od_keys_set, mrna_ids_snoc, Hp, dedup_snoc, Hi. done.
  - intros t'. rewrite gene_of_snoc, Hp. destruct (decide (t = t')) as [<-|Hne].
    + by rewrite od_get_set_eq.
    + by rewrite od_get_set_ne.
  - intros t' buf. destruct (decide (t = t')) as [<-|Hne].
    + rewrite od_get_set_eq. intros [= <-]. exists line, []. split_and!.
      * by rewrite string_app_nil_r.
      * eauto.
      * done.
    + rewrite od_get_set_ne by done. apply Hb.
Qed.

Lemma consistent_other pre st line :
  consistent pre st → (∀ t g, parse line ≠ MRna t g) →
  consistent (pre ++ [line]) st.
Proof.
  intros [Hg Ht Hi Hgo Hb] Hp.
  assert (match parse line with MRna t _ => [t] | _ => [] end = []) as E1
    by (destruct (parse line); naive_solver).
  assert (match parse line with MRna _ g => [g] | _ => [] end = []) as E2
    by (destruct (parse line); naive_solver).
  split.
  - by rewrite genes_snoc, E2, app_nil_r.
  - intros g d Hd. rewrite transcripts_snoc.
    destruct (parse line); rewrite ?app_nil_r; eauto. naive_solver.
  - by rewrite mrna_ids_snoc, E1, app_nil_r.
  - intros t. rewrite gene_of_snoc. destruct (parse line); eauto. naive_solver.
  - done.
Qed.

Lemma consistent_attach pre st line p c3 c4 g buf d n len :
  consistent pre st → parse line = Cds p c3 c4 →
  od_get p (mrna_info st) = Some buf →
  od_get g (gene_mrna_len st) = Some d →
  od_get p d = Some n →
  consistent (pre ++ [line]) (attach line p g buf d n len st).
Proof.
  intros Hc Hp Hbuf Hd Hn.
  assert (consistent (pre ++ [line]) st) as [Hg Ht Hi Hgo Hb].
  { apply consistent_other; [done|]. intros ??. by rewrite Hp. }
  split; simpl.
  - rewrite od_keys_set, decide_True; [done|]. apply od_get_is_Some. eauto.
  - intros g' d'. destruct (decide (g = g')) as [<-|Hne].
    + rewrite od_get_set_eq. intros [= <-].
      rewrite od_keys_set, decide_True; [eauto|]. apply od_get_is_Some. eauto.
    + rewrite od_get_set_ne by done. apply Ht.
  - rewrite od_keys_set, decide_True; [done|]. apply od_get_is_Some. eauto.
  - done.
  - intros t buf'. destruct (decide (p = t)) as [<-|Hne].
    + rewrite od_get_set_eq. intros [= <-].
      destruct (Hb _ _ Hbuf) as (ml & cls & -> & Hml & Hcls).
      exists ml, (cls ++ [line]). split_and!.
      * by rewrite join_snoc, string_app_assoc.
      * done.
      * apply Forall_app. split; [done|]. apply Forall_singleton. eauto.
    + rewrite od_get_set_ne by done. apply Hb.
Qed.

Lemma consistent_step pre st line st' ws :
  consistent pre st → step line st = (Ok st', ws) →
  consistent (pre ++ [line]) st'.
Proof.
  intros Hc. unfold step. destruct (parse line) as [|t g|p c3 c4] eqn:Hp.
  - intros [= <- <-]. apply consistent_other; [done|]. intros ??. by rewrite Hp.
  - intros [= <- <-]. by apply consistent_register.
  - destruct (od_get p (mrna_info st)) as [buf|] eqn:Hbuf.
    + destruct (od_get p (mrna_gene st)) as [g|]; [|done].
      destruct (Py.int c4), (Py.int c3); try done.
      destruct (od_get g (gene_mrna_len st)) as [d|] eqn:Hd; [|done].
      destruct (od_get p d) as [n|] eqn:Hn; [|done].
      intros [= <- <-]. by eapply consistent_attach.
    + intros [= <- <-].
      destruct (consistent_other pre st line Hc) as [Hg Ht Hi Hgo Hb].
      { intros ??. by rewrite Hp. }
      by split.
Qed.

Lemma consistent_steps lines st ws :
  steps lines empty_scan = (Ok st, ws) → consistent lines st.
Proof.
  revert st ws. induction lines as [|line pre IH] using rev_ind; intros st ws.
  - intros [= <- <-]. apply consistent_empty.
  - intros (st0 & ws0 & ws1 & H0 & H1 & _)%steps_snoc_Ok.
    eapply consistent_step; eauto.
Qed.

(** ** The stable descending sort and its first element *)

Section sorted_facts.
Context {A : Type} (key : A → Z).
Implicit Types (l : list A) (x : A).

Lemma insert_desc_perm x l : insert_desc key x l ≡ₚ x :: l.
Proof.
  induction l as [|y l IH]; simpl; [done|].
  destruct (key y <=? key x); [done|]. rewrite IH. apply Permutation_swap.
Qed.

(** The result is a rearrangement of the input ... *)
Lemma sorted_desc_perm l : sorted_desc key l ≡ₚ l.
Proof.
  induction l as [|x l IH]; simpl; [done|]. by rewrite insert_desc_perm, IH.
Qed.

Lemma insert_desc_descending x l :
  descending key l → descending key (insert_desc key x l).
Proof.
  unfold descending. induction 1 as [|y l Hl IH Hy]; simpl.
  - by repeat constructor.
  - destruct (key y <=? key x) eqn:E.
    + apply Z.leb_le in E. by repeat constructor.
    + apply Z.leb_gt in E. constructor; [done|].
      destruct l as [|z l]; simpl.
      * constructor. lia.
      * inversion Hy; subst. destruct (key z <=? key x); constructor; lia.
Qed.

(** ... in which the keys never increase ... *)
Lemma sorted_desc_descending l : descending key (sorted_desc key l).
Proof.
  induction l as [|x l IH]; simpl; [constructor|].
  by apply insert_desc_descending.
Qed.

Lemma filter_insert_desc k x l :
  filter (λ y, key y = k) (insert_desc key x l) =
  filter (λ y, key y = k) (x :: l).
Proof.
  induction l as [|y l IH]; simpl; [done|].
  destruct (key y <=? key x) eqn:E; [done|]. apply Z.leb_gt in E.
  rewrite (filter_cons _ y), IH, !(filter_cons _ x), (filter_cons _ y).
  destruct (decide (key x = k)), (decide (key y = k)); try done. lia.
Qed.

(** ... and elements of equal key keep their order. *)
Lemma sorted_desc_stable k l :
  filter (λ y, key y = k) (sorted_desc key l) = filter (λ y, key y = k) l.
Proof.
  induction l as [|x l IH]; simpl; [done|].
  by rewrite filter_insert_desc, !filter_cons, IH.
Qed.

Lemma head_insert_desc x l :
  head (insert_desc key x l) =
  Some (match head l with
        | Some y => if key y <=? key x then x else y
        | None => x
        end).
Proof. destruct l as [|y l]; simpl; [done|]. by destruct (key y <=? key x). Qed.

(** The first element of the sorted list is the first element of the
    input whose key is maximal. *)
Lemma head_sorted_desc l1 x l2 :
  Forall (λ y, key y < key x) l1 → Forall (λ y, key y ≤ key x) l2 →
  head (sorted_desc key (l1 ++ x :: l2)) = Some x.
Proof.
  intros H1 H2. induction H1 as [|y l1 Hy H1 IH]; simpl.
  - rewrite head_insert_desc.
    destruct (head (sorted_desc key l2)) as [y|] eqn:E; [|done].
    assert (y ∈ l2) as Hin.
    { rewrite <- sorted_desc_perm. by apply head_Some_elem_of. }
    rewrite Forall_forall in H2. specialize (H2 y Hin).
    apply Z.leb_le in H2. by rewrite H2.
  - rewrite head_insert_desc, IH.
    destruct (key x <=? key y) eqn:E; [|done]. apply Z.leb_le in E. lia.
Qed.

Lemma head_sorted_desc_inv l x :
  head (sorted_desc key l) = Some x →
  ∃ l1 l2, l = l1 ++ x :: l2 ∧
           Forall (λ y, key y < key x) l1 ∧ Forall (λ y, key y ≤ key x) l2.
Proof.
  revert x. induction l as [|y l IH]; intros x; simpl; [done|].
  rewrite head_insert_desc.
  destruct (head (sorted_desc key l)) as [z|] eqn:E.
  - destruct (IH z eq_refl) as (l1 & l2 & -> & H1 & H2).
    destruct (key z <=? key y) eqn:Hle; intros [= <-].
    + apply Z.leb_le in Hle. exists [], (l1 ++ z :: l2). split_and!; [done..|].
      apply Forall_app. split; [|constructor].
      * eapply Forall_impl; [exact H1|]. simpl. lia.
      * lia.
      * eapply Forall_impl; [exact H2|]. simpl. lia.
    + apply Z.leb_gt in Hle. exists (y :: l1), l2. split_and!; [done| |done].
      by constructor.
  - intros [= <-]. exists [], l. split_and!; [done..|].
    destruct l as [|z l]; [done|]. simpl in E.
    by rewrite head_insert_desc in E.
Qed.

Lemma head_sorted_desc_is_Some l : l ≠ [] → is_Some (head (sorted_desc key l)).
Proof. destruct l; [done|]. simpl. rewrite head_insert_desc. eauto. Qed.
End sorted_facts.

(** ** The selector *)

Lemma getmax_loop gml suffix acc w :
  (∀ g d, (g, d) ∈ suffix → od_get g gml = Some d ∧ d ≠ []) →
  for_each (od_keys suffix) (_getmax_step gml) acc w = (Ok (acc ++ selection suffix), w) ∧
  Forall2 (λ gd t, longest gd.2 = Some t) suffix (selection suffix).
Proof.
  revert acc. induction suffix as [|[g d] suffix IH]; intros acc Hs.
  - split; [|done]. simpl. by rewrite app_nil_r.
  - destruct (Hs g d) as [Hd Hne]; [apply list_elem_of_here|].
    destruct (head_sorted_desc_is_Some snd d Hne) as [[t n] Ht].
    destruct (IH (acc ++ [t])) as (Hrun & Hsel).
    { intros g' d' Hin. apply Hs. by apply list_elem_of_further. }
    assert (longest d = Some t) as Hl by (unfold longest; by rewrite Ht).
    assert (selection ((g, d) :: suffix) = t :: selection suffix) as ->.
    { unfold selection. simpl. by rewrite Hl. }
    split.
    + simpl. rewrite run_bind. unfold _getmax_step at 1.
      rewrite run_bind. unfold getitem. rewrite Hd. simpl.
      rewrite run_bind. unfold index.
      rewrite <- head_lookup, Ht. simpl.
      rewrite Hrun. by rewrite <- app_assoc.
    + by constructor.
Qed.

Lemma getmax_run gml w :
  NoDup (od_keys gml) → (∀ g d, (g, d) ∈ gml → d ≠ []) →
  _getmax gml w = (Ok (selection gml), w) ∧
  Forall2 (λ gd t, longest gd.2 = Some t) gml (selection gml).
Proof.
  intros Hnd Hne. apply (getmax_loop gml gml [] w).
  intros g d Hin. split; [by apply od_elem_get|eauto].
Qed.

(** ** Consequences of consistency *)

Lemma consistent_gml_NoDup pre st :
  consistent pre st → NoDup (od_keys (gene_mrna_len st)).
Proof. intros [Hg _ _ _ _]. rewrite Hg. apply NoDup_dedup. Qed.

Lemma consistent_info_NoDup pre st :
  consistent pre st → NoDup (od_keys (mrna_info st)).
Proof. intros [_ _ Hi _ _]. rewrite Hi. apply NoDup_dedup. Qed.

Lemma consistent_registered pre st t :
  consistent pre st → is_Some (od_get t (mrna_info st)) ↔ t ∈ mrna_ids pre.
Proof. intros [_ _ Hi _ _]. by rewrite od_get_is_Some, Hi, elem_of_dedup. Qed.

(** Every key of the dictionary of a gene is a transcript declared for it. *)
Lemma consistent_inner pre st g d t :
  consistent pre st → (g, d) ∈ gene_mrna_len st →
  t ∈ od_keys d ↔ t ∈ transcripts g pre.
Proof.
  intros Hc Hin. pose proof (consistent_gml_NoDup _ _ Hc) as Hnd.
  destruct Hc as [_ Ht _ _ _].
  by rewrite (Ht g d (od_elem_get _ _ _ Hnd Hin)), elem_of_dedup.
Qed.

Lemma consistent_inner_nonempty pre st g d :
  consistent pre st → (g, d) ∈ gene_mrna_len st → d ≠ [].
Proof.
  intros Hc Hin ->.
  assert (g ∈ genes pre) as Hg.
  { destruct Hc as [Hg _ _ _ _]. apply elem_of_dedup. rewrite <- Hg.
    apply list_elem_of_fmap. by exists (g, []). }
  destruct (genes_transcripts _ _ Hg) as [t Ht].
  apply (consistent_inner _ _ _ _ _ Hc Hin) in Ht. inversion Ht.
Qed.

(** The look-ups of the CDS branch succeed for a registered transcript. *)
Lemma consistent_lookup pre st t :
  consistent pre st → t ∈ mrna_ids pre →
  ∃ buf g d n,
    od_get t (mrna_info st) = Some buf ∧ od_get t (mrna_gene st) = Some g ∧
    gene_of t pre = Some g ∧
    od_get g (gene_mrna_len st) = Some d ∧ od_get t d = Some n.
Proof.
  intros Hc Ht.
  destruct (proj2 (consistent_registered _ _ t Hc) Ht) as [buf Hbuf].
  destruct (gene_of_is_Some _ _ Ht) as [g Hg].
  pose proof (gene_of_Some _ _ _ Hg) as Htr.
  destruct Hc as [Hgs Hts _ Hgo _].
  assert (is_Some (od_get g (gene_mrna_len st))) as [d Hd].
  { apply od_get_is_Some. rewrite Hgs. apply elem_of_dedup.
    by eapply transcripts_genes. }
  assert (is_Some (od_get t d)) as [n Hn].
  { apply od_get_is_Some. rewrite (Hts _ _ Hd). by apply elem_of_dedup. }
  exists buf, g, d, n. rewrite Hgo. split_and!; assumption.
Qed.

(** In a consistent state the loop body can only fail on a coordinate. *)
Lemma consistent_step_raise pre st line e ws :
  consistent pre st → step line st = (Raise e, ws) →
  e = ValueError ∧ ws = [] ∧
  ∃ p c3 c4, parse line = Cds p c3 c4 ∧ p ∈ mrna_ids pre ∧
             (Py.int c3 = None ∨ Py.int c4 = None).
Proof.
  intros Hc. unfold step. destruct (parse line) as [|t g|p c3 c4] eqn:Hp; try done.
  destruct (od_get p (mrna_info st)) as [buf|] eqn:Hbuf; [|done].
  assert (p ∈ mrna_ids pre) as Hin.
  { apply (consistent_registered _ _ p Hc). eauto. }
  destruct (consistent_lookup _ _ _ Hc Hin)
    as (buf' & g & d & n & _ & -> & _ & Hd & Hn).
  destruct (Py.int c4) eqn:E4; [destruct (Py.int c3) eqn:E3|].
  - by rewrite Hd, Hn.
  - intros [= <- <-]. split_and!; [done..|]. exists p, c3, c4. eauto.
  - intros [= <- <-]. split_and!; [done..|]. exists p, c3, c4. eauto.
Qed.

Lemma steps_raise lines e ws :
  steps lines empty_scan = (Raise e, ws) → e = ValueError.
Proof.
  assert (∀ post pre st ws, consistent pre st → steps post st = (Raise e, ws) →
                            e = ValueError) as Hgen.
  { clear ws. induction post as [|line post IH]; intros pre st ws Hc; simpl; [done|].
    destruct (step line st) as [[st'|e'] ws'] eqn:Hstep.
    - destruct (steps post st') as [r ws''] eqn:Hrest. intros [= -> <-].
      eapply (IH (pre ++ [line])); [|done]. by eapply consistent_step.
    - intros [= -> <-]. by destruct (consistent_step_raise _ _ _ _ _ Hc Hstep). }
  apply (Hgen lines [] empty_scan ws consistent_empty).
Qed.

(** ** Writing the blocks *)

Lemma file_write_run out text old w :
  files w !! out = Some old →
  file_write out text w =
  (Ok (), World (<[out := old +:+ text]> (files w)) (read_errors w)
                (write_errors w) (stderr w)).
Proof.
  intros Hold. unfold file_write. do 2 f_equal.
  apply map_eq. intros p. destruct (decide (out = p)) as [<-|Hne].
  - by rewrite lookup_alter_eq, lookup_insert_eq, Hold.
  - by rewrite lookup_alter_ne, lookup_insert_ne.
Qed.

Lemma write_block_run out mi t b old w :
  od_get t mi = Some b → files w !! out = Some old →
  write_block out mi () t w =
  (Ok (), World (<[out := old +:+ b]> (files w)) (read_errors w)
                (write_errors w) (stderr w)).
Proof.
  intros Ht Hold. unfold write_block. rewrite od_mem_get, Ht.
  rewrite run_bind. unfold getitem. rewrite Ht.
  by apply file_write_run.
Qed.

Lemma write_blocks_run out mi sel bufs old w :
  Forall2 (λ t b, od_get t mi = Some b) sel bufs →
  files w !! out = Some old →
  for_each sel (write_block out mi) () w =
  (Ok (), World (<[out := old +:+ join bufs]> (files w)) (read_errors w)
                (write_errors w) (stderr w)).
Proof.
  intros Hsel. revert old w.
  induction Hsel as [|t b sel bufs Ht Hsel IH]; intros old w Hold.
  - simpl. rewrite string_app_nil_r, insert_id by done. by destruct w.
  - rewrite join_cons. cbn [for_each].
    rewrite run_bind, (write_block_run _ _ _ b old) by done.
    rewrite (IH (old +:+ b)); cbn [files read_errors write_errors stderr].
    + by rewrite insert_insert_eq, string_app_assoc.
    + by rewrite lookup_insert_eq.
Qed.

(** ** Whole runs of [Maxlen.main] *)

Lemma longest_key d t : longest d = Some t → t ∈ od_keys d.
Proof.
  unfold longest. destruct (head (sorted_desc snd d)) as [[t' n]|] eqn:E; [|done].
  intros [= <-]. apply head_Some_elem_of in E. rewrite sorted_desc_perm in E.
  apply list_elem_of_fmap. by exists (t', n).
Qed.

Lemma consistent_selected pre st :
  consistent pre st →
  Forall (λ t, is_Some (od_get t (mrna_info st))) (selection (gene_mrna_len st)).
Proof.
  intros Hc. apply Forall_forall. intros t Ht.
  apply list_elem_of_omap in Ht as ([g d] & Hin & Hl). simpl in Hl.
  apply longest_key in Hl. apply (consistent_inner _ _ _ _ _ Hc Hin) in Hl.
  apply (consistent_registered _ _ _ Hc). by eapply transcripts_mrna_ids.
Qed.

Lemma consistent_blocks pre st :
  consistent pre st →
  Forall2 (λ t b, od_get t (mrna_info st) = Some b)
          (selection (gene_mrna_len st)) (blocks st).
Proof.
  intros Hc. pose proof (consistent_selected _ _ Hc) as Hsel. unfold blocks.
  induction Hsel as [|t sel [b Hb] Hsel IH]; simpl; [constructor|].
  rewrite Hb. by constructor.
Qed.

Lemma consistent_getmax pre st w :
  consistent pre st →
  _getmax (gene_mrna_len st) w = (Ok (selection (gene_mrna_len st)), w) ∧
  Forall2 (λ gd t, longest gd.2 = Some t)
          (gene_mrna_len st) (selection (gene_mrna_len st)).
Proof.
  intros Hc. apply getmax_run.
  - by eapply consistent_gml_NoDup.
  - intros g d. by eapply consistent_inner_nonempty.
Qed.

Lemma readgff_run gff w text :
  read_errors w !! gff = None → files w !! gff = Some text →
  _readgff gff w =
  ((steps (lines_of text) empty_scan).1,
   warned (steps (lines_of text) empty_scan).2 w).
Proof.
  intros Hr Hf. unfold _readgff. rewrite run_bind. unfold open_read.
  rewrite Hr, Hf. apply for_each_steps.
Qed.

Lemma main_run_ok gff outgff w text st ws :
  write_errors w !! outgff = None → read_errors w !! gff = None →
  files (truncated outgff w) !! gff = Some text →
  steps (lines_of text) empty_scan = (Ok st, ws) →
  Maxlen.main gff outgff w =
  (Ok (), World (<[outgff := join (blocks st)]> (files w)) (read_errors w)
                (write_errors w) (stderr w ++ ws)).
Proof.
  intros Hw Hr Hf Hsteps. pose proof (consistent_steps _ _ _ Hsteps) as Hc.
  unfold Maxlen.main, except_IOError. rewrite run_bind.
  unfold open_write at 1. rewrite Hw. fold (truncated outgff w).
  rewrite run_bind, (readgff_run _ _ text), Hsteps by done.
  cbn [fst snd]. cbv beta iota.
  rewrite run_bind, (proj1 (consistent_getmax _ _ _ Hc)).
  rewrite (write_blocks_run _ _ _ (blocks st) "").
  - simpl. by rewrite insert_insert_eq.
  - by eapply consistent_blocks.
  - simpl. by rewrite lookup_insert_eq.
Qed.

Lemma main_run_raise gff outgff w text e ws :
  write_errors w !! outgff = None → read_errors w !! gff = None →
  files (truncated outgff w) !! gff = Some text →
  steps (lines_of text) empty_scan = (Raise e, ws) →
  Maxlen.main gff outgff w = (Raise ValueError, warned ws (truncated outgff w)).
Proof.
  intros Hw Hr Hf Hsteps. pose proof (steps_raise _ _ _ Hsteps) as ->.
  unfold Maxlen.main, except_IOError. rewrite run_bind.
  unfold open_write at 1. rewrite Hw. fold (truncated outgff w).
  by rewrite run_bind, (readgff_run _ _ text), Hsteps.
Qed.

(** The input is read once the output has been opened: it is the file of
    the world when the two paths differ, and the truncated output file
    when they are the same. *)
Lemma truncated_input gff outgff w :
  files (truncated outgff w) !! gff =
  if decide (outgff = gff) then Some "" else files w !! gff.
Proof.
  unfold truncated. simpl. case_decide as H.
  - subst. apply lookup_insert_eq.
  - by apply lookup_insert_ne.
Qed.

(** Every run of [Maxlen.main], by what it meets first. *)
Lemma main_cases gff outgff w :
  match write_errors w !! outgff with
  | Some msg =>
      Maxlen.main gff outgff w = (Raise (SystemExit 1), warned [error_line msg] w)
  | None =>
      match read_errors w !! gff, files (truncated outgff w) !! gff with
      | Some msg, _ =>
          Maxlen.main gff outgff w =
          (Raise (SystemExit 1), warned [error_line msg] (truncated outgff w))
      | None, None =>
          Maxlen.main gff outgff w =
          (Raise (SystemExit 1),
           warned [error_line (no_such_file gff)] (truncated outgff w))
      | None, Some text =>
          match steps (lines_of text) empty_scan with
          | (Ok st, ws) =>
              Maxlen.main gff outgff w =
              (Ok (), World (<[outgff := join (blocks st)]> (files w))
                            (read_errors w) (write_errors w) (stderr w ++ ws))
          | (Raise e, ws) =>
              Maxlen.main gff outgff w =
              (Raise ValueError, warned ws (truncated outgff w))
          end
      end
  end.
Proof.
  destruct (write_errors w !! outgff) as [msg|] eqn:Hw.
  { unfold Maxlen.main, except_IOError. rewrite run_bind.
    unfold open_write. by rewrite Hw. }
  destruct (read_errors w !! gff) as [msg|] eqn:Hr.
  { unfold Maxlen.main, except_IOError. rewrite run_bind.
    unfold open_write at 1. rewrite Hw. fold (truncated outgff w).
    rewrite run_bind. unfold _readgff. rewrite run_bind. unfold open_read.
    cbn [read_errors truncated]. by rewrite Hr. }
  destruct (files (truncated outgff w) !! gff) as [text|] eqn:Hf.
  - destruct (steps (lines_of text) empty_scan) as [[st|e] ws] eqn:Hs.
    + by eapply main_run_ok.
    + by eapply main_run_raise.
  - unfold Maxlen.main, except_IOError. rewrite run_bind.
    unfold open_write at 1. rewrite Hw. fold (truncated outgff w).
    rewrite run_bind. unfold _readgff. rewrite run_bind. unfold open_read.
    cbn [read_errors truncated]. rewrite Hr.
    by rewrite Hf.
Qed.

(** The script runs [Maxlen.main] when the input path is a file, and
    touches nothing otherwise. *)
Lemma script_main_run gff outgff w :
  Script.main gff outgff w =
  if decide (is_Some (files w !! gff)) then Maxlen.main gff outgff w
  else (Raise (SystemExit 1), warned [error_no_input gff] w).
Proof.
  unfold Script.main. rewrite run_bind. unfold isfile.
  destruct (decide (is_Some (files w !! gff))) as [H|H].
  - by rewrite bool_decide_eq_true_2.
  - by rewrite bool_decide_eq_false_2.
Qed.

Lemma scan_Ok_steps lines st0 w st w' :
  for_each lines scan_line st0 w = (Ok st, w') →
  ∃ ws, steps lines st0 = (Ok st, ws) ∧ w' = warned ws w.
Proof.
  rewrite for_each_steps. destruct (steps lines st0) as [r ws]; simpl.
  intros [= -> <-]. eauto.
Qed.

Lemma for_each_app {A S} (l1 l2 : list A) (body : S → A → M S) acc w :
  for_each (l1 ++ l2) body acc w =
  match for_each l1 body acc w with
  | (Ok acc', w') => for_each l2 body acc' w'
  | (Raise e, w') => (Raise e, w')
  end.
Proof.
  revert acc w. induction l1 as [|x l1 IH]; intros acc w; simpl; [done|].
  rewrite !run_bind. destruct (body acc x w) as [[acc'|e] w']; [apply IH|done].
Qed.

Lemma write_blocks_quiet out mi sel w :
  Forall (λ t, od_mem t mi = true) sel →
  ∃ w', for_each sel (write_block out mi) () w = (Ok (), w') ∧ stderr w' = stderr w.
Proof.
  intros Hsel. revert w. induction Hsel as [|t sel Ht Hsel IH]; intros w.
  - by exists w.
  - cbn [for_each]. rewrite run_bind. unfold write_block at 1. rewrite Ht.
    rewrite run_bind. unfold getitem. rewrite od_mem_get in Ht.
    destruct (od_get t mi) as [b|]; [|done].
    destruct (IH (file_write out b w).2) as (w' & Hrun & Herr).
    exists w'. split; [exact Hrun|by rewrite Herr].
Qed.

(** ** A transcript registered under a gene *)

Lemma od_get_set_is_Some {V} (k k' : string) (v : V) (d : odict string V) :
  is_Some (od_get k d) → is_Some (od_get k (od_set k' v d)).
Proof.
  intros Hk. destruct (decide (k' = k)) as [->|Hne].
  - rewrite od_get_set_eq. eauto.
  - by rewrite od_get_set_ne.
Qed.

Lemma tracked_register st line t g : tracked t g (register line t g st).
Proof.
  unfold tracked, register. simpl. rewrite !od_get_set_eq.
  split_and!; [done|eauto|]. eexists. split; [done|]. rewrite od_get_set_eq. eauto.
Qed.

Lemma tracked_step t g st line st' ws :
  tracked t g st → step line st = (Ok st', ws) →
  (∀ g', parse line ≠ MRna t g') → tracked t g st'.
Proof.
  intros (Hg & Hbuf & d & Hd & Hn) Hstep Hnot. unfold step in Hstep.
  destruct (parse line) as [|t' g'|p c3 c4] eqn:Hp.
  - injection Hstep as <- <-. unfold tracked. eauto.
  - injection Hstep as <- <-.
    assert (t' ≠ t) as Hne by (intros ->; by eapply Hnot).
    unfold tracked, register. simpl. rewrite od_get_set_ne by done.
    split_and!; [done|by apply od_get_set_is_Some|].
    destruct (decide (g' = g)) as [->|Hgne].
    + rewrite od_get_set_eq. eexists. split; [done|].
      apply od_get_set_is_Some.
      rewrite od_mem_get, Hd. by rewrite Hd.
    + rewrite od_get_set_ne by done. exists d. split; [|done].
      destruct (od_mem g' (gene_mrna_len st)); [done|].
      by rewrite od_get_set_ne.
  - destruct (od_get p (mrna_info st)) as [buf|] eqn:Hpbuf.
    + destruct (od_get p (mrna_gene st)) as [g'|]; [|done].
      destruct (Py.int c4), (Py.int c3); try done.
      destruct (od_get g' (gene_mrna_len st)) as [d'|] eqn:Hd'; [|done].
      destruct (od_get p d') as [n|]; [|done].
      injection Hstep as <- <-. unfold tracked, attach. simpl.
      split_and!; [done|by apply od_get_set_is_Some|].
      destruct (decide (g' = g)) as [->|Hgne].
      * rewrite od_get_set_eq. eexists. split; [done|].
        apply od_get_set_is_Some. by simplify_eq.
      * rewrite od_get_set_ne by done. eauto.
    + injection Hstep as <- <-. unfold tracked, orphan. simpl. eauto.
Qed.

Lemma mrna_ids_cons line lines :
  mrna_ids (line :: lines) =
  match parse line with MRna t _ => [t] | _ => [] end ++ mrna_ids lines.
Proof. unfold mrna_ids. simpl. by destruct (parse line). Qed.

Lemma tracked_steps t g mid st st' ws :
  tracked t g st → steps mid st = (Ok st', ws) → t ∉ mrna_ids mid →
  tracked t g st'.
Proof.
  revert st ws. induction mid as [|line mid IH]; intros st ws Ht; cbn [steps].
  - by intros [= <- <-].
  - destruct (step line st) as [[st1|e] ws1] eqn:Hstep; [|done].
    destruct (steps mid st1) as [r ws2] eqn:Hrest. intros [= -> <-] Hnot.
    rewrite mrna_ids_cons, not_elem_of_app in Hnot. destruct Hnot as [Hline Hmid].
    eapply IH; [|exact Hrest|exact Hmid].
    eapply tracked_step; [done..|]. intros g' Hp. apply Hline.
    rewrite Hp. apply list_elem_of_here.
Qed.

(** ** Feature blocks *)

Lemma parse_empty : parse "" = Other.
Proof. reflexivity. Qed.

Lemma block_nonempty t b : is_block t b → b ≠ "".
Proof.
  intros (ml & cls & -> & [g Hg] & _) Hb.
  destruct ml as [|c ml]; [by rewrite parse_empty in Hg|done].
Qed.

(** ** Well-formed files *)

Lemma mrna_ids_app l1 l2 : mrna_ids (l1 ++ l2) = mrna_ids l1 ++ mrna_ids l2.
Proof. apply omap_app. Qed.

Lemma transcripts_cons g line lines :
  transcripts g (line :: lines) =
  match parse line with
  | MRna t g' => if decide (g' = g) then [t] else []
  | _ => []
  end ++ transcripts g lines.
Proof.
  unfold transcripts. simpl. destruct (parse line); try done. by case_decide.
Qed.

(** With distinct [ID]s a transcript has one gene. *)
Lemma transcripts_unique lines t g g' :
  NoDup (mrna_ids lines) →
  t ∈ transcripts g lines → t ∈ transcripts g' lines → g = g'.
Proof.
  induction lines as [|line lines IH]; [by intros _ ?%elem_of_nil|].
  rewrite mrna_ids_cons, !transcripts_cons.
  destruct (parse line) as [|t0 g0|]; simpl; [exact IH| |exact IH].
  intros [Hnin Hnd]%NoDup_cons H1 H2.
  assert (∀ g1, t0 ∉ transcripts g1 lines) as Hfresh.
  { intros g1 Hin. by apply Hnin, (transcripts_mrna_ids _ g1). }
  destruct (decide (g0 = g)) as [Eg|Hg]; destruct (decide (g0 = g')) as [Eg'|Hg'];
    simpl in *; [congruence|..].
  - apply elem_of_cons in H1 as [->|H1]; [by destruct (Hfresh g')|by apply IH].
  - apply elem_of_cons in H2 as [->|H2]; [by destruct (Hfresh g)|by apply IH].
  - by apply IH.
Qed.

Lemma well_formed_prefix pre post : well_formed (pre ++ post) → well_formed pre.
Proof.
  intros [Hids Hcds]. split.
  - rewrite mrna_ids_app in Hids. by apply NoDup_app in Hids as (? & _ & _).
  - intros a line b p c3 c4 -> Hp Hin.
    apply (Hcds a line (b ++ post) p c3 c4); [|done|].
    + by rewrite <- app_assoc.
    + rewrite mrna_ids_app. apply elem_of_app. by left.
Qed.

Lemma cds_sum_snoc t pre line :
  cds_sum t (pre ++ [line]) = cds_sum t pre + cds_len t line.
Proof.
  unfold cds_sum. induction pre as [|l pre IH]; simpl; [lia|]. rewrite IH. lia.
Qed.

Lemma block_snoc pre line t :
  block (pre ++ [line]) t =
  if decide (owner line = Some t) then block pre t +:+ line else block pre t.
Proof.
  unfold block, block_lines. rewrite filter_app.
  destruct (decide (owner line = Some t)) as [Ho|Ho].
  - rewrite filter_cons_True by done. rewrite filter_nil. apply join_snoc.
  - rewrite filter_cons_False by done. by rewrite filter_nil, app_nil_r.
Qed.

Lemma cds_len_owner t line : owner line ≠ Some t → cds_len t line = 0.
Proof.
  unfold owner, cds_len. destruct (parse line); try done.
  intros Hne. rewrite decide_False; [done|]. by intros ->.
Qed.

Lemma cds_len_mrna t line t0 g0 : parse line = MRna t0 g0 → cds_len t line = 0.
Proof. unfold cds_len. by intros ->. Qed.

(** In a well-formed file nothing belongs to a transcript before its mRNA
    record. *)
Lemma well_formed_fresh pre line t g :
  well_formed (pre ++ [line]) → parse line = MRna t g →
  (t ∉ mrna_ids pre) ∧ Forall (λ l, owner l ≠ Some t) pre.
Proof.
  intros [Hids Hcds] Hp.
  rewrite mrna_ids_snoc, Hp in Hids. apply NoDup_app in Hids as (_ & Hfresh & _).
  assert (t ∉ mrna_ids pre) as Hnin.
  { intros Hin. apply (Hfresh t Hin), list_elem_of_here. }
  split; [done|]. apply Forall_forall. intros l Hl Ho.
  unfold owner in Ho. destruct (parse l) as [|t' g'|p c3 c4] eqn:Hpl; [done|..].
  - injection Ho as ->. apply Hnin, elem_of_mrna_ids. eauto.
  - injection Ho as ->. apply list_elem_of_split in Hl as (a & b & ->).
    destruct (Hcds a l (b ++ [line]) t c3 c4) as (Hin & _); [|done| |].
    + by rewrite <- app_assoc.
    + rewrite mrna_ids_snoc, Hp. apply elem_of_app. right. apply list_elem_of_here.
    + apply Hnin. rewrite mrna_ids_app. apply elem_of_app. by left.
Qed.

Lemma block_fresh pre t : Forall (λ l, owner l ≠ Some t) pre → block pre t = "".
Proof.
  intros H. unfold block, block_lines.
  induction H as [|l pre Hl H IH]; [done|].
  by rewrite filter_cons_False.
Qed.

Lemma cds_sum_fresh pre t : Forall (λ l, owner l ≠ Some t) pre → cds_sum t pre = 0.
Proof.
  intros H. unfold cds_sum.
  induction H as [|l pre Hl H IH]; simpl; [done|].
  rewrite IH, (cds_len_owner _ _ Hl). done.
Qed.

Lemma exact_empty : exact [] empty_scan.
Proof. split; [by intros t ?%elem_of_nil|done]. Qed.

Lemma exact_step pre st line st' ws :
  well_formed (pre ++ [line]) → consistent pre st → exact pre st →
  step line st = (Ok st', ws) → exact (pre ++ [line]) st'.
Proof.
  intros Hwf Hc [Hinfo Hlen] Hstep. unfold step in Hstep.
  destruct (parse line) as [|t0 g0|p c3 c4] eqn:Hp.
  - (* a line the scanner passes over *)
    injection Hstep as <- <-.
    assert (∀ t, owner line ≠ Some t) as Ho by (unfold owner; by rewrite Hp).
    split.
    + intros t. rewrite mrna_ids_snoc, Hp, app_nil_r, block_snoc.
      rewrite decide_False by done. apply Hinfo.
    + intros g d t n Hd Hn. rewrite cds_sum_snoc, cds_len_owner by done.
      rewrite Z.add_0_r. eauto.
  - (* an mRNA record *)
    injection Hstep as <- <-.
    destruct (well_formed_fresh _ _ _ _ Hwf Hp) as [Hnin Hfresh].
    assert (owner line = Some t0) as Ho by (unfold owner; by rewrite Hp).
    split.
    + intros t. rewrite mrna_ids_snoc, Hp, block_snoc, Ho. simpl.
      destruct (decide (t0 = t)) as [<-|Hne].
      * intros _. rewrite od_get_set_eq, decide_True by done.
        by rewrite block_fresh.
      * rewrite od_get_set_ne by done. rewrite decide_False by congruence.
        intros [Hin|Hin%list_elem_of_singleton]%elem_of_app; [auto|done].
    + intros g d t n. rewrite cds_sum_snoc, (cds_len_mrna _ _ _ _ Hp), Z.add_0_r.
      simpl. destruct (decide (g0 = g)) as [<-|Hg].
      * rewrite od_get_set_eq. intros [= <-].
        destruct (decide (t0 = t)) as [<-|Hne].
        { rewrite od_get_set_eq. intros [= <-]. by rewrite cds_sum_fresh. }
        rewrite od_get_set_ne by done.
        rewrite od_mem_get. destruct (od_get g0 (gene_mrna_len st)) as [d0|] eqn:Hd0.
        -- rewrite Hd0. simpl. eauto.
        -- by rewrite od_get_set_eq.
      * rewrite od_get_set_ne by done.
        destruct (od_mem g0 (gene_mrna_len st)); [eauto|].
        rewrite od_get_set_ne by done. eauto.
  - (* a CDS record *)
    assert (owner line = Some p) as Ho by (unfold owner; by rewrite Hp).
    destruct (od_get p (mrna_info st)) as [buf|] eqn:Hbuf.
    + assert (p ∈ mrna_ids pre) as Hin.
      { apply (consistent_registered _ _ _ Hc). eauto. }
      destruct (od_get p (mrna_gene st)) as [g0|] eqn:Hg0; [|done].
      destruct (Py.int c4) as [stop|] eqn:H4; [|done].
      destruct (Py.int c3) as [start|] eqn:H3; [|done].
      destruct (od_get g0 (gene_mrna_len st)) as [d0|] eqn:Hd0; [|done].
      destruct (od_get p d0) as [n0|] eqn:Hn0; [|done].
      injection Hstep as <- <-.
      assert (cds_len p line = stop - start + 1) as Hlenp.
      { unfold cds_len. by rewrite Hp, decide_True, H4, H3. }
      split.
      * intros t. rewrite mrna_ids_snoc, Hp, app_nil_r, block_snoc, Ho. simpl.
        intros Ht. destruct (decide (p = t)) as [<-|Hne].
        -- rewrite od_get_set_eq, decide_True by done.
           rewrite (Hinfo _ Hin) in Hbuf. by injection Hbuf as <-.
        -- rewrite od_get_set_ne by done. rewrite decide_False by congruence. auto.
      * intros g d t n. rewrite cds_sum_snoc. simpl.
        destruct (decide (g0 = g)) as [<-|Hg].
        -- rewrite od_get_set_eq. intros [= <-].
           destruct (decide (p = t)) as [<-|Hne].
           ++ rewrite od_get_set_eq. intros [= <-].
              by rewrite Hlenp, (Hlen _ _ _ _ Hd0 Hn0).
           ++ rewrite od_get_set_ne by done. intros Hn.
              rewrite cds_len_owner, Z.add_0_r by congruence. eauto.
        -- rewrite od_get_set_ne by done. intros Hd Hn.
           rewrite cds_len_owner, Z.add_0_r; [eauto|].
           rewrite Ho. intros [= ->]. apply Hg.
           apply (transcripts_unique pre t).
           ++ destruct (well_formed_prefix _ _ Hwf) as [Hids _]. exact Hids.
           ++ apply gene_of_Some. by rewrite <- (cons_gene_of _ _ Hc).
           ++ rewrite <- elem_of_dedup, <- (cons_transcripts _ _ Hc _ _ Hd).
              apply od_get_is_Some. eauto.
    + injection Hstep as <- <-.
      assert (p ∉ mrna_ids pre) as Hnin.
      { rewrite <- (consistent_registered _ _ _ Hc), Hbuf. by intros [? ?]. }
      split; simpl.
      * intros t. rewrite mrna_ids_snoc, Hp, app_nil_r, block_snoc, Ho.
        intros Ht. rewrite decide_False; [auto|]. by intros [= ->].
      * intros g d t n Hd Hn. rewrite cds_sum_snoc, cds_len_owner, Z.add_0_r; [eauto|].
        rewrite Ho. intros [= ->]. apply Hnin.
        apply (transcripts_mrna_ids _ g).
        rewrite <- elem_of_dedup, <- (cons_transcripts _ _ Hc _ _ Hd).
        apply od_get_is_Some. eauto.
Qed.

(** The scan of a well-formed file succeeds. *)
Lemma well_formed_steps lines :
  well_formed lines →
  ∃ st ws, steps lines empty_scan = (Ok st, ws) ∧ consistent lines st ∧ exact lines st.
Proof.
  induction lines as [|line pre IH] using rev_ind; intros Hwf.
  - exists empty_scan, []. split_and!; [done|apply consistent_empty|apply exact_empty].
  - destruct (IH (well_formed_prefix _ _ Hwf)) as (st & ws & Hs & Hc & He).
    destruct (step line st) as [[st'|e] ws'] eqn:Hstep.
    + exists st', (ws ++ ws'). split_and!.
      * rewrite steps_app, Hs. cbn [steps]. by rewrite Hstep, app_nil_r.
      * by eapply consistent_step.
      * by eapply exact_step.
    + exfalso.
      destruct (consistent_step_raise _ _ _ _ _ Hc Hstep)
        as (_ & _ & p & c3 & c4 & Hp & Hin & Hbad).
      destruct (wf_cds _ Hwf pre line [] p c3 c4) as (_ & [? H3] & [? H4]);
        [done..| |].
      * rewrite mrna_ids_app. apply elem_of_app. by left.
      * destruct Hbad; congruence.
Qed.

(** On a well-formed file the buffers written are the blocks of the file. *)
Lemma exact_blocks lines st :
  consistent lines st → exact lines st →
  blocks st = block lines <$> selection (gene_mrna_len st).
Proof.
  intros Hc He. pose proof (consistent_selected _ _ Hc) as Hsel. unfold blocks.
  induction Hsel as [|t sel Ht Hsel IH]; [done|].
  apply (consistent_registered _ _ _ Hc) in Ht.
  cbn [omap list_omap fmap list_fmap]. by rewrite (exact_info _ _ He t Ht), IH.
Qed.

(** The genes before and after a gene of the mapping select none of its
    transcripts. *)
Lemma selection_other_gene lines st G g t :
  consistent lines st → NoDup (mrna_ids lines) →
  (∀ gd, gd ∈ G → gd ∈ gene_mrna_len st ∧ gd.1 ≠ g) →
  t ∈ transcripts g lines → t ∉ selection G.
Proof.
  intros Hc Hnd HG Ht Hin.
  apply list_elem_of_omap in Hin as ([g' d'] & Hgd & Hl). simpl in Hl.
  destruct (HG _ Hgd) as [Hin Hne]. apply Hne. simpl.
  apply (transcripts_unique lines t); [done| |done].
  apply (consistent_inner _ _ _ d' _ Hc Hin). by apply longest_key.
Qed.

Lemma NoDup_keys_split {V} (G1 G2 : odict string V) g d :
  NoDup (od_keys (G1 ++ (g, d) :: G2)) →
  ∀ gd, gd ∈ G1 ∨ gd ∈ G2 → gd.1 ≠ g.
Proof.
  unfold od_keys. rewrite fmap_app, fmap_cons. simpl.
  intros (_ & H1 & [H2 _]%NoDup_cons)%NoDup_app [g' d'] [Hin|Hin]; simpl; intros ->.
  - apply (H1 g); [|apply list_elem_of_here].
    apply list_elem_of_fmap. by exists (g, d').
  - apply H2. apply list_elem_of_fmap. by exists (g, d').
Qed.

(** ** Checking that a file is well formed *)

Lemma cds_ok_sound declared pre0 lines :
  cds_ok declared (mrna_ids pre0) lines = true →
  ∀ pre line post p c3 c4,
    lines = pre ++ line :: post → parse line = Cds p c3 c4 → declared p = true →
    p ∈ mrna_ids (pre0 ++ pre) ∧ is_Some (Py.int c3) ∧ is_Some (Py.int c4).
Proof.
  revert pre0. induction lines as [|l lines IH]; intros pre0 Hok pre line post p c3 c4.
  { by destruct pre. }
  cbn [cds_ok] in Hok.
  assert (cds_ok declared (mrna_ids (pre0 ++ [l])) lines = true) as Hrest.
  { rewrite mrna_ids_snoc. destruct (parse l); rewrite ?app_nil_r; [done..|].
    by apply andb_prop in Hok as [_ ?]. }
  destruct pre as [|l' pre]; simpl.
  - intros [= <- <-] Hp Hdecl. rewrite Hp, Hdecl in Hok. simpl in Hok.
    apply andb_prop in Hok as [Hok _].
    apply andb_prop in Hok as [Hok H4]. apply andb_prop in Hok as [Hin H3].
    apply bool_decide_eq_true in Hin, H3, H4. by rewrite app_nil_r.
  - intros [= <- ->] Hp Hdecl.
    destruct (IH _ Hrest pre line post p c3 c4 eq_refl Hp Hdecl) as (Hin & ? & ?).
    split; [|done]. by rewrite <- app_assoc in Hin.
Qed.

Lemma well_formedb_sound lines : well_formedb lines = true → well_formed lines.
Proof.
  unfold well_formedb. intros [Hnd Hok]%andb_prop.
  apply bool_decide_eq_true in Hnd. split; [done|].
  intros pre line post p c3 c4 Hl Hp Hin.
  apply (cds_ok_sound _ [] lines Hok pre line post p c3 c4 Hl Hp).
  by apply bool_decide_eq_true.
Qed.

(** ** Files of single-isoform genes *)

Lemma single_isoformb_sound lines : single_isoformb lines = true → single_isoform lines.
Proof.
  unfold single_isoformb. intros [[Hrec Hnd]%andb_prop Hok]%andb_prop. split.
  - apply Forall_forall. intros line Hin Hp.
    rewrite forallb_forall in Hrec. specialize (Hrec line).
    rewrite Hp in Hrec. apply list_elem_of_In in Hin. by specialize (Hrec Hin).
  - by apply bool_decide_eq_true in Hnd.
  - intros pre line post p c3 c4 Hl Hp.
    by apply (cds_ok_sound _ [] lines Hok pre line post p c3 c4 Hl Hp).
Qed.

Lemma single_isoform_well_formed lines :
  single_isoform lines → NoDup (mrna_ids lines) → well_formed lines.
Proof.
  intros [_ _ Hcds] Hnd. split; [done|].
  intros pre line post p c3 c4 Hl Hp _. by eapply Hcds.
Qed.

(** In such a file every line belongs to a declared transcript. *)
Lemma single_isoform_owner lines line :
  single_isoform lines → line ∈ lines →
  ∃ t, owner line = Some t ∧ t ∈ mrna_ids lines.
Proof.
  intros [Hrec _ Hcds] Hin. rewrite Forall_forall in Hrec.
  specialize (Hrec line Hin). unfold owner.
  destruct (parse line) as [|t g|p c3 c4] eqn:Hp; [done|..].
  - exists t. split; [done|]. apply elem_of_mrna_ids. eauto.
  - exists p. split; [done|].
    apply list_elem_of_split in Hin as (pre & post & ->).
    destruct (Hcds pre line post p c3 c4 eq_refl Hp) as [Hpre _].
    rewrite mrna_ids_app. apply elem_of_app. by left.
Qed.

Lemma genes_cons line lines :
  genes (line :: lines) =
  match parse line with MRna _ g => [g] | _ => [] end ++ genes lines.
Proof. unfold genes. simpl. by destruct (parse line). Qed.

(** With one mRNA record for each gene, a gene has one transcript. *)
Lemma genes_unique lines g t t' :
  NoDup (genes lines) →
  t ∈ transcripts g lines → t' ∈ transcripts g lines → t = t'.
Proof.
  induction lines as [|line lines IH]; [by intros _ ?%elem_of_nil|].
  rewrite genes_cons, !transcripts_cons.
  destruct (parse line) as [|t0 g0|]; simpl; [exact IH| |exact IH].
  intros [Hnin Hnd]%NoDup_cons. destruct (decide (g0 = g)) as [->|Hne]; simpl.
  - assert (∀ t1, t1 ∉ transcripts g lines) as Hfresh.
    { intros t1 Hin. by apply Hnin, (transcripts_genes t1). }
    intros [->|H1]%elem_of_cons; [|by destruct (Hfresh t)].
    intros [->|H2]%elem_of_cons; [done|by destruct (Hfresh t')].
  - by apply IH.
Qed.

Lemma selection_NoDup lines st G :
  consistent lines st → NoDup (mrna_ids lines) →
  NoDup (od_keys G) → (∀ gd, gd ∈ G → gd ∈ gene_mrna_len st) →
  NoDup (selection G).
Proof.
  intros Hc Hids. induction G as [|[g d] G IH]; intros Hnd HG.
  { apply NoDup_nil_2. }
  unfold od_keys in Hnd. rewrite fmap_cons in Hnd. apply NoDup_cons in Hnd as [Hg Hnd].
  assert (NoDup (selection G)) as HndG.
  { apply IH; [done|]. intros gd Hgd. by apply HG, list_elem_of_further. }
  unfold selection. cbn [omap list_omap]. simpl.
  destruct (longest d) as [t|] eqn:Hl; [|exact HndG].
  apply NoDup_cons. split; [|exact HndG].
  apply (selection_other_gene lines st G g); [done..| |].
  - intros gd Hgd. split; [by apply HG, list_elem_of_further|].
    intros <-. apply Hg. simpl. by apply list_elem_of_fmap_2.
  - apply (consistent_inner _ _ _ d _ Hc); [apply HG, list_elem_of_here|].
    by apply longest_key.
Qed.

(** The selected transcripts of such a file are its transcripts. *)
Lemma single_isoform_selection lines st :
  single_isoform lines → NoDup (mrna_ids lines) → consistent lines st →
  selection (gene_mrna_len st) ≡ₚ mrna_ids lines.
Proof.
  intros Hsi Hids Hc. apply NoDup_Permutation; [|done|].
  { apply (selection_NoDup lines st); [done..| |done].
    by eapply consistent_gml_NoDup. }
  intros t. split.
  - intros Hin. apply (consistent_registered _ _ _ Hc).
    pose proof (consistent_selected _ _ Hc) as Hsel.
    rewrite Forall_forall in Hsel. by apply Hsel.
  - intros Hin. destruct (consistent_lookup _ _ _ Hc Hin)
      as (_ & g & d & _ & _ & _ & Hgo & Hd & _).
    apply gene_of_Some in Hgo. apply od_get_Some_elem in Hd.
    destruct (head_sorted_desc_is_Some snd d) as [[t' n'] Hh].
    { by eapply consistent_inner_nonempty. }
    assert (longest d = Some t') as Hl by (unfold longest; by rewrite Hh).
    assert (t' = t) as ->.
    { apply (genes_unique lines g); [apply Hsi| |done].
      apply (consistent_inner _ _ _ d _ Hc Hd). by apply longest_key. }
    apply list_elem_of_omap. by exists (g, d).
Qed.

Lemma join_bind {A} (f : A → list string) (l : list A) :
  join (l ≫= f) = join ((λ x, join (f x)) <$> l).
Proof.
  induction l as [|x l IH]; [done|].
  by rewrite bind_cons, fmap_cons, join_cons, join_app, IH.
Qed.

(** Grouping the lines by their transcript rearranges them. *)
Lemma block_lines_perm ids lines :
  NoDup ids →
  (∀ line, line ∈ lines → ∃ t, owner line = Some t ∧ t ∈ ids) →
  ids ≫= (λ t, block_lines t lines) ≡ₚ lines.
Proof.
  intros Hnd. revert lines. induction Hnd as [|t ids Hnin Hnd IH]; intros lines Hown.
  - destruct lines as [|line lines]; [done|].
    destruct (Hown line) as (t & _ & Hin); [apply list_elem_of_here|].
    by apply elem_of_nil in Hin.
  - rewrite bind_cons.
    etrans; [|apply (filter_app_complement (λ line, owner line = Some t) lines)].
    apply Permutation_app; [done|].
    rewrite <- (IH (filter (λ line, ¬ owner line = Some t) lines)).
    + assert (Forall (λ t', block_lines t' lines =
                block_lines t' (filter (λ line, ¬ owner line = Some t) lines)) ids)
        as Hext.
      { apply Forall_forall. intros t' Ht'. unfold block_lines.
        rewrite list_filter_filter. apply list_filter_iff.
        intros line. split; [|by intros [? _]].
        intros Ho. split; [done|]. rewrite Ho. intros [= ->]. done. }
      clear -Hext. induction Hext as [|t' ids Ht' _ IH']; [done|].
      by rewrite !bind_cons, Ht', IH'.
    + intros line [Hne Hin]%list_elem_of_filter.
      destruct (Hown line Hin) as (t' & Ho & [->|Hin']%elem_of_cons); [done|eauto].
Qed.

Lemma join_lines_of text : join (lines_of text) = text.
Proof.
  induction text as [|c s IH]; [done|]. cbn [lines_of].
  destruct (Ascii.eqb c Py.newline).
  - by rewrite join_cons, IH.
  - destruct (lines_of s) as [|l ls].
    + unfold join in IH. simpl in IH. by rewrite <- IH.
    + rewrite join_cons in IH. by rewrite join_cons, string_app_cons, IH.
Qed.

(** ** The buffers are feature blocks of the input *)

Lemma feature_block_snoc pre line t bl :
  feature_block pre t bl → feature_block (pre ++ [line]) t bl.
Proof.
  intros (ml & cls & g & -> & Hml & Hp & Hcls). exists ml, cls, g.
  split_and!; [done| |done|].
  - apply elem_of_app. by left.
  - eapply Forall_impl; [exact Hcls|]. intros c [Hc ?]. split; [|done].
    apply elem_of_app. by left.
Qed.

Lemma blocked_empty : blocked [] empty_scan.
Proof. intros t buf [=]. Qed.

Lemma blocked_same pre line st st' :
  blocked pre st → mrna_info st' = mrna_info st → blocked (pre ++ [line]) st'.
Proof.
  intros Hb Hmi t buf. rewrite Hmi. intros (bl & -> & Hbl)%Hb.
  exists bl. split; [done|]. by apply feature_block_snoc.
Qed.

Lemma blocked_step pre st line st' ws :
  blocked pre st → step line st = (Ok st', ws) → blocked (pre ++ [line]) st'.
Proof.
  intros Hb. unfold step. destruct (parse line) as [|t g|p c3 c4] eqn:Hp.
  - intros [= <- <-]. by eapply blocked_same.
  - intros [= <- <-]. intros t' buf. unfold register. cbn [mrna_info].
    destruct (decide (t = t')) as [<-|Hne].
    + rewrite od_get_set_eq. intros [= <-]. exists [line]. split.
      * by rewrite join_cons, string_app_nil_r.
      * exists line, [], g. split_and!; [done| |done|done].
        apply elem_of_app. right. apply list_elem_of_here.
    + rewrite od_get_set_ne by done. intros (bl & -> & Hbl)%Hb.
      exists bl. split; [done|]. by apply feature_block_snoc.
  - destruct (od_get p (mrna_info st)) as [buf|] eqn:Hbuf.
    2:{ intros [= <- <-]. by eapply blocked_same. }
    destruct (od_get p (mrna_gene st)) as [g|]; [|done].
    destruct (Py.int c4); [|done]. destruct (Py.int c3); [|done].
    destruct (od_get g (gene_mrna_len st)) as [d|]; [|done].
    destruct (od_get p d); [|done]. intros [= <- <-].
    intros t' buf'. unfold attach. cbn [mrna_info].
    destruct (decide (p = t')) as [<-|Hne].
    + rewrite od_get_set_eq. intros [= <-].
      destruct (Hb p buf Hbuf) as (bl & -> & Hbl).
      apply (feature_block_snoc _ line) in Hbl as (ml & cls & g' & -> & Hml & Hpm & Hcls).
      exists (ml :: cls ++ [line]). split.
      * by rewrite app_comm_cons, join_snoc.
      * exists ml, (cls ++ [line]), g'. split_and!; [done..|].
        apply Forall_app. split; [done|]. apply Forall_singleton. split; [|eauto].
        apply elem_of_app. right. apply list_elem_of_here.
    + rewrite od_get_set_ne by done. intros (bl & -> & Hbl)%Hb.
      exists bl. split; [done|]. by apply feature_block_snoc.
Qed.

Lemma blocked_steps lines st ws :
  steps lines empty_scan = (Ok st, ws) → blocked lines st.
Proof.
  revert st ws. induction lines as [|line pre IH] using rev_ind; intros st ws.
  - intros [= <- <-]. apply blocked_empty.
  - intros (st0 & ws0 & ws1 & H0 & H1 & _)%steps_snoc_Ok.
    eapply blocked_step; eauto.
Qed.

(** A feature block holds one mRNA record. *)
Lemma feature_block_mrna_ids lines t bl : feature_block lines t bl → mrna_ids bl = [t].
Proof.
  intros (ml & cls & g & -> & _ & Hp & Hcls). rewrite mrna_ids_cons, Hp.
  assert (mrna_ids cls = []) as ->; [|done].
  induction Hcls as [|c cls (_ & c3 & c4 & Hc) _ IH]; [done|].
  by rewrite mrna_ids_cons, Hc.
Qed.

Lemma join_concat lss : join (join <$> lss) = join (concat lss).
Proof.
  induction lss as [|ls lss IH]; [done|].
  rewrite fmap_cons, join_cons. simpl concat. by rewrite join_app, IH.
Qed.

Lemma lines_of_app_line l s :
  is_line l = true → lines_of (l +:+ s) = l :: lines_of s.
Proof.
  induction l as [|c r IH]; [done|]. cbn [is_line]. rewrite string_app_cons.
  cbn [lines_of]. destruct (Ascii.eqb c Py.newline).
  - by destruct r.
  - intros Hr. by rewrite (IH Hr).
Qed.

Lemma lines_of_join ls : Forall (λ l, is_line l = true) ls → lines_of (join ls) = ls.
Proof.
  induction 1 as [|l ls Hl Hls IH]; [done|].
  by rewrite join_cons, (lines_of_app_line _ _ Hl), IH.
Qed.

Lemma terminated_lines text :
  terminated text = true → Forall (λ l, is_line l = true) (lines_of text).
Proof.
  unfold terminated. intros H. apply Forall_forall. intros l Hl.
  rewrite forallb_forall in H. apply H. by apply list_elem_of_In.
Qed.

(** The lines of a feature block are lines of the file. *)
Lemma feature_block_lines lines t bl l : feature_block lines t bl → l ∈ bl → l ∈ lines.
Proof.
  intros (ml & cls & g & -> & Hml & _ & Hcls) [->|Hl]%elem_of_cons; [done|].
  rewrite Forall_forall in Hcls. by destruct (Hcls l Hl).
Qed.

(** The buffers of the selected transcripts, each as the lines of a feature
    block. *)
Lemma blocked_selection lines st :
  consistent lines st → blocked lines st →
  ∃ tbs : list (string * list string),
    tbs.*1 = selection (gene_mrna_len st) ∧
    blocks st = join <$> tbs.*2 ∧
    Forall (λ tb, feature_block lines tb.1 tb.2) tbs.
Proof.
  intros Hc Hb. pose proof (consistent_selected _ _ Hc) as Hsel. unfold blocks.
  induction Hsel as [|t sel [buf Hbuf] _ (tbs & H1 & H2 & Hall)].
  { by exists []. }
  destruct (Hb t buf Hbuf) as (bl & -> & Hbl).
  exists ((t, bl) :: tbs). rewrite !fmap_cons. cbn [fst snd omap list_omap].
  rewrite Hbuf, H1, H2. split_and!; [done..|]. by constructor.
Qed.

Lemma feature_blocks_lines lines (tbs : list (string * list string)) :
  Forall (λ tb, feature_block lines tb.1 tb.2) tbs →
  Forall (λ l, l ∈ lines) (concat tbs.*2).
Proof.
  induction 1 as [|tb tbs Htb _ IH]; [done|].
  rewrite fmap_cons. cbn [concat]. apply Forall_app. split; [|done].
  apply Forall_forall. intros l Hl. by eapply feature_block_lines.
Qed.

Lemma feature_blocks_mrna_ids lines (tbs : list (string * list string)) :
  Forall (λ tb, feature_block lines tb.1 tb.2) tbs →
  mrna_ids (concat tbs.*2) = tbs.*1.
Proof.
  induction 1 as [|tb tbs Htb _ IH]; [done|].
  rewrite !fmap_cons. cbn [concat]. rewrite mrna_ids_app, IH.
  by rewrite (feature_block_mrna_ids _ _ _ Htb).
Qed.

(** * The properties of the specification *)

(** C1. On a well-formed file, for a gene whose transcripts have pairwise
    distinct summed CDS lengths, the output is made of blocks of
    transcripts of other genes, before and after, and of exactly one block
    of this gene: that of the transcript whose summed CDS length is
    maximal.  ([text] is the input as the run reads it, that is, in the
    world in which the output has been opened, see [truncated_input].) *)
Theorem longest_transcript_selected gff outgff w text g t :
  write_errors w !! outgff = None →
  read_errors w !! gff = None →
  files (truncated outgff w) !! gff = Some text →
  well_formed (lines_of text) →
  t ∈ transcripts g (lines_of text) →
  (∀ t1 t2, t1 ∈ transcripts g (lines_of text) →
            t2 ∈ transcripts g (lines_of text) → t1 ≠ t2 →
            cds_sum t1 (lines_of text) ≠ cds_sum t2 (lines_of text)) →
  (∀ t', t' ∈ transcripts g (lines_of text) →
         cds_sum t' (lines_of text) ≤ cds_sum t (lines_of text)) →
  ∃ w' before after,
    Maxlen.main gff outgff w = (Ok (), w') ∧
    files w' !! outgff =
      Some (join (block (lines_of text) <$> before) +:+
            block (lines_of text) t +:+
            join (block (lines_of text) <$> after)) ∧
    is_block t (block (lines_of text) t) ∧
    ∀ t', t' ∈ transcripts g (lines_of text) → (t' ∉ before) ∧ (t' ∉ after).
Proof.
  set (lines := lines_of text).
  intros Hw Hr Hf Hwf Ht Hdistinct Hmax.
  destruct (well_formed_steps _ Hwf) as (st & ws & Hs & Hc & He).
  pose proof (consistent_gml_NoDup _ _ Hc) as Hnd.
  (* the entry of the gene *)
  assert (is_Some (od_get g (gene_mrna_len st))) as [d Hd].
  { apply od_get_is_Some. rewrite (cons_genes _ _ Hc). apply elem_of_dedup.
    by eapply transcripts_genes. }
  pose proof (cons_transcripts _ _ Hc _ _ Hd) as Hkeys.
  assert (NoDup (od_keys d)) as Hdnd by (rewrite Hkeys; apply NoDup_dedup).
  assert (is_Some (od_get t d)) as [n Hn].
  { apply od_get_is_Some. rewrite Hkeys. by apply elem_of_dedup. }
  pose proof (exact_len _ _ He _ _ _ _ Hd Hn) as ->.
  (* [t] is the first entry of maximal length *)
  destruct (list_elem_of_split _ _ (od_get_Some_elem _ _ _ Hn)) as (l1 & l2 & ->).
  assert (∀ x, x ∈ l1 ∨ x ∈ l2 → x.2 < cds_sum t lines) as Hless.
  { intros [t' n'] Hx. simpl.
    assert ((t', n') ∈ l1 ++ (t, cds_sum t lines) :: l2) as Hin.
    { apply elem_of_app. destruct Hx; [by left|right; by apply list_elem_of_further]. }
    pose proof (od_elem_get _ _ _ Hdnd Hin) as Hn'.
    pose proof (exact_len _ _ He _ _ _ _ Hd Hn') as ->.
    assert (t' ∈ transcripts g lines) as Ht'.
    { apply elem_of_dedup. rewrite <- Hkeys. apply od_get_is_Some. eauto. }
    assert (t' ≠ t) as Hne.
    { intros ->. by apply (NoDup_keys_split _ _ _ _ Hdnd (t, cds_sum t lines) Hx). }
    specialize (Hdistinct t' t Ht' Ht Hne). specialize (Hmax t' Ht'). lia. }
  assert (longest (l1 ++ (t, cds_sum t lines) :: l2) = Some t) as Hlong.
  { unfold longest. rewrite head_sorted_desc; [done|..].
    - apply Forall_forall. intros x Hx. apply Hless. by left.
    - apply Forall_forall. intros x Hx. apply Z.lt_le_incl, Hless. by right. }
  (* the genes around it *)
  destruct (list_elem_of_split _ _ (od_get_Some_elem _ _ _ Hd)) as (G1 & G2 & HG).
  rewrite HG in Hnd.
  assert (selection (gene_mrna_len st) = selection G1 ++ t :: selection G2) as Hsel.
  { rewrite HG. unfold selection. rewrite omap_app. simpl. by rewrite Hlong. }
  eexists _, (selection G1), (selection G2). split_and!.
  - by eapply main_run_ok.
  - simpl. rewrite lookup_insert_eq. f_equal.
    rewrite (exact_blocks _ _ Hc He), Hsel, fmap_app, fmap_cons, join_app, join_cons.
    done.
  - apply (cons_blocks _ _ Hc). apply (exact_info _ _ He).
    by eapply transcripts_mrna_ids.
  - intros t' Ht'. split.
    + apply (selection_other_gene lines st G1 g); [done|apply Hwf| |done].
      intros gd Hgd. split.
      * rewrite HG. apply elem_of_app. by left.
      * apply (NoDup_keys_split _ _ _ _ Hnd). by left.
    + apply (selection_other_gene lines st G2 g); [done|apply Hwf| |done].
      intros gd Hgd. split.
      * rewrite HG. apply elem_of_app. right. by apply list_elem_of_further.
      * apply (NoDup_keys_split _ _ _ _ Hnd). by right.
Qed.

Lemma longest_transcript_selected_witness :
  ∃ w' before after,
    Maxlen.main "in.gff" "out.gff" demo_world = (Ok (), w') ∧
    files w' !! "out.gff" =
      Some (join (block (lines_of demo_text) <$> before) +:+
            block (lines_of demo_text) "T1" +:+
            join (block (lines_of demo_text) <$> after)) ∧
    is_block "T1" (block (lines_of demo_text) "T1") ∧
    ∀ t', t' ∈ transcripts "G1" (lines_of demo_text) → (t' ∉ before) ∧ (t' ∉ after).
Proof.
  apply (longest_transcript_selected "in.gff" "out.gff" demo_world demo_text "G1" "T1").
  - reflexivity.
  - reflexivity.
  - reflexivity.
  - apply well_formedb_sound. vm_compute. reflexivity.
  - vm_compute. apply list_elem_of_here.
  - assert (Forall (λ t1, Forall (λ t2, t1 ≠ t2 →
              cds_sum t1 (lines_of demo_text) ≠ cds_sum t2 (lines_of demo_text))
              (transcripts "G1" (lines_of demo_text)))
              (transcripts "G1" (lines_of demo_text))) as H.
    { apply (bool_decide_unpack _). vm_compute. exact I. }
    intros t1 t2 H1 H2. rewrite Forall_forall in H. specialize (H t1 H1).
    rewrite Forall_forall in H. exact (H t2 H2).
  - apply Forall_forall. apply (bool_decide_unpack _). vm_compute. exact I.
Defined.

(** C2. In the dictionary of every gene, in which the transcripts stand in
    the order in which their mRNA records were first registered, the
    selector takes the first transcript whose length is maximal: all
    transcripts before it are strictly shorter and none after it is longer.
    On a well-formed file the lengths of the dictionary are the summed CDS
    lengths of the file.  The dictionaries, and the selection with them,
    are a function of the lines alone, so that the selection is the same
    in every run on the same input. *)
Theorem tie_break_first_registered lines w st w' :
  for_each lines scan_line empty_scan w = (Ok st, w') →
  ∃ sel,
    (∀ w0, _getmax (gene_mrna_len st) w0 = (Ok sel, w0)) ∧
    (∀ i g d, gene_mrna_len st !! i = Some (g, d) →
      od_keys d = dedup (transcripts g lines) ∧
      ∃ before t m after,
        d = before ++ (t, m) :: after ∧
        Forall (λ x, x.2 < m) before ∧
        Forall (λ x, x.2 ≤ m) after ∧
        sel !! i = Some t) ∧
    (well_formed lines →
      ∀ g d t m, (g, d) ∈ gene_mrna_len st → (t, m) ∈ d → m = cds_sum t lines) ∧
    (∀ w2 st2 w2',
      for_each lines scan_line empty_scan w2 = (Ok st2, w2') → st2 = st).
Proof.
  intros (ws & Hs & _)%scan_Ok_steps.
  pose proof (consistent_steps _ _ _ Hs) as Hc.
  pose proof (consistent_gml_NoDup _ _ Hc) as Hnd.
  exists (selection (gene_mrna_len st)). split_and!.
  - intros w0. by destruct (consistent_getmax _ _ w0 Hc).
  - intros i g d Hi. split.
    + apply (cons_transcripts _ _ Hc). apply od_elem_get; [done|].
      by eapply list_elem_of_lookup_2.
    + destruct (consistent_getmax _ _ w Hc) as [_ Hsel].
      destruct (Forall2_lookup_l _ _ _ _ _ Hsel Hi) as (t & Ht & Hl).
      unfold longest in Hl. simpl in Hl.
      destruct (head (sorted_desc snd d)) as [[t' m]|] eqn:Hhead; [|done].
      injection Hl as ->.
      destruct (head_sorted_desc_inv _ _ _ Hhead) as (l1 & l2 & -> & H1 & H2).
      by exists l1, t, m, l2.
  - intros Hwf g d t m Hgd Htm.
    destruct (well_formed_steps _ Hwf) as (st' & ws' & Hs' & _ & He).
    assert (st' = st) as -> by congruence.
    pose proof (od_elem_get _ _ _ Hnd Hgd) as Hd.
    apply (exact_len _ _ He g d t m Hd). apply od_elem_get; [|done].
    rewrite (cons_transcripts _ _ Hc _ _ Hd). apply NoDup_dedup.
  - intros w2 st2 w2' (ws2 & Hs2 & _)%scan_Ok_steps. congruence.
Qed.

Lemma tie_break_first_registered_witness :
  ∃ sel,
    (∀ w0, _getmax (gene_mrna_len demo_scan) w0 = (Ok sel, w0)) ∧
    (∀ i g d, gene_mrna_len demo_scan !! i = Some (g, d) →
      od_keys d = dedup (transcripts g demo_lines) ∧
      ∃ before t m after,
        d = before ++ (t, m) :: after ∧
        Forall (λ x, x.2 < m) before ∧
        Forall (λ x, x.2 ≤ m) after ∧
        sel !! i = Some t) ∧
    (well_formed demo_lines →
      ∀ g d t m, (g, d) ∈ gene_mrna_len demo_scan → (t, m) ∈ d →
                 m = cds_sum t demo_lines) ∧
    (∀ w2 st2 w2',
      for_each demo_lines scan_line empty_scan w2 = (Ok st2, w2') → st2 = demo_scan).
Proof.
  apply (tie_break_first_registered demo_lines demo_world demo_scan
           (warned [warn_no_mrna "T9"] demo_world)).
  vm_compute. reflexivity.
Defined.

(** A whole run on two transcripts of equal summed CDS length: the block
    of the one declared first is written. *)
Example tie_run_example :
  files (Maxlen.main "in.gff" "out.gff" tie_world).2 !! "out.gff" =
  Some (mrna_row "1" "900" "Ta" "G" +:+ cds_row "1" "90" "Ta").
Proof. vm_compute. reflexivity. Qed.

(** Two transcripts of equal length: the one registered first is taken. *)
Example tie_break_example :
  (_getmax [("G", [("Ta", 20); ("Tb", 90); ("Tc", 90); ("Td", 5)])] demo_world).1
  = Ok ["Tb"].
Proof. reflexivity. Qed.

(** C3, as the specification states it, fails on an mRNA line: the scanner
    never reads the coordinates of an mRNA record.  The run on a file made
    of one mRNA line with the start column [x] ends normally, and the line
    is written to the output.  It fails as well on a CDS line whose parent
    is not registered: the line is passed over, with a warning, before its
    coordinates are read. *)
Lemma mrna_coordinates_not_parsed :
  (columns odd_mrna_line !! 2%nat = Some "mRNA" ∧
   columns odd_mrna_line !! 3%nat = Some "x" ∧
   Py.int "x" = None ∧
   ∃ w', Maxlen.main "in.gff" "out.gff" odd_world = (Ok (), w') ∧
         exit_status (Ok ()) = 0 ∧
         files w' !! "out.gff" = Some odd_mrna_line) ∧
  (columns odd_cds_line !! 2%nat = Some "CDS" ∧
   columns odd_cds_line !! 4%nat = Some "3x0" ∧
   Py.int "3x0" = None ∧
   ∃ w', Maxlen.main "in.gff" "out.gff" odd_cds_world = (Ok (), w') ∧
         exit_status (Ok ()) = 0 ∧
         stderr w' = [warn_no_mrna "T9"]).
Proof.
  split.
  - split_and!; [reflexivity..|].
    eexists. split_and!; [vm_compute; reflexivity|reflexivity|reflexivity].
  - split_and!; [reflexivity..|].
    eexists. split_and!; [vm_compute; reflexivity|reflexivity|reflexivity].
Qed.

(** C3, amended.  A CDS line whose [Parent] is the [ID] of an mRNA record
    read before it, and whose start or end column is not an integer, ends
    the run with an uncaught [ValueError]: exit status 1, nothing written
    to the output file. *)
Theorem bad_cds_coordinate_is_fatal gff outgff w text pre line post p c3 c4 :
  write_errors w !! outgff = None →
  read_errors w !! gff = None →
  files (truncated outgff w) !! gff = Some text →
  lines_of text = pre ++ line :: post →
  parse line = Cds p c3 c4 →
  p ∈ mrna_ids pre →
  Py.int c3 = None ∨ Py.int c4 = None →
  ∃ w', Maxlen.main gff outgff w = (Raise ValueError, w') ∧
        exit_status (Raise ValueError) = 1 ∧
        files w' !! outgff = Some "".
Proof.
  intros Hw Hr Hf Hlines Hp Hin Hbad.
  assert (∃ e ws, steps (lines_of text) empty_scan = (Raise e, ws)) as (e & ws & Hs).
  { rewrite Hlines, steps_app.
    destruct (steps pre empty_scan) as [[st|e] ws] eqn:Hpre; [|eauto].
    pose proof (consistent_steps _ _ _ Hpre) as Hc.
    destruct (consistent_lookup _ _ _ Hc Hin) as (buf & g & d & n & Hbuf & Hg & _).
    cbn [steps]. unfold step. rewrite Hp, Hbuf, Hg.
    destruct Hbad as [H3|H4].
    - rewrite H3. destruct (Py.int c4); eauto.
    - rewrite H4. eauto. }
  eexists. split_and!; [by eapply main_run_raise|done|].
  simpl. apply lookup_insert_eq.
Qed.

Lemma bad_cds_coordinate_is_fatal_witness :
  ∃ w', Maxlen.main "in.gff" "out.gff" broken_world = (Raise ValueError, w') ∧
        exit_status (Raise ValueError) = 1 ∧
        files w' !! "out.gff" = Some "".
Proof.
  apply (bad_cds_coordinate_is_fatal "in.gff" "out.gff" broken_world broken_text
           [mrna_row "1" "900" "T1" "G1"] (cds_row "1" "3x0" "T1") []
           "T1" "1" "3x0").
  - reflexivity.
  - reflexivity.
  - reflexivity.
  - vm_compute. reflexivity.
  - vm_compute. reflexivity.
  - vm_compute. apply list_elem_of_here.
  - right. reflexivity.
Defined.

(** C4. A CDS line whose [Parent] is not the [ID] of an mRNA record read
    before it makes the scanner write one warning; no buffer and no length
    changes, and the scan goes on with the next line. *)
Theorem orphan_cds_skipped pre line post p c3 c4 w st w1 :
  for_each pre scan_line empty_scan w = (Ok st, w1) →
  parse line = Cds p c3 c4 →
  p ∉ mrna_ids pre →
  ∃ st',
    scan_line st line w1 = (Ok st', warned [warn_no_mrna p] w1) ∧
    mrna_info st' = mrna_info st ∧
    gene_mrna_len st' = gene_mrna_len st ∧
    for_each (pre ++ line :: post) scan_line empty_scan w =
    for_each post scan_line st' (warned [warn_no_mrna p] w1).
Proof.
  intros Hpre Hp Hnot.
  destruct (scan_Ok_steps _ _ _ _ _ Hpre) as (ws & Hs & _).
  pose proof (consistent_steps _ _ _ Hs) as Hc.
  assert (od_get p (mrna_info st) = None) as Hnone.
  { apply eq_None_not_Some. by rewrite (consistent_registered _ _ _ Hc). }
  assert (scan_line st line w1 = (Ok (orphan p st), warned [warn_no_mrna p] w1)) as Hline.
  { rewrite scan_line_step. unfold step. by rewrite Hp, Hnone. }
  exists (orphan p st). split_and!; [done..|].
  rewrite for_each_app, Hpre. cbn [for_each]. by rewrite run_bind, Hline.
Qed.

Lemma orphan_cds_skipped_witness :
  ∃ st',
    scan_line demo_prefix_scan (cds_row "5" "9" "T9") demo_world =
      (Ok st', warned [warn_no_mrna "T9"] demo_world) ∧
    mrna_info st' = mrna_info demo_prefix_scan ∧
    gene_mrna_len st' = gene_mrna_len demo_prefix_scan ∧
    for_each (take 7 demo_lines ++ cds_row "5" "9" "T9" :: drop 8 demo_lines)
             scan_line empty_scan demo_world =
    for_each (drop 8 demo_lines) scan_line st'
             (warned [warn_no_mrna "T9"] demo_world).
Proof.
  apply (orphan_cds_skipped (take 7 demo_lines) (cds_row "5" "9" "T9")
           (drop 8 demo_lines) "T9" "5" "9" demo_world demo_prefix_scan demo_world).
  - vm_compute. reflexivity.
  - vm_compute. reflexivity.
  - apply (bool_decide_unpack _). vm_compute. exact I.
Defined.

(** C5, as the specification states it, fails on a run that a malformed
    coordinate aborts: the file registers the gene [G1], and the output
    file is left empty, which is not one feature block. *)
Lemma aborted_run_writes_no_block :
  dedup (genes (lines_of broken_text)) = ["G1"] ∧
  ∃ w', Maxlen.main "in.gff" "out.gff" broken_world = (Raise ValueError, w') ∧
        files w' !! "out.gff" = Some "" ∧
        ¬ ∃ bs, length bs = length (dedup (genes (lines_of broken_text))) ∧
                Forall (λ b, ∃ t, is_block t b) bs ∧
                "" = join bs.
Proof.
  split; [vm_compute; reflexivity|].
  eexists. split_and!; [vm_compute; reflexivity|reflexivity|].
  intros (bs & Hlen & Hbs & Hjoin).
  destruct bs as [|b bs]; [done|].
  apply Forall_cons in Hbs as [[t Hb] _].
  apply block_nonempty in Hb. rewrite join_cons in Hjoin.
  destruct b; done.
Qed.

(** C5, amended.  When the run completes, the text written to the output
    is made of one feature block for each distinct gene of the mRNA records
    read, in the order in which the genes first occur: as many blocks as
    genes, the block of a gene being one mRNA line of the input, of a
    transcript declared for the gene, followed by CDS lines of the input
    that name this transcript.  When the input ends with a newline these
    lines are the lines of the output file, which then holds as many mRNA
    records as there are genes.  (Without the newline the last line of the
    input is joined to the line written after it, see
    [glued_last_line_example].) *)
Theorem one_block_per_gene gff outgff w w' :
  Maxlen.main gff outgff w = (Ok (), w') →
  ∃ text out (tbs : list (string * list string)),
    files (truncated outgff w) !! gff = Some text ∧
    files w' !! outgff = Some out ∧
    out = join (concat tbs.*2) ∧
    length tbs = length (dedup (genes (lines_of text))) ∧
    Forall2 (λ g tb, tb.1 ∈ transcripts g (lines_of text) ∧
                     feature_block (lines_of text) tb.1 tb.2)
            (dedup (genes (lines_of text))) tbs ∧
    mrna_ids (concat tbs.*2) = tbs.*1 ∧
    (terminated text = true →
       lines_of out = concat tbs.*2 ∧
       length (mrna_ids (lines_of out)) = length (dedup (genes (lines_of text)))).
Proof.
  intros Hrun. pose proof (main_cases gff outgff w) as Hcases.
  destruct (write_errors w !! outgff); [by rewrite Hcases in Hrun|].
  destruct (read_errors w !! gff); [by rewrite Hcases in Hrun|].
  destruct (files (truncated outgff w) !! gff) as [text|];
    [|by rewrite Hcases in Hrun].
  destruct (steps (lines_of text) empty_scan) as [[st|e] ws] eqn:Hs;
    [|by rewrite Hcases in Hrun].
  rewrite Hcases in Hrun. injection Hrun as <-.
  pose proof (consistent_steps _ _ _ Hs) as Hc.
  destruct (consistent_getmax _ _ w Hc) as [_ Hsel].
  destruct (blocked_selection _ _ Hc (blocked_steps _ _ _ Hs)) as (tbs & H1 & H2 & Hall).
  assert (length tbs = length (dedup (genes (lines_of text)))) as Hlen.
  { rewrite <- (cons_genes _ _ Hc). unfold od_keys. rewrite length_fmap.
    rewrite (Forall2_length _ _ _ Hsel), <- H1. by rewrite length_fmap. }
  pose proof (feature_blocks_mrna_ids _ _ Hall) as Hids.
  exists text, (join (concat tbs.*2)), tbs.
  split_and!; [done| |done|done| |done|].
  - cbn [files]. by rewrite lookup_insert_eq, H2, join_concat.
  - apply Forall2_same_length_lookup. split; [done|].
    intros i g tb Hg Htb. rewrite <- (cons_genes _ _ Hc) in Hg.
    unfold od_keys in Hg. apply list_lookup_fmap_Some in Hg as ([g0 d] & -> & Hgd). simpl.
    destruct (Forall2_lookup_l _ _ _ _ _ Hsel Hgd) as (t & Ht & Hl).
    assert (t = tb.1) as ->.
    { rewrite <- H1 in Ht. apply list_lookup_fmap_Some in Ht as (tb' & -> & Htb').
      congruence. }
    split.
    + apply (consistent_inner _ _ _ d _ Hc); [by eapply list_elem_of_lookup_2|].
      by apply longest_key.
    + rewrite Forall_forall in Hall. apply Hall. by eapply list_elem_of_lookup_2.
  - intros Hterm.
    assert (lines_of (join (concat tbs.*2)) = concat tbs.*2) as Hlines.
    { apply lines_of_join.
      pose proof (terminated_lines _ Hterm) as Hlin. rewrite Forall_forall in Hlin.
      eapply Forall_impl; [by apply feature_blocks_lines|]. intros l Hl. by apply Hlin. }
    split; [done|]. by rewrite Hlines, Hids, length_fmap.
Qed.

Lemma one_block_per_gene_witness :
  ∃ text out (tbs : list (string * list string)),
    files (truncated "out.gff" demo_world) !! "in.gff" = Some text ∧
    files demo_final !! "out.gff" = Some out ∧
    out = join (concat tbs.*2) ∧
    length tbs = length (dedup (genes (lines_of text))) ∧
    Forall2 (λ g tb, tb.1 ∈ transcripts g (lines_of text) ∧
                     feature_block (lines_of text) tb.1 tb.2)
            (dedup (genes (lines_of text))) tbs ∧
    mrna_ids (concat tbs.*2) = tbs.*1 ∧
    (terminated text = true →
       lines_of out = concat tbs.*2 ∧
       length (mrna_ids (lines_of out)) = length (dedup (genes (lines_of text)))).
Proof.
  apply (one_block_per_gene "in.gff" "out.gff" demo_world demo_final).
  vm_compute. reflexivity.
Defined.

(** The run on [glued_text] completes and writes the blocks of two genes,
    but the file it leaves holds one mRNA record: the CDS line of [T1],
    which had no newline, and the mRNA line of [T2] make one line. *)
Example glued_last_line_example :
  terminated glued_text = false ∧
  (Maxlen.main "in.gff" "out.gff" glued_world).1 = Ok () ∧
  dedup (genes (lines_of glued_text)) = ["G1"; "G2"] ∧
  mrna_ids (lines_of (default "" (files (Maxlen.main "in.gff" "out.gff" glued_world).2
                                    !! "out.gff"))) = ["T1"].
Proof. vm_compute. done. Qed.

(** C6. After a scan that succeeds, every gene of the mapping owns at least
    one transcript, and the selector returns normally: its access to the
    first element of each sorted list never raises [IndexError]. *)
Theorem scanner_genes_nonempty lines w st w' :
  for_each lines scan_line empty_scan w = (Ok st, w') →
  (∀ g d, (g, d) ∈ gene_mrna_len st → d ≠ []) ∧
  ∃ sel, ∀ w0, _getmax (gene_mrna_len st) w0 = (Ok sel, w0).
Proof.
  intros (ws & Hs & _)%scan_Ok_steps.
  pose proof (consistent_steps _ _ _ Hs) as Hc. split.
  - intros g d. by eapply consistent_inner_nonempty.
  - exists (selection (gene_mrna_len st)). intros w0.
    by destruct (consistent_getmax _ _ w0 Hc).
Qed.

Lemma scanner_genes_nonempty_witness :
  (∀ g d, (g, d) ∈ gene_mrna_len demo_scan → d ≠ []) ∧
  ∃ sel, ∀ w0, _getmax (gene_mrna_len demo_scan) w0 = (Ok sel, w0).
Proof.
  apply (scanner_genes_nonempty demo_lines demo_world demo_scan
           (warned [warn_no_mrna "T9"] demo_world)).
  vm_compute. reflexivity.
Defined.

(** C7. Every transcript that the selector returns has a stored buffer, so
    the loop of the writer never takes its warning branch: it writes
    nothing to the error stream. *)
Theorem selected_have_buffers lines w st w' sel w'' :
  for_each lines scan_line empty_scan w = (Ok st, w') →
  _getmax (gene_mrna_len st) w' = (Ok sel, w'') →
  Forall (λ t, od_mem t (mrna_info st) = true) sel ∧
  ∀ out w0, ∃ w1,
    for_each sel (write_block out (mrna_info st)) () w0 = (Ok (), w1) ∧
    stderr w1 = stderr w0.
Proof.
  intros (ws & Hs & _)%scan_Ok_steps Hsel.
  pose proof (consistent_steps _ _ _ Hs) as Hc.
  rewrite (proj1 (consistent_getmax _ _ w' Hc)) in Hsel. injection Hsel as <- <-.
  assert (Forall (λ t, od_mem t (mrna_info st) = true) (selection (gene_mrna_len st)))
    as Hmem.
  { eapply Forall_impl; [by eapply consistent_selected|].
    intros t [b Hb]. by rewrite od_mem_get, Hb. }
  split; [done|]. intros out w0. by apply write_blocks_quiet.
Qed.

Lemma selected_have_buffers_witness :
  Forall (λ t, od_mem t (mrna_info demo_scan) = true) ["T1"; "T3"] ∧
  ∀ out w0, ∃ w1,
    for_each ["T1"; "T3"] (write_block out (mrna_info demo_scan)) () w0 = (Ok (), w1) ∧
    stderr w1 = stderr w0.
Proof.
  apply (selected_have_buffers demo_lines demo_world demo_scan
           (warned [warn_no_mrna "T9"] demo_world) ["T1"; "T3"]
           (warned [warn_no_mrna "T9"] demo_world)).
  - vm_compute. reflexivity.
  - vm_compute. reflexivity.
Defined.

(** C8, as the specification states it, fails on two single-isoform genes
    whose mRNA records carry the same [ID]: the second record takes the
    place of the first, its line is written once for each gene, and the
    output is no rearrangement of the lines of the input. *)
Lemma shared_id_not_reproduced :
  single_isoform shared_id_lines ∧
  lines_of (join shared_id_lines) = shared_id_lines ∧
  ∃ w' out,
    Maxlen.main "in.gff" "out.gff" shared_id_world = (Ok (), w') ∧
    files w' !! "out.gff" = Some out ∧
    ¬ ∃ out_lines, out_lines ≡ₚ shared_id_lines ∧ out = join out_lines.
Proof.
  split_and!.
  - apply single_isoformb_sound. vm_compute. reflexivity.
  - vm_compute. reflexivity.
  - eexists _, _. split_and!; [vm_compute; reflexivity|reflexivity|].
    intros (out_lines & Hperm & Hout).
    symmetry in Hperm. apply permutations_Permutation in Hperm.
    vm_compute in Hperm.
    apply elem_of_cons in Hperm as [->|Hperm];
      [|apply elem_of_cons in Hperm as [->|Hperm]; [|by apply elem_of_nil in Hperm]].
    + vm_compute in Hout. discriminate Hout.
    + vm_compute in Hout. discriminate Hout.
Qed.

(** C8, amended.  For a file of single-isoform genes whose mRNA records
    have pairwise distinct [ID]s, the text written to the output is the
    concatenation of a rearrangement of the lines of the input. *)
Theorem single_isoform_round_trip gff outgff w text :
  write_errors w !! outgff = None →
  read_errors w !! gff = None →
  files (truncated outgff w) !! gff = Some text →
  single_isoform (lines_of text) →
  NoDup (mrna_ids (lines_of text)) →
  ∃ w' out_lines,
    Maxlen.main gff outgff w = (Ok (), w') ∧
    files w' !! outgff = Some (join out_lines) ∧
    out_lines ≡ₚ lines_of text.
Proof.
  set (lines := lines_of text). intros Hw Hr Hf Hsi Hids.
  pose proof (single_isoform_well_formed _ Hsi Hids) as Hwf.
  destruct (well_formed_steps _ Hwf) as (st & ws & Hs & Hc & He).
  eexists _, (selection (gene_mrna_len st) ≫= (λ t, block_lines t lines)).
  split_and!.
  - by eapply main_run_ok.
  - simpl. rewrite lookup_insert_eq. f_equal.
    by rewrite (exact_blocks _ _ Hc He), join_bind.
  - rewrite (single_isoform_selection _ _ Hsi Hids Hc).
    apply block_lines_perm; [done|]. intros line. by apply single_isoform_owner.
Qed.

Lemma single_isoform_round_trip_witness :
  ∃ w' out_lines,
    Maxlen.main "in.gff" "out.gff" single_world = (Ok (), w') ∧
    files w' !! "out.gff" = Some (join out_lines) ∧
    out_lines ≡ₚ lines_of (join single_lines).
Proof.
  apply (single_isoform_round_trip "in.gff" "out.gff" single_world (join single_lines)).
  - reflexivity.
  - reflexivity.
  - reflexivity.
  - apply single_isoformb_sound. vm_compute. reflexivity.
  - apply (bool_decide_unpack _). vm_compute. exact I.
Defined.

(** The run on [single_lines]: the CDS line of [T1] moves up to its mRNA
    line. *)
Example single_isoform_example :
  files (Maxlen.main "in.gff" "out.gff" single_world).2 !! "out.gff" =
  Some (join [mrna_row "1" "900" "T1" "G1"; cds_row "1" "300" "T1";
              mrna_row "1000" "1900" "T2" "G2"; cds_row "1000" "1100" "T2"]).
Proof. vm_compute. reflexivity. Qed.

(** C9. [Maxlen.main] opens, and so truncates, the output file before it
    opens the input: every run that goes on to fail leaves the output file
    in place and empty, and a run whose input and output are the same file
    reads no line at all. *)
Theorem output_truncated_before_reading gff outgff w r w' :
  Maxlen.main gff outgff w = (r, w') →
  write_errors w !! outgff = None →
  (r ≠ Ok () →
     files w' !! outgff = Some "" ∧
     (r = Raise ValueError ∨ r = Raise (SystemExit 1))) ∧
  (gff = outgff → read_errors w !! gff = None →
     r = Ok () ∧ files w' !! outgff = Some "" ∧ stderr w' = stderr w).
Proof.
  intros Hrun Hw. pose proof (main_cases gff outgff w) as Hcases.
  rewrite Hw in Hcases.
  assert (files (truncated outgff w) !! outgff = Some "") as Hout
    by apply lookup_insert_eq.
  split.
  - intros Hfail.
    destruct (read_errors w !! gff) as [msg|].
    { rewrite Hcases in Hrun. injection Hrun as <- <-. eauto. }
    destruct (files (truncated outgff w) !! gff) as [text|].
    2:{ rewrite Hcases in Hrun. injection Hrun as <- <-. eauto. }
    destruct (steps (lines_of text) empty_scan) as [[st|e] ws];
      rewrite Hcases in Hrun; injection Hrun as <- <-; [done|eauto].
  - intros <- Hr. rewrite Hr, Hout in Hcases. simpl in Hcases.
    rewrite Hcases in Hrun. injection Hrun as <- <-. simpl.
    rewrite lookup_insert_eq, app_nil_r. done.
Qed.

Lemma output_truncated_before_reading_witness :
  (Raise ValueError ≠ Ok () →
     files (truncated "out.gff" broken_world) !! "out.gff" = Some "" ∧
     (Raise ValueError = Raise (A := ()) ValueError ∨
      Raise ValueError = Raise (A := ()) (SystemExit 1))) ∧
  ("in.gff" = "out.gff" → read_errors broken_world !! "in.gff" = None →
     Raise ValueError = Ok () ∧
     files (truncated "out.gff" broken_world) !! "out.gff" = Some "" ∧
     stderr (truncated "out.gff" broken_world) = stderr broken_world).
Proof.
  apply (output_truncated_before_reading "in.gff" "out.gff" broken_world).
  - vm_compute. reflexivity.
  - reflexivity.
Defined.

(** C10. Registering an mRNA record replaces whatever an earlier record
    with the same [ID] had left: the buffer of the transcript is the new
    line alone, its length under the gene of the new record is 0, and it
    is mapped to that gene.  As long as no further record carries the
    [ID], every CDS line that names it is appended to this buffer and
    counted under this gene, the entries of the other genes being left as
    they are. *)
Theorem later_mrna_record_overwrites st line t g w :
  parse line = MRna t g →
  ∃ st1,
    scan_line st line w = (Ok st1, w) ∧
    od_get t (mrna_info st1) = Some line ∧
    (od_get g (gene_mrna_len st1) ≫= od_get t) = Some 0 ∧
    od_get t (mrna_gene st1) = Some g ∧
    ∀ mid st2 w2 c c3 c4 start stop,
      for_each mid scan_line st1 w = (Ok st2, w2) →
      t ∉ mrna_ids mid →
      parse c = Cds t c3 c4 → Py.int c3 = Some start → Py.int c4 = Some stop →
      ∃ buf n st3,
        od_get t (mrna_info st2) = Some buf ∧
        (od_get g (gene_mrna_len st2) ≫= od_get t) = Some n ∧
        scan_line st2 c w2 = (Ok st3, w2) ∧
        od_get t (mrna_info st3) = Some (buf +:+ c) ∧
        (od_get g (gene_mrna_len st3) ≫= od_get t) = Some (n + (stop - start + 1)) ∧
        ∀ g', g' ≠ g → od_get g' (gene_mrna_len st3) = od_get g' (gene_mrna_len st2).
Proof.
  intros Hp. exists (register line t g st). split_and!.
  - rewrite scan_line_step. unfold step. rewrite Hp. simpl. by rewrite warned_nil.
  - simpl. by rewrite od_get_set_eq.
  - simpl. rewrite od_get_set_eq. simpl. by rewrite od_get_set_eq.
  - simpl. by rewrite od_get_set_eq.
  - intros mid st2 w2 c c3 c4 start stop Hmid Hnot Hc H3 H4.
    destruct (scan_Ok_steps _ _ _ _ _ Hmid) as (ws & Hs & _).
    destruct (tracked_steps t g mid _ _ _ (tracked_register st line t g) Hs Hnot)
      as (Hg & [buf Hbuf] & d & Hd & [n Hn]).
    exists buf, n, (attach c t g buf d n (stop - start + 1) st2). split_and!.
    + done.
    + by rewrite Hd.
    + rewrite scan_line_step. unfold step.
      rewrite Hc, Hbuf, Hg, H4, H3, Hd, Hn. simpl. by rewrite warned_nil.
    + simpl. by rewrite od_get_set_eq.
    + simpl. rewrite od_get_set_eq. simpl. by rewrite od_get_set_eq.
    + intros g' Hne. simpl. by rewrite od_get_set_ne.
Qed.

Lemma later_mrna_record_overwrites_witness :
  ∃ st1,
    scan_line dup_scan (mrna_row "1" "500" "T1" "G2") demo_world = (Ok st1, demo_world) ∧
    od_get "T1" (mrna_info st1) = Some (mrna_row "1" "500" "T1" "G2") ∧
    (od_get "G2" (gene_mrna_len st1) ≫= od_get "T1") = Some 0 ∧
    od_get "T1" (mrna_gene st1) = Some "G2" ∧
    ∀ mid st2 w2 c c3 c4 start stop,
      for_each mid scan_line st1 demo_world = (Ok st2, w2) →
      "T1" ∉ mrna_ids mid →
      parse c = Cds "T1" c3 c4 → Py.int c3 = Some start → Py.int c4 = Some stop →
      ∃ buf n st3,
        od_get "T1" (mrna_info st2) = Some buf ∧
        (od_get "G2" (gene_mrna_len st2) ≫= od_get "T1") = Some n ∧
        scan_line st2 c w2 = (Ok st3, w2) ∧
        od_get "T1" (mrna_info st3) = Some (buf +:+ c) ∧
        (od_get "G2" (gene_mrna_len st3) ≫= od_get "T1")
          = Some (n + (stop - start + 1)) ∧
        ∀ g', g' ≠ "G2" → od_get g' (gene_mrna_len st3) = od_get g' (gene_mrna_len st2).
Proof.
  apply (later_mrna_record_overwrites dup_scan (mrna_row "1" "500" "T1" "G2")
           "T1" "G2" demo_world).
  vm_compute. reflexivity.
Defined.

(** The same on a file: the second record of [T1] moves it to [G2]; the
    entry under [G1] keeps the length counted before. *)
Example duplicate_id_example :
  (steps [mrna_row "1" "900" "T1" "G1"; cds_row "1" "300" "T1";
          mrna_row "1" "500" "T1" "G2"; cds_row "1" "40" "T1"] empty_scan).1
  = Ok (Scan [("G1", [("T1", 300)]); ("G2", [("T1", 40)])]
             [("T1", mrna_row "1" "500" "T1" "G2" +:+ cds_row "1" "40" "T1")]
             [("T1", "T1")]
             [("T1", "G2")]).
Proof. vm_compute. reflexivity. Qed.

(** * Further properties of the program *)

(** ** Outcomes of a run *)

(** A scan that fails has met a CDS line of a registered transcript whose
    start or end column is not an integer; the lines before it have been
    scanned. *)
Lemma steps_raise_cause lines e ws :
  steps lines empty_scan = (Raise e, ws) →
  ∃ pre line post p c3 c4 st,
    lines = pre ++ line :: post ∧ steps pre empty_scan = (Ok st, ws) ∧
    parse line = Cds p c3 c4 ∧
    p ∈ mrna_ids pre ∧ (Py.int c3 = None ∨ Py.int c4 = None).
Proof.
  assert (∀ post pre st0 ws,
            consistent pre st0 → steps post st0 = (Raise e, ws) →
            ∃ mid line post' p c3 c4 st,
              post = mid ++ line :: post' ∧ steps mid st0 = (Ok st, ws) ∧
              parse line = Cds p c3 c4 ∧
              p ∈ mrna_ids (pre ++ mid) ∧ (Py.int c3 = None ∨ Py.int c4 = None))
    as Hgen.
  { clear ws. induction post as [|line post IH]; intros pre st0 ws Hc; cbn [steps]; [done|].
    destruct (step line st0) as [[st'|e'] ws'] eqn:Hstep.
    - destruct (steps post st') as [r ws''] eqn:Hrest. intros [= -> <-].
      destruct (IH (pre ++ [line]) st' ws'')
        as (mid & l & post' & p & c3 & c4 & st & -> & Hmid & Hp & Hin & Hbad);
        [by eapply consistent_step|done|].
      exists (line :: mid), l, post', p, c3, c4, st. split_and!; [done| |done| |done].
      + cbn [steps]. by rewrite Hstep, Hmid.
      + by rewrite <- app_assoc in Hin.
    - intros [= -> <-].
      destruct (consistent_step_raise _ _ _ _ _ Hc Hstep)
        as (_ & -> & p & c3 & c4 & Hp & Hin & Hbad).
      exists [], line, post, p, c3, c4, st0. by rewrite app_nil_r. }
  intros Hs. destruct (Hgen lines [] empty_scan ws consistent_empty Hs)
    as (mid & line & post & p & c3 & c4 & st & ?).
  by exists mid, line, post, p, c3, c4, st.
Qed.

(** X1. When the input path is not a file the script writes one error
    line, exits with status 1 and leaves every file as it was: the output
    is opened, and so truncated, only once the input is known to exist. *)
Theorem script_missing_input gff outgff w :
  files w !! gff = None →
  ∃ w', Script.main gff outgff w = (Raise (SystemExit 1), w') ∧
        exit_status (Raise (SystemExit 1)) = 1 ∧
        files w' = files w ∧
        stderr w' = stderr w ++ [error_no_input gff].
Proof.
  intros Hf. rewrite script_main_run, decide_False.
  - by eexists.
  - rewrite Hf. by intros [? ?].
Qed.

Lemma script_missing_input_witness :
  ∃ w', Script.main "absent.gff" "out.gff" broken_world = (Raise (SystemExit 1), w') ∧
        exit_status (Raise (SystemExit 1)) = 1 ∧
        files w' = files broken_world ∧
        stderr w' = stderr broken_world ++ [error_no_input "absent.gff"].
Proof.
  apply (script_missing_input "absent.gff" "out.gff" broken_world). reflexivity.
Defined.

(** X2. A failure to open a file is caught: one line [Error: ...] is written
    and the process exits with status 1.  When it is the output that cannot
    be opened no file changes and the input is not read; when it is the
    input, the output has already been truncated. *)
Theorem open_failure_exits gff outgff w :
  is_Some (write_errors w !! outgff) ∨ is_Some (read_errors w !! gff) ∨
    files (truncated outgff w) !! gff = None →
  ∃ msg w',
    Maxlen.main gff outgff w = (Raise (SystemExit 1), w') ∧
    stderr w' = stderr w ++ [error_line msg] ∧
    files w' = (if write_errors w !! outgff is Some _ then files w
                else <[outgff := ""]> (files w)).
Proof.
  intros Hfail. pose proof (main_cases gff outgff w) as Hcases.
  destruct (write_errors w !! outgff) as [msg|] eqn:Hw.
  { exists msg. by eexists. }
  destruct (read_errors w !! gff) as [msg|] eqn:Hr.
  { exists msg. by eexists. }
  destruct (files (truncated outgff w) !! gff) as [text|] eqn:Hf.
  { destruct Hfail as [[? [=]]|[[? [=]]|[=]]]. }
  exists (no_such_file gff). by eexists.
Qed.

Lemma open_failure_exits_witness :
  ∃ msg w',
    Maxlen.main "absent.gff" "out.gff" broken_world = (Raise (SystemExit 1), w') ∧
    stderr w' = stderr broken_world ++ [error_line msg] ∧
    files w' = (if write_errors broken_world !! "out.gff" is Some _ then files broken_world
                else <[ "out.gff" := ""]> (files broken_world)).
Proof.
  apply (open_failure_exits "absent.gff" "out.gff" broken_world).
  right. right. reflexivity.
Defined.

(** X3. A run changes no file but the output: every other path, the input
    among them when it differs from the output, holds what it held, and the
    error stream only grows. *)
Theorem run_frame gff outgff w r w' :
  Maxlen.main gff outgff w = (r, w') →
  (∀ path, path ≠ outgff → files w' !! path = files w !! path) ∧
  read_errors w' = read_errors w ∧ write_errors w' = write_errors w ∧
  ∃ ws, stderr w' = stderr w ++ ws.
Proof.
  intros Hrun. pose proof (main_cases gff outgff w) as Hcases.
  assert (∀ path, path ≠ outgff →
            files (truncated outgff w) !! path = files w !! path) as Htr.
  { intros path Hne. by apply lookup_insert_ne. }
  destruct (write_errors w !! outgff).
  { rewrite Hcases in Hrun. injection Hrun as <- <-. simpl. eauto. }
  destruct (read_errors w !! gff).
  { rewrite Hcases in Hrun. injection Hrun as <- <-. simpl. eauto. }
  destruct (files (truncated outgff w) !! gff) as [text|].
  2:{ rewrite Hcases in Hrun. injection Hrun as <- <-. simpl. eauto. }
  destruct (steps (lines_of text) empty_scan) as [[st|e] ws];
    rewrite Hcases in Hrun; injection Hrun as <- <-; simpl.
  - split_and!; [|done..|eauto]. intros path Hne. by apply lookup_insert_ne.
  - eauto.
Qed.

Lemma run_frame_witness :
  (∀ path, path ≠ "out.gff" → files demo_final !! path = files demo_world !! path) ∧
  read_errors demo_final = read_errors demo_world ∧
  write_errors demo_final = write_errors demo_world ∧
  ∃ ws, stderr demo_final = stderr demo_world ++ ws.
Proof.
  apply (run_frame "in.gff" "out.gff" demo_world (Ok ()) demo_final).
  vm_compute. reflexivity.
Defined.

(** ** Lines without effect *)

Lemma ignored_parse line : ignored line = true → parse line = Other.
Proof.
  unfold ignored, parse.
  destruct (Py.startswith "#" line || negb (Py.truthy (Py.strip line))); [done|].
  destruct (length (columns line) <? 9)%nat; [done|]. simpl.
  destruct (columns line !! 2%nat) as [ty|]; [|done].
  destruct (columns line !! 8%nat) as [attrs|]; [|done].
  destruct (String.eqb ty "mRNA"); [done|].
  by destruct (String.eqb ty "CDS").
Qed.

Lemma step_Other line st : parse line = Other → step line st = (Ok st, []).
Proof. intros Hp. unfold step. by rewrite Hp. Qed.

Lemma steps_ignored lines st :
  steps (filter (λ l, ignored l = false) lines) st = steps lines st.
Proof.
  revert st. induction lines as [|line rest IH]; intros st; [done|].
  destruct (ignored line) eqn:Hi.
  - rewrite filter_cons_False by (by rewrite Hi). cbn [steps].
    rewrite (step_Other _ _ (ignored_parse _ Hi)), IH.
    by destruct (steps rest st).
  - rewrite filter_cons_True by done. cbn [steps].
    destruct (step line st) as [[st'|e] ws]; [by rewrite IH|done].
Qed.

(** X4. Comments, blank lines, lines of fewer than nine columns and features
    other than mRNA and CDS leave the dictionaries and the error stream as
    they are: the loop of [_readgff] gives the same result on a list of
    lines and on what is left of it once these lines are removed. *)
Theorem ignored_lines_have_no_effect lines st w :
  for_each (filter (λ l, ignored l = false) lines) scan_line st w =
  for_each lines scan_line st w.
Proof. by rewrite !for_each_steps, steps_ignored. Qed.

(** ** The warnings of the scanner *)

Lemma consistent_unregistered pre st p :
  consistent pre st → (od_get p (mrna_info st) = None ↔ p ∉ mrna_ids pre).
Proof.
  intros Hc. rewrite od_get_None, (cons_info _ _ Hc). by rewrite elem_of_dedup.
Qed.

Lemma steps_orphans lines pre st st' ws :
  consistent pre st → steps lines st = (Ok st', ws) →
  ws = warn_no_mrna <$> orphans (mrna_ids pre) lines.
Proof.
  revert pre st ws. induction lines as [|line rest IH]; intros pre st ws Hc.
  { by intros [= <- <-]. }
  cbn [steps orphans].
  destruct (step line st) as [[st1|e] ws1] eqn:Hstep; [|done].
  destruct (steps rest st1) as [r ws2] eqn:Hrest. intros [= -> <-].
  pose proof (consistent_step _ _ _ _ _ Hc Hstep) as Hc1.
  pose proof (IH _ _ _ Hc1 Hrest) as ->. rewrite mrna_ids_snoc.
  unfold step in Hstep. destruct (parse line) as [|t g|p c3 c4].
  - injection Hstep as <- <-. by rewrite app_nil_r.
  - by injection Hstep as <- <-.
  - rewrite app_nil_r. destruct (od_get p (mrna_info st)) as [buf|] eqn:Hbuf.
    + rewrite decide_True.
      2:{ destruct (decide (p ∈ mrna_ids pre)) as [|Hn]; [done|].
          apply (consistent_unregistered _ _ _ Hc) in Hn. congruence. }
      destruct (od_get p (mrna_gene st)) as [g|]; [|done].
      destruct (Py.int c4); [|done]. destruct (Py.int c3); [|done].
      destruct (od_get g (gene_mrna_len st)) as [d|]; [|done].
      destruct (od_get p d); [|done]. by injection Hstep as <- <-.
    + rewrite decide_False by (by apply (consistent_unregistered _ _ _ Hc)).
      by injection Hstep as <- <-.
Qed.

(** X5. A run that completes writes to the error stream one warning for
    every CDS record whose [Parent] no earlier mRNA record has registered,
    in file order, and nothing else; in particular the warning of [main]
    for a selected transcript without a buffer is never written. *)
Theorem warnings_are_the_orphans gff outgff w text w' :
  files (truncated outgff w) !! gff = Some text →
  Maxlen.main gff outgff w = (Ok (), w') →
  stderr w' = stderr w ++ (warn_no_mrna <$> orphans [] (lines_of text)).
Proof.
  intros Hf Hrun. pose proof (main_cases gff outgff w) as Hcases.
  destruct (write_errors w !! outgff); [congruence|].
  destruct (read_errors w !! gff); [congruence|]. rewrite Hf in Hcases.
  destruct (steps (lines_of text) empty_scan) as [[st|e] ws] eqn:Hs; [|congruence].
  rewrite Hcases in Hrun. injection Hrun as <-. simpl.
  by rewrite (steps_orphans _ [] _ _ _ consistent_empty Hs).
Qed.

Lemma warnings_are_the_orphans_witness :
  stderr demo_final = stderr demo_world ++ (warn_no_mrna <$> orphans [] (lines_of demo_text)).
Proof.
  apply (warnings_are_the_orphans "in.gff" "out.gff" demo_world demo_text demo_final);
    vm_compute; reflexivity.
Defined.

(** X6. The loop of [_readgff], run from the empty dictionaries over lines
    that have been read and decoded, can fail in one way only.  Its
    dictionary and list look-ups never raise [KeyError] or [IndexError]:
    the exception is the [ValueError] of [int], at the first CDS line whose
    [Parent] an earlier mRNA record has registered and whose start or end
    column [int] rejects.  The lines before this one have been scanned and
    their warnings are on the error stream.  (Failures of opening, reading
    or decoding the file are no part of this statement.) *)
Theorem scan_fails_only_on_coordinates lines w e w' :
  for_each lines scan_line empty_scan w = (Raise e, w') →
  e = ValueError ∧
  ∃ pre line post p c3 c4 st,
    lines = pre ++ line :: post ∧
    for_each pre scan_line empty_scan w = (Ok st, w') ∧
    parse line = Cds p c3 c4 ∧ is_Some (od_get p (mrna_info st)) ∧
    (Py.int c3 = None ∨ Py.int c4 = None) ∧
    stderr w' = stderr w ++ (warn_no_mrna <$> orphans [] pre).
Proof.
  rewrite for_each_steps.
  destruct (steps lines empty_scan) as [[st|e0] ws] eqn:Hs; [done|].
  cbn [fst snd]. intros [= -> <-].
  split; [by eapply steps_raise|].
  destruct (steps_raise_cause _ _ _ Hs)
    as (pre & line & post & p & c3 & c4 & st & Hl & Hpre & Hp & Hin & Hbad).
  pose proof (consistent_steps _ _ _ Hpre) as Hc.
  exists pre, line, post, p, c3, c4, st. split_and!; try done.
  - by rewrite for_each_steps, Hpre.
  - by apply (consistent_registered _ _ _ Hc).
  - cbn [stderr warned]. by rewrite (steps_orphans _ [] _ _ _ consistent_empty Hpre).
Qed.

Lemma scan_fails_only_on_coordinates_witness :
  ValueError = ValueError ∧
  ∃ pre line post p c3 c4 st,
    lines_of broken_text = pre ++ line :: post ∧
    for_each pre scan_line empty_scan broken_world = (Ok st, broken_world) ∧
    parse line = Cds p c3 c4 ∧ is_Some (od_get p (mrna_info st)) ∧
    (Py.int c3 = None ∨ Py.int c4 = None) ∧
    stderr broken_world = stderr broken_world ++ (warn_no_mrna <$> orphans [] pre).
Proof.
  apply (scan_fails_only_on_coordinates (lines_of broken_text) broken_world
           ValueError broken_world).
  vm_compute. reflexivity.
Defined.

(** ** Files without mRNA records *)

Lemma mrna_ids_nil_genes lines : mrna_ids lines = [] → genes lines = [].
Proof.
  unfold mrna_ids, genes. induction lines as [|l lines IH]; [done|]. simpl.
  destruct (parse l); try done; apply IH.
Qed.

Lemma orphans_no_mrna lines :
  mrna_ids lines = [] → orphans [] lines = cds_parents lines.
Proof.
  unfold mrna_ids, cds_parents. induction lines as [|l lines IH]; [done|].
  cbn [orphans omap list_omap]. destruct (parse l) as [|t g|p c3 c4]; [exact IH|done|].
  intros Hm. rewrite decide_False by (intros Hin; inversion Hin).
  by rewrite IH.
Qed.

(** X7. A file without mRNA records, an empty file among them, gives an
    empty output file and a normal end of the run; every CDS record is
    reported with a warning, and its coordinates are not read, so that a
    malformed coordinate is no error here. *)
Theorem no_mrna_records_empty_output gff outgff w text :
  write_errors w !! outgff = None → read_errors w !! gff = None →
  files (truncated outgff w) !! gff = Some text →
  mrna_ids (lines_of text) = [] →
  Maxlen.main gff outgff w =
  (Ok (), World (<[outgff := ""]> (files w)) (read_errors w) (write_errors w)
                (stderr w ++ (warn_no_mrna <$> cds_parents (lines_of text)))).
Proof.
  intros Hw Hr Hf Hm. pose proof (main_cases gff outgff w) as Hcases.
  rewrite Hw, Hr, Hf in Hcases.
  destruct (steps (lines_of text) empty_scan) as [[st|e] ws] eqn:Hs.
  - rewrite Hcases.
    pose proof (consistent_steps _ _ _ Hs) as Hc.
    rewrite (steps_orphans _ [] _ _ _ consistent_empty Hs).
    change (mrna_ids []) with (@nil string). rewrite (orphans_no_mrna _ Hm).
    pose proof (cons_genes _ _ Hc) as Hg.
    rewrite (mrna_ids_nil_genes _ Hm) in Hg.
    unfold blocks. destruct (gene_mrna_len st); [done|discriminate Hg].
  - destruct (steps_raise_cause _ _ _ Hs)
      as (pre & l & post & p & c3 & c4 & st & Hl & _ & _ & Hin & _).
    rewrite Hl in Hm. unfold mrna_ids in Hm, Hin. rewrite omap_app in Hm.
    apply app_eq_nil in Hm as [Hm _]. rewrite Hm in Hin. inversion Hin.
Qed.

Lemma no_mrna_records_empty_output_witness :
  Maxlen.main "in.gff" "out.gff" odd_cds_world =
  (Ok (), World (<[ "out.gff" := ""]> (files odd_cds_world)) (read_errors odd_cds_world)
                (write_errors odd_cds_world)
                (stderr odd_cds_world ++ (warn_no_mrna <$> cds_parents (lines_of odd_cds_line)))).
Proof.
  apply (no_mrna_records_empty_output "in.gff" "out.gff" odd_cds_world odd_cds_line);
    vm_compute; reflexivity.
Defined.

(** ** The third dictionary *)

Lemma od_set_diag (p : string) (l : list string) :
  od_set p p ((λ q, (q, q)) <$> l) =
  (λ q, (q, q)) <$> (if decide (p ∈ l) then l else l ++ [p]).
Proof.
  induction l as [|q l IH].
  - by rewrite decide_False by (intros Hin; inversion Hin).
  - rewrite fmap_cons. cbn [od_set]. destruct (decide (p = q)) as [->|Hne].
    + by rewrite decide_True by apply list_elem_of_here.
    + rewrite IH. destruct (decide (p ∈ l)) as [Hin|Hnin].
      * by rewrite decide_True by (by apply list_elem_of_further).
      * rewrite decide_False; [done|].
        intros [?|?]%elem_of_cons; congruence.
Qed.

Lemma step_rna_proid line st st' ws :
  step line st = (Ok st', ws) →
  rna_proid st' = match parse line with
                  | Cds p _ _ => od_set p p (rna_proid st)
                  | _ => rna_proid st
                  end.
Proof.
  unfold step. destruct (parse line) as [|t g|p c3 c4].
  - by intros [= <- <-].
  - by intros [= <- <-].
  - destruct (od_get p (mrna_info st)); [|by intros [= <- <-]].
    destruct (od_get p (mrna_gene st)) as [g|]; [|done].
    destruct (Py.int c4); [|done]. destruct (Py.int c3); [|done].
    destruct (od_get g (gene_mrna_len st)) as [d|]; [|done].
    destruct (od_get p d); [|done]. by intros [= <- <-].
Qed.

Lemma cds_parents_snoc pre line :
  cds_parents (pre ++ [line]) =
  cds_parents pre ++ match parse line with Cds p _ _ => [p] | _ => [] end.
Proof. unfold cds_parents. rewrite omap_app. simpl. by destruct (parse line). Qed.

Lemma steps_rna_proid lines st ws :
  steps lines empty_scan = (Ok st, ws) →
  rna_proid st = (λ p, (p, p)) <$> dedup (cds_parents lines).
Proof.
  revert st ws. induction lines as [|line pre IH] using rev_ind; intros st ws.
  - by intros [= <- <-].
  - intros (st0 & ws0 & ws1 & H0 & H1 & _)%steps_snoc_Ok.
    rewrite (step_rna_proid _ _ _ _ H1), (IH _ _ H0), cds_parents_snoc.
    destruct (parse line) as [|t g|p c3 c4]; rewrite ?app_nil_r; try done.
    by rewrite od_set_diag, dedup_snoc.
Qed.

(** X8. The third dictionary that [_readgff] returns maps the [Parent] of
    every CDS record to itself, also that of a record without an mRNA, in
    the order of first occurrence; it holds nothing else. *)
Theorem rna_proid_is_identity gff w text st w' :
  read_errors w !! gff = None → files w !! gff = Some text →
  _readgff gff w = (Ok st, w') →
  rna_proid st = (λ p, (p, p)) <$> dedup (cds_parents (lines_of text)).
Proof.
  intros Hr Hf. rewrite (readgff_run _ _ _ Hr Hf).
  destruct (steps (lines_of text) empty_scan) as [r ws] eqn:Hs. simpl.
  intros [= -> _]. by eapply steps_rna_proid.
Qed.

Lemma rna_proid_is_identity_witness :
  rna_proid demo_scan = (λ p, (p, p)) <$> dedup (cds_parents (lines_of demo_text)).
Proof.
  apply (rna_proid_is_identity "in.gff" demo_world demo_text demo_scan
           (_readgff "in.gff" demo_world).2); vm_compute; reflexivity.
Defined.

(** ** Where the output comes from *)


Lemma owner_parse l t : owner l = Some t → parse l ≠ Other.
Proof. unfold owner. by destruct (parse l). Qed.

Lemma sourced_empty : sourced [] empty_scan.
Proof. intros t buf [=]. Qed.

Lemma sourced_weaken pre line mi st :
  (∀ t buf, od_get t mi = Some buf →
     ∃ ls, buf = join ls ∧ Forall (λ l, l ∈ pre ∧ owner l = Some t) ls) →
  mrna_info st = mi → sourced (pre ++ [line]) st.
Proof.
  intros Hs <- t buf Hbuf. destruct (Hs t buf Hbuf) as (ls & -> & Hls).
  exists ls. split; [done|]. eapply Forall_impl; [exact Hls|].
  intros l [Hin Ho]. split; [|done]. apply elem_of_app. by left.
Qed.

Lemma sourced_set pre line t buf ls st st' :
  sourced pre st → owner line = Some t →
  mrna_info st' = od_set t (join (ls ++ [line])) (mrna_info st) →
  Forall (λ l, l ∈ pre ∧ owner l = Some t) ls →
  buf = join (ls ++ [line]) →
  sourced (pre ++ [line]) st'.
Proof.
  intros Hs Ho Hmi Hls -> t' buf'. rewrite Hmi.
  destruct (decide (t = t')) as [<-|Hne].
  - rewrite od_get_set_eq. intros [= <-]. exists (ls ++ [line]). split; [done|].
    apply Forall_app. split.
    + eapply Forall_impl; [exact Hls|]. intros l [Hin ?]. split; [|done].
      apply elem_of_app. by left.
    + apply Forall_singleton. split; [|done]. apply elem_of_app. right.
      apply list_elem_of_here.
  - rewrite od_get_set_ne by done. intros Hbuf.
    destruct (Hs t' buf' Hbuf) as (ls' & -> & Hls').
    exists ls'. split; [done|]. eapply Forall_impl; [exact Hls'|].
    intros l [Hin ?]. split; [|done]. apply elem_of_app. by left.
Qed.

Lemma sourced_step pre st line st' ws :
  sourced pre st → step line st = (Ok st', ws) → sourced (pre ++ [line]) st'.
Proof.
  intros Hs. unfold step. destruct (parse line) as [|t g|p c3 c4] eqn:Hp.
  - intros [= <- <-]. by eapply sourced_weaken.
  - intros [= <- <-].
    apply (sourced_set pre line t line [] st); try done.
    + unfold owner. by rewrite Hp.
    + simpl. by rewrite string_app_nil_r.
    + simpl. by rewrite string_app_nil_r.
  - destruct (od_get p (mrna_info st)) as [buf|] eqn:Hbuf.
    2:{ intros [= <- <-]. by eapply sourced_weaken. }
    destruct (od_get p (mrna_gene st)) as [g|]; [|done].
    destruct (Py.int c4); [|done]. destruct (Py.int c3); [|done].
    destruct (od_get g (gene_mrna_len st)) as [d|]; [|done].
    destruct (od_get p d); [|done]. intros [= <- <-].
    destruct (Hs p buf Hbuf) as (ls & -> & Hls).
    apply (sourced_set pre line p (join ls +:+ line) ls st); try done.
    + unfold owner. by rewrite Hp.
    + simpl. by rewrite join_snoc.
    + by rewrite join_snoc.
Qed.

Lemma sourced_steps lines st ws :
  steps lines empty_scan = (Ok st, ws) → sourced lines st.
Proof.
  revert st ws. induction lines as [|line pre IH] using rev_ind; intros st ws.
  - intros [= <- <-]. apply sourced_empty.
  - intros (st0 & ws0 & ws1 & H0 & H1 & _)%steps_snoc_Ok.
    eapply sourced_step; eauto.
Qed.

Lemma sourced_blocks lines st :
  sourced lines st →
  ∃ ls, join (blocks st) = join ls ∧
        Forall (λ l, l ∈ lines ∧ parse l ≠ Other) ls.
Proof.
  intros Hs. unfold blocks.
  induction (selection (gene_mrna_len st)) as [|t sel (ls & Hj & Hls)].
  { by exists []. }
  cbn [omap list_omap]. destruct (od_get t (mrna_info st)) as [buf|] eqn:Hbuf.
  - destruct (Hs t buf Hbuf) as (ls0 & -> & Hls0).
    exists (ls0 ++ ls). rewrite join_cons, join_app, Hj. split; [done|].
    apply Forall_app. split; [|done]. eapply Forall_impl; [exact Hls0|].
    intros l [? ?]. split; [done|]. by eapply owner_parse.
  - by exists ls.
Qed.




(** X9. The output of a completed run is a concatenation of lines of the
    input, each of them an mRNA or a CDS record: comments and other features
    never reach the output and no text is made up.  When the input ends with
    a newline these lines are the lines of the output file. *)
Theorem output_made_of_input_lines gff outgff w text w' :
  files (truncated outgff w) !! gff = Some text →
  Maxlen.main gff outgff w = (Ok (), w') →
  ∃ ls, files w' !! outgff = Some (join ls) ∧
        Forall (λ l, l ∈ lines_of text ∧ parse l ≠ Other) ls ∧
        (terminated text = true → lines_of (join ls) = ls).
Proof.
  intros Hf Hrun. pose proof (main_cases gff outgff w) as Hcases.
  destruct (write_errors w !! outgff); [congruence|].
  destruct (read_errors w !! gff); [congruence|]. rewrite Hf in Hcases.
  destruct (steps (lines_of text) empty_scan) as [[st|e] ws] eqn:Hs; [|congruence].
  rewrite Hcases in Hrun. injection Hrun as <-. cbn [files].
  destruct (sourced_blocks _ _ (sourced_steps _ _ _ Hs)) as (ls & Hj & Hls).
  exists ls. rewrite lookup_insert_eq, Hj. split_and!; [done..|].
  intros Ht. apply lines_of_join. apply Forall_forall. intros l Hl.
  rewrite Forall_forall in Hls. destruct (Hls l Hl) as [Hin _].
  pose proof (terminated_lines _ Ht) as Hall. rewrite Forall_forall in Hall. auto.
Qed.

Lemma output_made_of_input_lines_witness :
  ∃ ls, files demo_final !! "out.gff" = Some (join ls) ∧
        Forall (λ l, l ∈ lines_of demo_text ∧ parse l ≠ Other) ls ∧
        (terminated demo_text = true → lines_of (join ls) = ls).
Proof.
  apply (output_made_of_input_lines "in.gff" "out.gff" demo_world demo_text demo_final);
    vm_compute; reflexivity.
Defined.

(** ** The selector on any mapping *)

Lemma getmax_loop_empty gml suffix acc w :
  (∀ g d, (g, d) ∈ suffix → od_get g gml = Some d) →
  Exists (λ gd, gd.2 = []) suffix →
  for_each (od_keys suffix) (_getmax_step gml) acc w = (Raise IndexError, w).
Proof.
  intros Hs Hex. revert acc.
  induction suffix as [|[g d] suffix IH]; intros acc; [inversion Hex|].
  unfold od_keys. rewrite fmap_cons. cbn [for_each fst].
  rewrite run_bind. unfold _getmax_step at 1. rewrite run_bind.
  unfold getitem. rewrite (Hs g d) by apply list_elem_of_here.
  destruct d as [|x d].
  { done. }
  destruct (head_sorted_desc_is_Some snd (x :: d)) as [y Hy]; [done|].
  cbn [mret M_ret]. rewrite run_bind. unfold index.
  rewrite <- head_lookup, Hy. cbn [mret M_ret].
  apply IH.
  - intros g' d' Hin. apply Hs. by apply list_elem_of_further.
  - apply Exists_cons in Hex as [Hex|Hex]; [done|exact Hex].
Qed.

(** X10. [_getmax] on any mapping: when every gene has a transcript it
    returns one identifier for each gene, in the order of the genes, the
    first of maximal length in the dictionary of its gene; when a gene has
    none it raises [IndexError].  It leaves the files and the error stream
    as they are. *)
Theorem getmax_any_mapping gml w :
  NoDup (od_keys gml) →
  (Forall (λ gd, gd.2 ≠ []) gml →
     ∃ sel, _getmax gml w = (Ok sel, w) ∧ length sel = length gml ∧
       ∀ i g d, gml !! i = Some (g, d) →
         ∃ before t m after,
           d = before ++ (t, m) :: after ∧
           Forall (λ x, x.2 < m) before ∧ Forall (λ x, x.2 ≤ m) after ∧
           sel !! i = Some t) ∧
  (Exists (λ gd, gd.2 = []) gml → _getmax gml w = (Raise IndexError, w)).
Proof.
  intros Hnd. split.
  - intros Hne. destruct (getmax_run gml w Hnd) as [Hrun Hsel].
    { intros g d Hin. rewrite Forall_forall in Hne. apply (Hne _ Hin). }
    exists (selection gml). split_and!; [done|symmetry; by eapply Forall2_length|].
    intros i g d Hi.
    destruct (Forall2_lookup_l _ _ _ _ _ Hsel Hi) as (t & Ht & Hl).
    unfold longest in Hl. simpl in Hl.
    destruct (head (sorted_desc snd d)) as [[t' m]|] eqn:Hh; [|done].
    injection Hl as ->.
    destruct (head_sorted_desc_inv snd _ _ Hh) as (before & after & -> & Hb & Ha).
    by exists before, t, m, after.
  - intros Hex. apply (getmax_loop_empty gml gml [] w); [|done].
    intros g d Hin. by apply od_elem_get.
Qed.

Lemma getmax_any_mapping_witness :
  (Forall (λ gd, gd.2 ≠ []) hollow_mapping →
     ∃ sel, _getmax hollow_mapping demo_world = (Ok sel, demo_world) ∧
       length sel = length hollow_mapping ∧
       ∀ i g d, hollow_mapping !! i = Some (g, d) →
         ∃ before t m after,
           d = before ++ (t, m) :: after ∧
           Forall (λ x, x.2 < m) before ∧ Forall (λ x, x.2 ≤ m) after ∧
           sel !! i = Some t) ∧
  (Exists (λ gd, gd.2 = []) hollow_mapping →
   _getmax hollow_mapping demo_world = (Raise IndexError, demo_world)).
Proof.
  apply (getmax_any_mapping hollow_mapping demo_world).
  apply (bool_decide_unpack _). vm_compute. exact I.
Defined.

(** ** Matching the text of a record *)

Lemma startswith_app p s : Py.startswith p (p +:+ s) = true.
Proof.
  induction p as [|c p IH]; [done|]. rewrite string_app_cons. cbn [Py.startswith].
  by rewrite Ascii.eqb_refl.
Qed.

Lemma drop_app p s : Py.drop (String.length p) (p +:+ s) = s.
Proof. induction p as [|c p IH]; [by destruct s|]. exact IH. Qed.

Lemma take_app p s : Py.take (String.length p) (p +:+ s) = p.
Proof.
  induction p as [|c p IH]; [by destruct s|].
  rewrite string_app_cons. cbn [String.length Py.take]. by rewrite IH.
Qed.

Lemma drop_drop a b s : Py.drop a (Py.drop b s) = Py.drop (b + a) s.
Proof.
  revert s. induction b as [|b IH]; intros s; [done|].
  destruct s as [|c s]; [by destruct a|]. apply IH.
Qed.

Lemma drop_nil n : Py.drop n "" = "".
Proof. by destruct n. Qed.

Lemma span_app_ge cls a s :
  all_chars cls a = true → (String.length a ≤ Re.span cls (a +:+ s))%nat.
Proof.
  induction a as [|c a IH]; [simpl; lia|].
  cbn [all_chars]. intros [Hc Ha]%andb_true_iff.
  rewrite string_app_cons. cbn [Re.span String.length]. rewrite Hc.
  specialize (IH Ha). lia.
Qed.

Lemma span_app_stop cls a s :
  all_chars cls a = true →
  match s with String c _ => cls c = false | EmptyString => True end →
  Re.span cls (a +:+ s) = String.length a.
Proof.
  intros Ha Hs. induction a as [|c a IH].
  - destruct s as [|c s]; [done|]. simpl. by rewrite Hs.
  - cbn [all_chars] in Ha. apply andb_true_iff in Ha as [Hc Ha].
    rewrite string_app_cons. cbn [Re.span String.length]. by rewrite Hc, IH.
Qed.

Lemma greedy_skip {A} (try : nat → option A) lo k n r :
  (lo ≤ k ≤ n)%nat → try k = Some r →
  (∀ j, (k < j ≤ n)%nat → try j = None) →
  Re.greedy try lo n = Some r.
Proof.
  induction n as [|n IH]; intros Hk Hr Hskip.
  - assert (k = 0%nat) as -> by lia. assert (lo = 0%nat) as -> by lia.
    simpl. by rewrite Hr.
  - cbn [Re.greedy]. destruct (S n <? lo)%nat eqn:E.
    { apply Nat.ltb_lt in E. lia. }
    destruct (decide (k = S n)) as [->|Hne].
    + by rewrite Hr.
    + rewrite Hskip by lia. apply IH; [lia|done|]. intros j Hj. apply Hskip. lia.
Qed.

Lemma occurs_drop p s j : occurs p s = false → Py.startswith p (Py.drop j s) = false.
Proof.
  revert s. induction j as [|j IH]; intros s.
  - destruct s; simpl; by intros [? ?]%orb_false_iff.
  - destruct s as [|c s]; simpl.
    + by intros [? ?]%orb_false_iff.
    + intros [_ ?]%orb_false_iff. by apply IH.
Qed.

(** No match of [Parent=...] starts inside the word [Parent=] that ends a
    text without a further occurrence. *)
Lemma parent_late x j :
  occurs "Parent=" x = false → (0 < j)%nat →
  Py.startswith "Parent=" (Py.drop j ("Parent=" +:+ x)) = false.
Proof.
  intros Hx Hj.
  do 7 (destruct j as [|j]; [first [lia|reflexivity]|]).
  change (Py.drop (S (S (S (S (S (S (S j))))))) ("Parent=" +:+ x)) with (Py.drop j x).
  by apply occurs_drop.
Qed.

Lemma startswith_prefix p u v :
  (String.length p ≤ String.length u)%nat →
  Py.startswith p (u +:+ v) = Py.startswith p u.
Proof.
  revert u. induction p as [|a p IH]; intros u Hl; [done|].
  destruct u as [|b u]; [simpl in Hl; lia|].
  rewrite string_app_cons. cbn [Py.startswith].
  destruct (Ascii.eqb a b); [|done]. apply IH. simpl in Hl. lia.
Qed.

Lemma length_app (a b : string) :
  String.length (a +:+ b) = (String.length a + String.length b)%nat.
Proof. induction a as [|c a IH]; [done|]. rewrite string_app_cons. simpl. by rewrite IH. Qed.

Lemma truthy_length s : Py.truthy s = true → (1 ≤ String.length s)%nat.
Proof. destruct s; [done|]. simpl. lia. Qed.

Lemma match_parent_fail cls s :
  Py.startswith "Parent=" s = false →
  Re.match_here [Re.Lit "Parent="; Re.Group1 cls] s = None.
Proof. intros H. cbn [Re.match_here]. by rewrite H. Qed.

Lemma attr_end_stop rest :
  attr_end rest = true →
  match rest with String c _ => Re.not_semicolon c = false | EmptyString => True end.
Proof.
  destruct rest as [|c rest]; [done|]. unfold attr_end, Re.not_semicolon.
  cbn [Py.truthy negb orb Py.startswith]. rewrite (Ascii.eqb_sym c).
  by destruct (Ascii.eqb ";" c).
Qed.

(** [Parent=([^;]+)] at the start of a text. *)
Lemma match_parent parent rest :
  Py.truthy parent = true → all_chars Re.not_semicolon parent = true →
  attr_end rest = true →
  Re.match_here Re.cds_pattern ("Parent=" +:+ parent +:+ rest) = Some [parent].
Proof.
  intros Hne Hp Hrest. unfold Re.cds_pattern. cbn [Re.match_here].
  rewrite startswith_app, (drop_app "Parent=").
  rewrite (span_app_stop _ _ _ Hp (attr_end_stop _ Hrest)).
  apply (greedy_skip _ 1 (String.length parent)).
  - apply truthy_length in Hne. lia.
  - by rewrite take_app.
  - intros j Hj. lia.
Qed.

Lemma match_here_lit l p s :
  Re.match_here (Re.Lit l :: p) s =
  if Py.startswith l s then Re.match_here p (Py.drop (String.length l) s) else None.
Proof. reflexivity. Qed.

Lemma match_here_group cls p s :
  Re.match_here (Re.Group1 cls :: p) s =
  Re.greedy (λ k, cons (Py.take k s) <$> Re.match_here p (Py.drop k s))
            1 (Re.span cls s).
Proof. reflexivity. Qed.

Lemma match_here_star cls p s :
  Re.match_here (Re.Star cls :: p) s =
  Re.greedy (λ k, Re.match_here p (Py.drop k s)) 0 (Re.span cls s).
Proof. reflexivity. Qed.

(** [.*Parent=([^;]+)] takes the last [Parent=]. *)
Lemma match_star_parent mid parent rest :
  all_chars Re.dot mid = true →
  Py.truthy parent = true → all_chars Re.not_semicolon parent = true →
  attr_end rest = true → occurs "Parent=" (parent +:+ rest) = false →
  Re.match_here (Re.Star Re.dot :: Re.cds_pattern)
                (mid +:+ "Parent=" +:+ parent +:+ rest) = Some [parent].
Proof.
  intros Hmid Hne Hp Hrest Hocc. rewrite match_here_star.
  apply (greedy_skip _ 0 (String.length mid)).
  - split; [lia|]. by apply span_app_ge.
  - rewrite drop_app. by apply match_parent.
  - intros j Hj. replace j with (String.length mid + (j - String.length mid))%nat by lia.
    rewrite <- drop_drop, drop_app. apply match_parent_fail.
    apply parent_late; [done|lia].
Qed.

(** [ID=([^;]+);.*Parent=([^;]+)] on attributes in the usual order. *)
Lemma match_id_parent id mid parent rest :
  Py.truthy id = true → all_chars Re.not_semicolon id = true →
  all_chars Re.dot mid = true →
  Py.truthy parent = true → all_chars Re.not_semicolon parent = true →
  attr_end rest = true → occurs "Parent=" (parent +:+ rest) = false →
  Re.first_match Re.mrna_pattern (id_parent id mid parent rest) = Some [id; parent].
Proof.
  intros Hid Hidc Hmid Hne Hp Hrest Hocc.
  assert (Re.match_here Re.mrna_pattern (id_parent id mid parent rest) = Some [id; parent])
    as Hm.
  2:{ unfold Re.first_match. destruct (id_parent id mid parent rest); by rewrite Hm. }
  unfold Re.mrna_pattern, id_parent.
  rewrite match_here_lit, startswith_app, (drop_app "ID="), match_here_group.
  rewrite (span_app_stop _ id) by done.
  apply (greedy_skip _ 1 (String.length id)).
  { apply truthy_length in Hid. lia. }
  2:{ intros j Hj. lia. }
  rewrite take_app, drop_app, match_here_lit, startswith_app, (drop_app ";").
  fold Re.cds_pattern. by rewrite match_star_parent.
Qed.

(** [Parent=([^;]+)] finds the first [Parent=]. *)
Lemma match_first_parent pre parent rest :
  occurs "Parent=" (pre +:+ "Parent") = false →
  Py.truthy parent = true → all_chars Re.not_semicolon parent = true →
  attr_end rest = true →
  Re.first_match Re.cds_pattern (pre +:+ "Parent=" +:+ parent +:+ rest) = Some [parent].
Proof.
  intros Hocc Hne Hp Hrest. induction pre as [|c pre IH].
  - rewrite string_app_nil_l.
    pose proof (match_parent _ _ Hne Hp Hrest) as Hm.
    unfold Re.first_match. destruct ("Parent=" +:+ parent +:+ rest); by rewrite Hm.
  - rewrite string_app_cons in Hocc. cbn [occurs] in Hocc.
    apply orb_false_iff in Hocc as [Hhere Hocc].
    rewrite string_app_cons. cbn [Re.first_match].
    rewrite <- string_app_cons.
    replace (String c pre +:+ "Parent=" +:+ parent +:+ rest)
      with ((String c pre +:+ "Parent") +:+ "=" +:+ parent +:+ rest)
      by (by rewrite string_app_assoc).
    unfold Re.cds_pattern at 1. rewrite match_parent_fail.
    + by apply IH.
    + rewrite startswith_prefix; [done|]. rewrite length_app. simpl. lia.
Qed.

(** ** The columns of a line *)

Lemma lstrip_length cls s :
  (String.length (Py.lstrip_class cls s) ≤ String.length s)%nat.
Proof.
  induction s as [|c s IH]; [done|]. cbn [Py.lstrip_class].
  destruct (cls c); simpl; lia.
Qed.

Lemma lstrip_app cls a b :
  Py.truthy a = true → Py.lstrip_class cls a = a →
  Py.lstrip_class cls (a +:+ b) = a +:+ b.
Proof.
  destruct a as [|c a]; [done|]. intros _. rewrite string_app_cons.
  cbn [Py.lstrip_class]. destruct (cls c); [|done].
  intros Heq. pose proof (lstrip_length cls a) as Hl. rewrite Heq in Hl.
  simpl in Hl. lia.
Qed.

Lemma rstrip_ok_app cls a b : rstrip_ok cls b → rstrip_ok cls (a +:+ b).
Proof.
  intros [Hb Heq]. induction a as [|c a [Ha IH]]; [done|].
  split; [done|]. rewrite string_app_cons. cbn [Py.rstrip_class]. rewrite IH.
  by destruct (a +:+ b).
Qed.

Lemma rstrip_tail cls s t :
  rstrip_ok cls s → all_chars cls t = true → Py.rstrip_class cls (s +:+ t) = s.
Proof.
  intros [Hs Heq] Ht.
  assert (Py.rstrip_class cls t = "") as Htail.
  { induction t as [|c t IH]; [done|]. cbn [all_chars] in Ht.
    apply andb_true_iff in Ht as [Hc Ht]. cbn [Py.rstrip_class].
    by rewrite (IH Ht), Hc. }
  induction s as [|c s IH]; [done|].
  rewrite string_app_cons. cbn [Py.rstrip_class] in *.
  destruct s as [|c' s].
  - rewrite string_app_nil_l, Htail. by destruct (cls c).
  - destruct (Py.rstrip_class cls (String c' s)) as [|c'' s''] eqn:E.
    + by destruct (cls c).
    + injection Heq as -> ->. by rewrite IH.
Qed.

Lemma split_last x : all_chars not_tab x = true → Py.split Py.tab x = [x].
Proof.
  induction x as [|c x IH]; [done|]. cbn [all_chars].
  intros [Hc Hx]%andb_true_iff. cbn [Py.split].
  unfold not_tab in Hc. apply negb_true_iff in Hc. by rewrite Hc, (IH Hx).
Qed.

Lemma split_field x s :
  all_chars not_tab x = true →
  Py.split Py.tab (x +:+ String Py.tab "" +:+ s) = x :: Py.split Py.tab s.
Proof.
  induction x as [|c x IH].
  - intros _. rewrite string_app_nil_l, string_app_cons, string_app_nil_l.
    cbn [Py.split]. by rewrite Ascii.eqb_refl.
  - cbn [all_chars]. intros [Hc Hx]%andb_true_iff. rewrite string_app_cons.
    cbn [Py.split]. unfold not_tab in Hc. apply negb_true_iff in Hc.
    by rewrite Hc, (IH Hx).
Qed.

(** The columns of a line of nine fields. *)
Lemma columns_row c0 c1 c2 c3 c4 c5 c6 c7 c8 :
  forallb (all_chars not_tab) [c0; c1; c2; c3; c4; c5; c6; c7; c8] = true →
  Py.truthy c0 = true → Py.lstrip_class Py.is_space c0 = c0 →
  rstrip_ok Py.is_space c8 →
  Py.strip (row [c0; c1; c2; c3; c4; c5; c6; c7; c8]) =
    String.concat (String Py.tab "") [c0; c1; c2; c3; c4; c5; c6; c7; c8] ∧
  columns (row [c0; c1; c2; c3; c4; c5; c6; c7; c8]) =
    [c0; c1; c2; c3; c4; c5; c6; c7; c8].
Proof.
  intros Htabs H0 Hl Hr.
  assert (Py.strip (row [c0; c1; c2; c3; c4; c5; c6; c7; c8]) =
          String.concat (String Py.tab "") [c0; c1; c2; c3; c4; c5; c6; c7; c8]) as Hs.
  { unfold Py.strip, row. cbn [String.concat].
    rewrite string_app_assoc, (lstrip_app _ c0) by done.
    rewrite <- string_app_assoc. apply rstrip_tail; [|done].
    by repeat apply rstrip_ok_app. }
  split; [exact Hs|]. unfold columns. rewrite Hs. cbn [String.concat].
  cbn [forallb] in Htabs.
  repeat (apply andb_true_iff in Htabs as [? Htabs]).
  rewrite !split_field by done. by rewrite split_last.
Qed.

(** What the scanner sees in a line of nine fields. *)
Lemma parse_row c0 c1 c2 c3 c4 c5 c6 c7 c8 :
  forallb (all_chars not_tab) [c0; c1; c2; c3; c4; c5; c6; c7; c8] = true →
  Py.truthy c0 = true → Py.lstrip_class Py.is_space c0 = c0 →
  Py.startswith "#" c0 = false →
  rstrip_ok Py.is_space c8 →
  parse (row [c0; c1; c2; c3; c4; c5; c6; c7; c8]) =
  if String.eqb c2 "mRNA" then
    match Re.first_match Re.mrna_pattern c8 with
    | Some [mrna_id; gene_id] => MRna mrna_id gene_id
    | _ => Other
    end
  else if String.eqb c2 "CDS" then
    match Re.first_match Re.cds_pattern c8 with
    | Some [parent] => Cds parent c3 c4
    | _ => Other
    end
  else Other.
Proof.
  intros Htabs H0 Hl Hhash Hr.
  destruct (columns_row _ _ _ _ _ _ _ _ _ Htabs H0 Hl Hr) as [Hs Hc].
  unfold parse. rewrite Hs, Hc.
  assert (Py.startswith "#" (row [c0; c1; c2; c3; c4; c5; c6; c7; c8]) = false) as ->.
  { unfold row. cbn [String.concat]. rewrite string_app_assoc, startswith_prefix; [done|].
    apply truthy_length in H0. simpl. lia. }
  assert (Py.truthy (String.concat (String Py.tab "") [c0; c1; c2; c3; c4; c5; c6; c7; c8])
          = true) as ->.
  { cbn [String.concat]. by destruct c0. }
  cbn [orb negb length Nat.ltb Nat.leb lookup list_lookup].
  destruct (String.eqb c2 "mRNA"); [done|].
  destruct (String.eqb c2 "CDS"); [|done].
  by destruct (Re.first_match Re.cds_pattern c8) as [[|? [|? ?]]|].
Qed.

(** X11. A line of nine tab-separated fields whose type is [mRNA] and
    whose attributes give the [ID] first and the [Parent] later is an mRNA
    record with this [ID] and this [Parent], and the loop body registers it.
    The fields hold no tab, the first is not empty and begins neither with
    white space nor with [#], [ID] and [Parent] are not empty and hold no
    semicolon, no newline stands between them, the [Parent] ends the
    attributes or is followed by a semicolon, no further [Parent=] follows
    it, and the line does not end with white space before its newline. *)
Theorem canonical_mrna_row c0 c1 c3 c4 c5 c6 c7 id mid gene rest :
  forallb (all_chars not_tab)
          [c0; c1; "mRNA"; c3; c4; c5; c6; c7; id_parent id mid gene rest] = true →
  Py.truthy c0 = true → Py.lstrip_class Py.is_space c0 = c0 →
  Py.startswith "#" c0 = false →
  Py.truthy id = true → all_chars Re.not_semicolon id = true →
  all_chars Re.dot mid = true →
  Py.truthy gene = true → all_chars Re.not_semicolon gene = true →
  attr_end rest = true → occurs "Parent=" (gene +:+ rest) = false →
  Py.rstrip_class Py.is_space (gene +:+ rest) = gene +:+ rest →
  let line := row [c0; c1; "mRNA"; c3; c4; c5; c6; c7; id_parent id mid gene rest] in
  parse line = MRna id gene ∧
  ∀ st w, scan_line st line w = (Ok (register line id gene st), w).
Proof.
  intros Htabs H0 Hl Hhash Hid Hidc Hmid Hg Hgc Hend Hocc Hr line.
  assert (parse line = MRna id gene) as Hp.
  { unfold line. rewrite parse_row; try done.
    - by rewrite String.eqb_refl, match_id_parent.
    - unfold id_parent. do 5 apply rstrip_ok_app. split; [|done]. by destruct gene. }
  split; [exact Hp|]. intros st w.
  rewrite scan_line_step. unfold step. rewrite Hp. cbn [fst snd].
  by rewrite warned_nil.
Qed.

Lemma canonical_mrna_row_witness :
  let line := row ["chr1"; "src"; "mRNA"; "1"; "900"; "."; "+"; ".";
                   id_parent "T1" "Name=first isoform;" "G1" ";Note=x"] in
  parse line = MRna "T1" "G1" ∧
  ∀ st w, scan_line st line w = (Ok (register line "T1" "G1" st), w).
Proof.
  apply (canonical_mrna_row "chr1" "src" "1" "900" "." "+" "."
           "T1" "Name=first isoform;" "G1" ";Note=x"); reflexivity.
Defined.

(** X12. A line of nine tab-separated fields whose type is [CDS] and whose
    attributes hold [Parent=] once, followed by a [Parent] that is not empty,
    holds no semicolon and ends the attributes or is followed by a
    semicolon, is a CDS record of this [Parent] with the fourth and the
    fifth field as its coordinates, whatever these are.  The conditions on
    the fields are those of an mRNA line. *)
Theorem canonical_cds_row c0 c1 c3 c4 c5 c6 c7 pre parent rest :
  forallb (all_chars not_tab)
          [c0; c1; "CDS"; c3; c4; c5; c6; c7;
           pre +:+ "Parent=" +:+ parent +:+ rest] = true →
  Py.truthy c0 = true → Py.lstrip_class Py.is_space c0 = c0 →
  Py.startswith "#" c0 = false →
  occurs "Parent=" (pre +:+ "Parent") = false →
  Py.truthy parent = true → all_chars Re.not_semicolon parent = true →
  attr_end rest = true →
  Py.rstrip_class Py.is_space (parent +:+ rest) = parent +:+ rest →
  parse (row [c0; c1; "CDS"; c3; c4; c5; c6; c7;
              pre +:+ "Parent=" +:+ parent +:+ rest]) = Cds parent c3 c4.
Proof.
  intros Htabs H0 Hl Hhash Hocc Hp Hpc Hend Hr.
  rewrite parse_row; try done.
  - change (String.eqb "CDS" "mRNA") with false.
    by rewrite String.eqb_refl, match_first_parent.
  - do 2 apply rstrip_ok_app. split; [|done]. by destruct parent.
Qed.

Lemma canonical_cds_row_witness :
  parse (row ["chr1"; "src"; "CDS"; "1"; "3x0"; "."; "+"; "0";
              "ID=cds1;" +:+ "Parent=" +:+ "T1" +:+ ";Note=x"]) = Cds "T1" "1" "3x0".
Proof.
  apply (canonical_cds_row "chr1" "src" "1" "3x0" "." "+" "0" "ID=cds1;" "T1" ";Note=x");
    reflexivity.
Defined.

(** ** What a match tells about the text *)

Lemma greedy_inv {A} (try : nat → option A) lo n r :
  Re.greedy try lo n = Some r → ∃ k, (lo ≤ k ≤ n)%nat ∧ try k = Some r.
Proof.
  induction n as [|n IH]; cbn [Re.greedy].
  - destruct (0 <? lo)%nat eqn:E; [done|]. apply Nat.ltb_ge in E.
    destruct (try 0%nat) eqn:Ht; [|done]. intros [= <-]. exists 0%nat. split; [lia|done].
  - destruct (S n <? lo)%nat eqn:E; [done|]. apply Nat.ltb_ge in E.
    destruct (try (S n)) eqn:Ht.
    + intros [= <-]. exists (S n). split; [lia|done].
    + intros (k & Hk & Hr)%IH. exists k. split; [lia|done].
Qed.

Lemma take_drop k s : Py.take k s +:+ Py.drop k s = s.
Proof.
  revert s. induction k as [|k IH]; intros s; [by destruct s|].
  destruct s as [|c s]; [done|]. cbn [Py.take Py.drop]. by rewrite string_app_cons, IH.
Qed.

Lemma take_span cls k s :
  (k ≤ Re.span cls s)%nat → all_chars cls (Py.take k s) = true.
Proof.
  revert s. induction k as [|k IH]; intros s; [by destruct s|].
  destruct s as [|c s]; [done|]. cbn [Re.span Py.take all_chars].
  destruct (cls c); [|lia]. intros Hk. apply IH. lia.
Qed.

Lemma take_truthy_span cls k s :
  (1 ≤ k ≤ Re.span cls s)%nat → Py.truthy (Py.take k s) = true.
Proof.
  destruct k; [lia|]. destruct s as [|c s]; [simpl; lia|done].
Qed.

Lemma startswith_split l s :
  Py.startswith l s = true → s = l +:+ Py.drop (String.length l) s.
Proof.
  revert s. induction l as [|a l IH]; intros s; [by destruct s|].
  destruct s as [|b s]; [done|]. cbn [Py.startswith].
  destruct (Ascii.eqb_spec a b) as [->|]; [|done]. intros Hs.
  rewrite string_app_cons. cbn [String.length Py.drop]. by rewrite <- (IH s Hs).
Qed.

(** A match of [Parent=([^;]+)] at the start of a text. *)
Lemma match_parent_inv s g :
  Re.match_here Re.cds_pattern s = Some g →
  ∃ parent rest, g = [parent] ∧ s = "Parent=" +:+ parent +:+ rest ∧
                 Py.truthy parent = true ∧ all_chars Re.not_semicolon parent = true.
Proof.
  unfold Re.cds_pattern. rewrite match_here_lit.
  destruct (Py.startswith "Parent=" s) eqn:Hs; [|done].
  apply startswith_split in Hs. rewrite match_here_group.
  intros (k & Hk & Hr)%greedy_inv. cbn [Re.match_here fmap option_fmap option_map] in Hr.
  injection Hr as <-.
  exists (Py.take k (Py.drop (String.length "Parent=") s)),
         (Py.drop k (Py.drop (String.length "Parent=") s)).
  split_and!; [done| |by apply (take_truthy_span Re.not_semicolon)|apply take_span; lia].
  by rewrite take_drop.
Qed.

(** A match of [ID=([^;]+);.*Parent=([^;]+)] at the start of a text. *)
Lemma match_id_parent_inv s g :
  Re.match_here Re.mrna_pattern s = Some g →
  ∃ id mid parent rest,
    g = [id; parent] ∧ s = id_parent id mid parent rest ∧
    Py.truthy id = true ∧ all_chars Re.not_semicolon id = true ∧
    all_chars Re.dot mid = true ∧
    Py.truthy parent = true ∧ all_chars Re.not_semicolon parent = true.
Proof.
  unfold Re.mrna_pattern. rewrite match_here_lit.
  destruct (Py.startswith "ID=" s) eqn:Hs; [|done].
  apply startswith_split in Hs. rewrite match_here_group.
  intros (k & Hk & Hr)%greedy_inv.
  set (s1 := Py.drop (String.length "ID=") s) in *.
  rewrite match_here_lit in Hr.
  destruct (Py.startswith ";" (Py.drop k s1)) eqn:Hsemi; [|done].
  apply startswith_split in Hsemi.
  set (s2 := Py.drop (String.length ";") (Py.drop k s1)) in *.
  rewrite match_here_star in Hr.
  destruct (Re.greedy _ 0 (Re.span Re.dot s2)) as [g'|] eqn:Hstar; [|done].
  injection Hr as <-.
  apply greedy_inv in Hstar as (j & Hj & Hm).
  apply match_parent_inv in Hm as (parent & rest & -> & Hs3 & Hp & Hpc).
  exists (Py.take k s1), (Py.take j s2), parent, rest.
  split_and!; [done| |by apply (take_truthy_span Re.not_semicolon)|
               apply take_span; lia|apply take_span; lia|done..].
  unfold id_parent. rewrite <- Hs3, take_drop, <- Hsemi, take_drop. exact Hs.
Qed.

Lemma first_match_inv p s g :
  Re.first_match p s = Some g →
  ∃ pre s', s = pre +:+ s' ∧ Re.match_here p s' = Some g.
Proof.
  induction s as [|c s IH]; cbn [Re.first_match].
  - destruct (Re.match_here p "") eqn:Hm; [|done]. intros [= <-]. by exists "", "".
  - destruct (Re.match_here p (String c s)) eqn:Hm.
    + intros [= <-]. by exists "", (String c s).
    + intros (pre & s' & -> & Hs')%IH. by exists (String c pre), s'.
Qed.

Lemma all_chars_app cls a b :
  all_chars cls (a +:+ b) = all_chars cls a && all_chars cls b.
Proof.
  induction a as [|c a IH]; [done|]. rewrite string_app_cons. cbn [all_chars].
  by rewrite IH, andb_assoc.
Qed.

Lemma split_no_tab s : Forall (λ f, all_chars not_tab f = true) (Py.split Py.tab s).
Proof.
  induction s as [|c s IH]; [by repeat constructor|]. cbn [Py.split].
  destruct (Ascii.eqb c Py.tab) eqn:Hc; [by constructor|].
  destruct (Py.split Py.tab s) as [|f fs].
  - repeat constructor. cbn [all_chars]. unfold not_tab. by rewrite Hc.
  - apply Forall_cons in IH as [Hf Hfs]. constructor; [|done].
    cbn [all_chars]. unfold not_tab at 1. by rewrite Hc.
Qed.

Lemma parse_mrna_inv line t g :
  parse line = MRna t g →
  ∃ attrs, columns line !! 2%nat = Some "mRNA" ∧ columns line !! 8%nat = Some attrs ∧
           Re.first_match Re.mrna_pattern attrs = Some [t; g].
Proof.
  unfold parse.
  destruct (Py.startswith "#" line || negb (Py.truthy (Py.strip line))); [done|].
  destruct (length (columns line) <? 9)%nat; [done|].
  destruct (columns line !! 2%nat) as [ty|]; [|done].
  destruct (columns line !! 8%nat) as [attrs|]; [|done].
  destruct (String.eqb_spec ty "mRNA") as [->|_].
  - destruct (Re.first_match Re.mrna_pattern attrs) as [[|t' [|g' [|? ?]]]|] eqn:Hm;
      try done.
    intros [= -> ->]. by exists attrs.
  - destruct (String.eqb ty "CDS"); [|done].
    by destruct (Re.first_match Re.cds_pattern attrs) as [[|? [|? ?]]|],
                (columns line !! 3%nat), (columns line !! 4%nat).
Qed.

(** What the line of an mRNA record looks like. *)
Lemma parse_mrna_ident line t g :
  parse line = MRna t g →
  ident t ∧ ident g ∧
  ∃ pre mid rest, columns line !! 2%nat = Some "mRNA" ∧
                  columns line !! 8%nat = Some (pre +:+ id_parent t mid g rest).
Proof.
  intros (attrs & Hty & Hattrs & Hm)%parse_mrna_inv.
  apply first_match_inv in Hm as (pre & s' & -> & Hm).
  apply match_id_parent_inv in Hm
    as (id & mid & parent & rest & [= <- <-] & -> & Hid & Hidc & _ & Hp & Hpc).
  assert (all_chars not_tab (pre +:+ id_parent t mid g rest) = true) as Htab.
  { pose proof (split_no_tab (Py.strip line)) as Hall. rewrite Forall_forall in Hall.
    apply Hall. by eapply list_elem_of_lookup_2. }
  unfold id_parent in Htab. rewrite !all_chars_app in Htab.
  repeat (apply andb_true_iff in Htab as [? Htab]).
  split_and!; try done. by exists pre, mid, rest.
Qed.

(** X13. An identifier that the scanner has registered is never empty and
    holds neither a semicolon nor a tab; this holds of the keys of the
    buffers, of the genes they are mapped to and of the keys of the length
    dictionary.  Every registered transcript comes from a line whose third
    column is [mRNA] and whose ninth column holds [ID=], the identifier and
    a semicolon before [Parent=] and the gene: a line that gives the
    [Parent] before the [ID] registers nothing. *)
Theorem registered_ids_are_identifiers lines w st w' :
  for_each lines scan_line empty_scan w = (Ok st, w') →
  (∀ t, t ∈ od_keys (mrna_info st) →
     ∃ g line pre mid rest,
       od_get t (mrna_gene st) = Some g ∧ ident t ∧ ident g ∧
       line ∈ lines ∧ columns line !! 2%nat = Some "mRNA" ∧
       columns line !! 8%nat = Some (pre +:+ id_parent t mid g rest)) ∧
  (∀ g, g ∈ od_keys (gene_mrna_len st) → ident g).
Proof.
  intros (ws & Hs & _)%scan_Ok_steps.
  pose proof (consistent_steps _ _ _ Hs) as Hc. split.
  - intros t Ht. rewrite (cons_info _ _ Hc), elem_of_dedup in Ht.
    destruct (gene_of_is_Some _ _ Ht) as [g Hg].
    pose proof (gene_of_Some _ _ _ Hg) as (line & Hin & Hp)%elem_of_transcripts.
    destruct (parse_mrna_ident _ _ _ Hp) as (Hit & Hig & pre & mid & rest & Hty & Hattrs).
    exists g, line, pre, mid, rest. by rewrite (cons_gene_of _ _ Hc).
  - intros g Hg. rewrite (cons_genes _ _ Hc), elem_of_dedup in Hg.
    apply elem_of_genes in Hg as (line & t & Hin & Hp).
    by destruct (parse_mrna_ident _ _ _ Hp) as (_ & Hig & _).
Qed.

Lemma registered_ids_are_identifiers_witness :
  (∀ t, t ∈ od_keys (mrna_info demo_scan) →
     ∃ g line pre mid rest,
       od_get t (mrna_gene demo_scan) = Some g ∧ ident t ∧ ident g ∧
       line ∈ demo_lines ∧ columns line !! 2%nat = Some "mRNA" ∧
       columns line !! 8%nat = Some (pre +:+ id_parent t mid g rest)) ∧
  (∀ g, g ∈ od_keys (gene_mrna_len demo_scan) → ident g).
Proof.
  apply (registered_ids_are_identifiers demo_lines demo_world demo_scan
           (for_each demo_lines scan_line empty_scan demo_world).2).
  vm_compute. reflexivity.
Defined.

(** ** Scanning a feature block *)

Section odict_last.
Context {K V : Type} `{EqDecision K}.
Implicit Types (k : K) (v : V) (d : odict K V).

Lemma od_get_app_last k v d : k ∉ od_keys d → od_get k (d ++ [(k, v)]) = Some v.
Proof.
  intros Hk. rewrite <- (od_set_fresh k v d Hk). apply od_get_set_eq.
Qed.

Lemma od_set_app_last k v v' d :
  k ∉ od_keys d → od_set k v' (d ++ [(k, v)]) = d ++ [(k, v')].
Proof.
  unfold od_keys. induction d as [|[k0 v0] d IH]; intros Hk.
  - simpl. by rewrite decide_True.
  - rewrite fmap_cons in Hk. apply not_elem_of_cons in Hk as [Hne Hk].
    rewrite <- !app_comm_cons. cbn [od_set]. rewrite decide_False by done.
    by rewrite IH.
Qed.

Lemma od_keys_app d1 d2 : od_keys (d1 ++ d2) = od_keys d1 ++ od_keys d2.
Proof. unfold od_keys. apply fmap_app. Qed.

End odict_last.

Lemma register_fresh line t g st :
  g ∉ od_keys (gene_mrna_len st) → t ∉ od_keys (mrna_info st) →
  t ∉ od_keys (mrna_gene st) →
  register line t g st =
  Scan (gene_mrna_len st ++ [(g, [(t, 0)])]) (mrna_info st ++ [(t, line)])
       (rna_proid st) (mrna_gene st ++ [(t, g)]).
Proof.
  intros Hg Hi Hm. unfold register.
  rewrite (proj2 (od_mem_false g (gene_mrna_len st)) Hg).
  rewrite (od_set_fresh g [] _ Hg), od_get_app_last by done.
  cbn [default od_set]. rewrite od_set_app_last by done.
  by rewrite (od_set_fresh t line _ Hi), (od_set_fresh t g _ Hm).
Qed.

(** The CDS lines of the transcript registered last go to its buffer and
    to its length, without a warning. *)
Lemma steps_cds_last cdss t g gml mi rp mg n buf :
  Forall (cds_of t) cdss →
  g ∉ od_keys gml → t ∉ od_keys mi → t ∉ od_keys mg →
  ∃ n' rp',
    steps cdss (Scan (gml ++ [(g, [(t, n)])]) (mi ++ [(t, buf)]) rp (mg ++ [(t, g)])) =
    (Ok (Scan (gml ++ [(g, [(t, n')])]) (mi ++ [(t, buf +:+ join cdss)]) rp'
              (mg ++ [(t, g)])), []).
Proof.
  intros Hcds Hg Hi Hm. revert n buf rp.
  induction Hcds as [|c cdss (c3 & c4 & Hp & [start Hstart] & [stop Hstop]) _ IH];
    intros n buf rp.
  { exists n, rp. by rewrite string_app_nil_r. }
  cbn [steps]. unfold step. rewrite Hp. cbn [mrna_info mrna_gene gene_mrna_len].
  rewrite !od_get_app_last by done. rewrite Hstart, Hstop.
  cbn [od_get]. rewrite decide_True by done.
  unfold attach. cbn [mrna_info mrna_gene gene_mrna_len rna_proid od_set].
  rewrite decide_True by done. rewrite !od_set_app_last by done.
  destruct (IH (n + (stop - start + 1)) (buf +:+ c) (od_set t t rp)) as (n' & rp' & ->).
  exists n', rp'. by rewrite join_cons, string_app_assoc.
Qed.

Lemma steps_block st t g ml cdss :
  parse ml = MRna t g → Forall (cds_of t) cdss →
  g ∉ od_keys (gene_mrna_len st) → t ∉ od_keys (mrna_info st) →
  t ∉ od_keys (mrna_gene st) →
  ∃ n rp,
    steps (ml :: cdss) st =
    (Ok (Scan (gene_mrna_len st ++ [(g, [(t, n)])])
              (mrna_info st ++ [(t, join (ml :: cdss))]) rp
              (mrna_gene st ++ [(t, g)])), []).
Proof.
  intros Hp Hcds Hg Hi Hm. cbn [steps]. unfold step. rewrite Hp.
  rewrite register_fresh by done.
  destruct (steps_cds_last cdss t g (gene_mrna_len st) (mrna_info st) (rna_proid st)
              (mrna_gene st) 0 ml Hcds Hg Hi Hm) as (n & rp & ->).
  by exists n, rp.
Qed.

Lemma selection_snoc gml g t n : selection (gml ++ [(g, [(t, n)])]) = selection gml ++ [t].
Proof. unfold selection. by rewrite omap_app. Qed.

(** Blocks of distinct transcripts of distinct genes, none of them known
    to the state, are scanned without a warning; each adds its gene, its
    transcript and its buffer at the end of the dictionaries. *)
Lemma steps_blocks (B : string → list string) gts st :
  NoDup gts.*1 → NoDup gts.*2 →
  (∀ g t, (g, t) ∈ gts →
     (g ∉ od_keys (gene_mrna_len st)) ∧ (t ∉ od_keys (mrna_info st)) ∧
     (t ∉ od_keys (mrna_gene st)) ∧
     ∃ ml cdss, B t = ml :: cdss ∧ parse ml = MRna t g ∧ Forall (cds_of t) cdss) →
  ∃ st',
    steps (gts ≫= (λ gt, B gt.2)) st = (Ok st', []) ∧
    selection (gene_mrna_len st') = selection (gene_mrna_len st) ++ gts.*2 ∧
    mrna_info st' = mrna_info st ++ ((λ gt, (gt.2, join (B gt.2))) <$> gts).
Proof.
  revert st. induction gts as [|[g t] gts IH]; intros st Hg Ht Hall.
  { exists st. by rewrite !app_nil_r. }
  rewrite !fmap_cons in *. cbn [fst snd] in *.
  apply NoDup_cons in Hg as [Hg Hgs]. apply NoDup_cons in Ht as [Ht Hts].
  destruct (Hall g t) as (Hgf & Hif & Hmf & ml & cdss & HB & Hp & Hcds);
    [apply list_elem_of_here|].
  destruct (steps_block st t g ml cdss Hp Hcds Hgf Hif Hmf) as (n & rp & Hblock).
  set (st1 := Scan (gene_mrna_len st ++ [(g, [(t, n)])])
                   (mrna_info st ++ [(t, join (ml :: cdss))]) rp
                   (mrna_gene st ++ [(t, g)])) in *.
  destruct (IH st1 Hgs Hts) as (st' & Hsteps & Hsel & Hmi).
  { intros g' t' Hin.
    destruct (Hall g' t') as (Hgf' & Hif' & Hmf' & Hshape); [by apply list_elem_of_further|].
    assert (g' ≠ g) as Hneg.
    { intros ->. apply Hg. apply list_elem_of_fmap. by exists (g, t'). }
    assert (t' ≠ t) as Hnet.
    { intros ->. apply Ht. apply list_elem_of_fmap. by exists (g', t). }
    unfold st1. cbn [gene_mrna_len mrna_info mrna_gene]. rewrite !od_keys_app.
    split_and!; [| | |done]; rewrite not_elem_of_app; (split; [done|]);
      by intros ->%list_elem_of_singleton. }
  exists st'. rewrite bind_cons. cbn [snd]. rewrite HB, steps_app, Hblock, Hsteps.
  split_and!; [done| |].
  - rewrite Hsel. unfold st1. cbn [gene_mrna_len].
    by rewrite selection_snoc, <- app_assoc.
  - rewrite Hmi. unfold st1. cbn [mrna_info]. by rewrite <- app_assoc.
Qed.

(** ** The blocks of a well-formed file *)

Lemma filter_owner_fresh t lines :
  Forall (λ l, owner l ≠ Some t) lines → block_lines t lines = [].
Proof.
  unfold block_lines. induction 1 as [|l lines Hl _ IH]; [done|].
  by rewrite filter_cons_False.
Qed.

(** In a well-formed file the block of a declared transcript is its one
    mRNA line followed by CDS lines with integer coordinates. *)
Lemma block_lines_shape lines t :
  well_formed lines → t ∈ mrna_ids lines →
  ∃ ml g cdss, block_lines t lines = ml :: cdss ∧ parse ml = MRna t g ∧
               t ∈ transcripts g lines ∧ Forall (cds_of t) cdss.
Proof.
  intros Hwf Ht.
  pose proof Ht as (l & g & Hin & Hp)%elem_of_mrna_ids.
  assert (t ∈ transcripts g lines) as Htg by (apply elem_of_transcripts; eauto).
  apply list_elem_of_split in Hin as (pre & post & ->).
  assert (Forall (λ l, owner l ≠ Some t) pre) as Hpre.
  { eapply (well_formed_fresh pre l t g); [|done].
    apply (well_formed_prefix _ post). by rewrite <- app_assoc. }
  exists l, g, (block_lines t post). split_and!; [|done..|].
  - unfold block_lines. rewrite filter_app. fold (block_lines t pre).
    rewrite (filter_owner_fresh _ _ Hpre), filter_cons_True; [done|].
    unfold owner. by rewrite Hp.
  - apply Forall_forall. intros c [Ho Hc]%list_elem_of_filter.
    apply list_elem_of_split in Hc as (a & b & ->).
    unfold owner in Ho. destruct (parse c) as [|t' g'|p c3 c4] eqn:Hpc; [done|..].
    + injection Ho as ->. exfalso.
      pose proof (wf_ids _ Hwf) as Hnd.
      rewrite mrna_ids_app, mrna_ids_cons, Hp, mrna_ids_app, mrna_ids_cons, Hpc in Hnd.
      apply NoDup_app in Hnd as (_ & _ & Hnd). simpl in Hnd.
      apply NoDup_cons in Hnd as [Hnin _]. apply Hnin.
      apply elem_of_app. right. apply list_elem_of_here.
    + injection Ho as ->. exists c3, c4. split; [done|].
      destruct (wf_cds _ Hwf (pre ++ l :: a) c b t c3 c4) as (_ & H3 & H4); try done.
      by rewrite <- app_assoc.
Qed.

Lemma Forall2_pairs {A B} (R : A → B → Prop) l k :
  Forall2 R l k →
  ∃ ps : list (A * B), ps.*1 = l ∧ ps.*2 = k ∧ ∀ p, p ∈ ps → R p.1 p.2 ∧ p.1 ∈ l.
Proof.
  induction 1 as [|x y l k Hxy _ (ps & H1 & H2 & Hps)].
  { exists []. split_and!; [done..|]. by intros p ?%elem_of_nil. }
  exists ((x, y) :: ps). rewrite !fmap_cons, H1, H2. split_and!; [done..|].
  intros p [->|Hin]%elem_of_cons.
  - split; [done|apply list_elem_of_here].
  - destruct (Hps p Hin). split; [done|]. by apply list_elem_of_further.
Qed.

(** The selection of a run on a well-formed file, each transcript with its
    gene: genes and transcripts are distinct and each transcript has its
    block in the file. *)
Lemma selected_pairs lines st :
  well_formed lines → consistent lines st →
  ∃ gts : list (string * string),
    gts.*2 = selection (gene_mrna_len st) ∧ NoDup gts.*1 ∧ NoDup gts.*2 ∧
    ∀ g t, (g, t) ∈ gts →
      ∃ ml cdss, block_lines t lines = ml :: cdss ∧ parse ml = MRna t g ∧
                 Forall (cds_of t) cdss.
Proof.
  intros Hwf Hc.
  destruct (consistent_getmax _ _ (World ∅ ∅ ∅ []) Hc) as [_ Hsel].
  apply Forall2_pairs in Hsel as (ps & H1 & H2 & Hps).
  exists ((λ p, (p.1.1, p.2)) <$> ps).
  assert (((λ p : string * odict string Z * string, (p.1.1, p.2)) <$> ps).*2
          = selection (gene_mrna_len st)) as Hsnd.
  { rewrite <- H2, <- list_fmap_compose. by apply list_fmap_ext. }
  assert (((λ p : string * odict string Z * string, (p.1.1, p.2)) <$> ps).*1
          = od_keys (gene_mrna_len st)) as Hfst.
  { unfold od_keys. rewrite <- H1, <- !list_fmap_compose. by apply list_fmap_ext. }
  split_and!; [done| | |].
  - rewrite Hfst. by eapply consistent_gml_NoDup.
  - rewrite Hsnd. apply (selection_NoDup lines st); [done|apply Hwf| |done].
    by eapply consistent_gml_NoDup.
  - intros g t ([[g' d] t'] & [= -> ->] & Hin)%list_elem_of_fmap.
    destruct (Hps _ Hin) as [Hl Hgd]. cbn [fst snd] in *.
    apply longest_key in Hl. apply (consistent_inner _ _ _ _ _ Hc Hgd) in Hl.
    destruct (block_lines_shape lines t' Hwf) as (ml & g0 & cdss & HB & Hp & Ht0 & Hcds).
    { by eapply transcripts_mrna_ids. }
    exists ml, cdss. split_and!; [done| |done].
    by rewrite (transcripts_unique lines t' g' g0 (wf_ids _ Hwf) Hl Ht0).
Qed.

Lemma blocks_of_pairs (F : string → string) (gts : list (string * string)) st :
  NoDup gts.*2 →
  selection (gene_mrna_len st) = gts.*2 →
  mrna_info st = (λ gt, (gt.2, F gt.2)) <$> gts →
  blocks st = F <$> gts.*2.
Proof.
  intros Hnd Hsel Hmi. unfold blocks. rewrite Hsel, Hmi.
  assert (∀ l : list (string * string), (∀ x, x ∈ l → x ∈ gts) →
            omap (λ t, od_get t ((λ gt, (gt.2, F gt.2)) <$> gts)) l.*2 = F <$> l.*2)
    as Hgen; [|by apply Hgen].
  induction l as [|[g t] l IH]; intros Hl; [done|].
  rewrite !fmap_cons. cbn [omap list_omap snd].
  rewrite (od_elem_get t (F t)).
  - rewrite IH; [done|]. intros x Hx. by apply Hl, list_elem_of_further.
  - unfold od_keys. rewrite <- list_fmap_compose. exact Hnd.
  - apply list_elem_of_fmap. exists (g, t). split; [done|]. apply Hl, list_elem_of_here.
Qed.

(** X14. The output of a run on a well-formed input that ends with a newline
    is a fixed point of the program: a second run that reads this output
    writes the same text again, completes, and writes no warning.  (Both
    conditions are needed: a last line without newline is glued to the line
    that follows it in the output, and a transcript shared by two genes is
    written twice by the first run and once by the second.) *)
Theorem rerun_reproduces_output gff outgff w text w1 out gff2 outgff2 w2 :
  well_formed (lines_of text) → terminated text = true →
  files (truncated outgff w) !! gff = Some text →
  Maxlen.main gff outgff w = (Ok (), w1) → files w1 !! outgff = Some out →
  write_errors w2 !! outgff2 = None → read_errors w2 !! gff2 = None →
  files (truncated outgff2 w2) !! gff2 = Some out →
  Maxlen.main gff2 outgff2 w2 =
  (Ok (), World (<[outgff2 := out]> (files w2)) (read_errors w2) (write_errors w2)
                (stderr w2)).
Proof.
  set (lines := lines_of text). intros Hwf Hterm Hf Hrun Hout Hw2 Hr2 Hf2.
  destruct (well_formed_steps _ Hwf) as (st & ws & Hs & Hc & He).
  pose proof (main_cases gff outgff w) as Hcases.
  destruct (write_errors w !! outgff); [congruence|].
  destruct (read_errors w !! gff); [congruence|].
  rewrite Hf in Hcases. fold lines in Hcases. rewrite Hs in Hcases.
  rewrite Hcases in Hrun. injection Hrun as <-. cbn [files] in Hout.
  rewrite lookup_insert_eq in Hout. injection Hout as <-.
  destruct (selected_pairs _ _ Hwf Hc) as (gts & Hsel & Hg & Ht & Hshape).
  set (B := λ t, block_lines t lines).
  assert (join (blocks st) = join (gts ≫= (λ gt, B gt.2))) as Hjoin.
  { rewrite (exact_blocks _ _ Hc He), <- Hsel, join_bind, <- list_fmap_compose.
    done. }
  assert (lines_of (join (blocks st)) = gts ≫= (λ gt, B gt.2)) as Hlines.
  { rewrite Hjoin. apply lines_of_join. apply Forall_forall.
    intros l ([g t] & Hl & _)%list_elem_of_bind.
    apply list_elem_of_filter in Hl as [_ Hl].
    pose proof (terminated_lines _ Hterm) as Hall. rewrite Forall_forall in Hall.
    by apply Hall. }
  destruct (steps_blocks B gts empty_scan Hg Ht) as (st2 & Hs2 & Hsel2 & Hmi2).
  { intros g t Hin. split_and!; try (by intros ?%elem_of_nil). by apply Hshape. }
  rewrite <- Hlines in Hs2.
  rewrite (main_run_ok _ _ _ _ _ _ Hw2 Hr2 Hf2 Hs2), app_nil_r.
  do 3 f_equal.
  rewrite (blocks_of_pairs (λ t, join (B t)) gts st2 Ht Hsel2 Hmi2).
  by rewrite (exact_blocks _ _ Hc He), <- Hsel.
Qed.

Lemma rerun_reproduces_output_witness :
  Maxlen.main "in.gff" "out.gff" demo_rerun_world =
  (Ok (), World (<[ "out.gff" := demo_output]> (files demo_rerun_world))
                (read_errors demo_rerun_world) (write_errors demo_rerun_world)
                (stderr demo_rerun_world)).
Proof.
  apply (rerun_reproduces_output "in.gff" "out.gff" demo_world demo_text demo_final
           demo_output "in.gff" "out.gff" demo_rerun_world).
  - apply well_formedb_sound. vm_compute. reflexivity.
  - vm_compute. reflexivity.
  - vm_compute. reflexivity.
  - vm_compute. reflexivity.
  - vm_compute. reflexivity.
  - vm_compute. reflexivity.
  - vm_compute. reflexivity.
  - vm_compute. reflexivity.
Defined.

(** ** Scanning one file after another *)

Section odict_app.
Context {K V : Type} `{EqDecision K}.
Implicit Types (k : K) (v : V) (d : odict K V).

Lemma od_get_app_r k d0 d : k ∉ od_keys d0 → od_get k (d0 ++ d) = od_get k d.
Proof.
  unfold od_keys. induction d0 as [|[k0 v0] d0 IH]; intros Hk; [done|].
  rewrite fmap_cons in Hk. apply not_elem_of_cons in Hk as [Hne Hk].
  rewrite <- app_comm_cons. cbn [od_get]. rewrite decide_False by done. by apply IH.
Qed.

Lemma od_get_app_l k v d0 d : od_get k d0 = Some v → od_get k (d0 ++ d) = Some v.
Proof.
  induction d0 as [|[k0 v0] d0 IH]; [done|].
  rewrite <- app_comm_cons. cbn [od_get]. by destruct (decide (k = k0)).
Qed.

Lemma od_set_app_r k v d0 d :
  k ∉ od_keys d0 → od_set k v (d0 ++ d) = d0 ++ od_set k v d.
Proof.
  unfold od_keys. induction d0 as [|[k0 v0] d0 IH]; intros Hk; [done|].
  rewrite fmap_cons in Hk. apply not_elem_of_cons in Hk as [Hne Hk].
  rewrite <- !app_comm_cons. cbn [od_set]. rewrite decide_False by done.
  by rewrite IH.
Qed.

Lemma od_mem_app_r k d0 d : k ∉ od_keys d0 → od_mem k (d0 ++ d) = od_mem k d.
Proof. intros Hk. unfold od_mem. by rewrite od_get_app_r. Qed.

End odict_app.

Lemma step_frame st0 st stx line st' ws :
  fresh_for st0 line → genes_apart st0 st → extends st0 st stx →
  step line st = (Ok st', ws) →
  ∃ stx', step line stx = (Ok stx', ws) ∧ extends st0 st' stx' ∧ genes_apart st0 st'.
Proof.
  unfold fresh_for, step. intros Hfresh Hapart (Hgml & Hmi & Hmg).
  destruct (parse line) as [|t g|p c3 c4].
  - intros [= <- <-]. by exists stx.
  - destruct Hfresh as (Hti & Htg & Hg). intros [= <- <-].
    eexists. split; [done|]. unfold register. split.
    + rewrite Hgml, Hmi, Hmg. split_and!; cbn [gene_mrna_len mrna_info mrna_gene].
      * rewrite od_mem_app_r by done.
        destruct (od_mem g (gene_mrna_len st)).
        -- by rewrite od_get_app_r, od_set_app_r.
        -- by rewrite !od_set_app_r, od_get_app_r by done.
      * by rewrite od_set_app_r.
      * by rewrite od_set_app_r.
    + intros t' g'. cbn [mrna_gene]. destruct (decide (t = t')) as [<-|Hne].
      * rewrite od_get_set_eq. by intros [= <-].
      * rewrite od_get_set_ne by done. apply Hapart.
  - destruct Hfresh as (Hpi & Hpg).
    rewrite Hmi, Hmg, Hgml, !od_get_app_r by done.
    destruct (od_get p (mrna_info st)) as [buf|].
    2:{ intros [= <- <-]. eexists. split; [done|]. by split. }
    destruct (od_get p (mrna_gene st)) as [g|] eqn:Hg; [|done].
    destruct (Py.int c4); [|done]. destruct (Py.int c3); [|done].
    rewrite od_get_app_r by (by eapply Hapart).
    destruct (od_get g (gene_mrna_len st)) as [d|]; [|done].
    destruct (od_get p d); [|done]. intros [= <- <-].
    eexists. split; [done|]. unfold attach. split; [|done].
    rewrite Hgml, Hmi, Hmg. split_and!; cbn [gene_mrna_len mrna_info mrna_gene].
    + rewrite od_set_app_r; [done|]. by eapply Hapart.
    + by rewrite od_set_app_r.
    + done.
Qed.

Lemma steps_frame st0 lines st stx st' ws :
  Forall (fresh_for st0) lines → genes_apart st0 st → extends st0 st stx →
  steps lines st = (Ok st', ws) →
  ∃ stx', steps lines stx = (Ok stx', ws) ∧ extends st0 st' stx'.
Proof.
  intros Hfresh. revert st stx ws.
  induction Hfresh as [|line lines Hl _ IH]; intros st stx ws Hapart Hext.
  { intros [= <- <-]. by exists stx. }
  cbn [steps]. destruct (step line st) as [[st1|e] ws1] eqn:Hstep; [|done].
  destruct (steps lines st1) as [r ws2] eqn:Hrest. intros [= -> <-].
  destruct (step_frame _ _ _ _ _ _ Hl Hapart Hext Hstep) as (stx1 & -> & Hext1 & Hapart1).
  destruct (IH _ _ _ Hapart1 Hext1 Hrest) as (stx' & -> & Hext'). by exists stx'.
Qed.

Lemma lines_of_app ls s :
  Forall (λ l, is_line l = true) ls → lines_of (join ls +:+ s) = ls ++ lines_of s.
Proof.
  induction 1 as [|l ls Hl _ IH]; [done|].
  by rewrite join_cons, string_app_assoc, (lines_of_app_line _ _ Hl), IH.
Qed.

Lemma elem_of_cds_parents p lines :
  p ∈ cds_parents lines ↔ ∃ l c3 c4, l ∈ lines ∧ parse l = Cds p c3 c4.
Proof.
  unfold cds_parents. rewrite list_elem_of_omap. split.
  - intros (l & Hl & Hp). destruct (parse l) as [| |p' c3 c4] eqn:E; try done.
    injection Hp as ->. eauto.
  - intros (l & c3 & c4 & Hl & Hp). exists l. by rewrite Hp.
Qed.

Lemma consistent_mrna_gene_keys pre st t :
  consistent pre st → t ∈ od_keys (mrna_gene st) → t ∈ mrna_ids pre.
Proof.
  intros Hc [g Hg]%od_get_is_Some. rewrite (cons_gene_of _ _ Hc) in Hg.
  apply gene_of_Some in Hg. by eapply transcripts_mrna_ids.
Qed.

(** The lines of a file that shares no transcript and no gene with the
    file scanned before are fresh for the state after that file. *)
Lemma disjoint_fresh linesA linesB stA :
  consistent linesA stA →
  Forall (λ t, t ∉ mrna_ids linesA) (mrna_ids linesB ++ cds_parents linesB) →
  Forall (λ g, g ∉ genes linesA) (genes linesB) →
  Forall (fresh_for stA) linesB.
Proof.
  intros Hc Hids Hgenes. rewrite Forall_forall in Hids, Hgenes.
  apply Forall_forall. intros line Hin. unfold fresh_for.
  destruct (parse line) as [|t g|p c3 c4] eqn:Hp; [done|..].
  - assert (t ∉ mrna_ids linesA) as Ht.
    { apply Hids, elem_of_app. left. apply elem_of_mrna_ids. eauto. }
    assert (g ∉ genes linesA) as Hg.
    { apply Hgenes. apply elem_of_genes. eauto. }
    split_and!.
    + by rewrite (cons_info _ _ Hc), elem_of_dedup.
    + intros ?. by apply Ht, (consistent_mrna_gene_keys _ stA).
    + by rewrite (cons_genes _ _ Hc), elem_of_dedup.
  - assert (p ∉ mrna_ids linesA) as Ht.
    { apply Hids, elem_of_app. right. apply elem_of_cds_parents. eauto. }
    split.
    + by rewrite (cons_info _ _ Hc), elem_of_dedup.
    + intros ?. by apply Ht, (consistent_mrna_gene_keys _ stA).
Qed.

Lemma blocks_extends linesA linesB stA stB st :
  consistent linesA stA → consistent linesB stB →
  Forall (λ t, t ∉ mrna_ids linesA) (mrna_ids linesB ++ cds_parents linesB) →
  extends stA stB st →
  blocks st = blocks stA ++ blocks stB.
Proof.
  intros HcA HcB Hids (Hgml & Hmi & _). unfold blocks, selection.
  rewrite Hgml, Hmi, !omap_app. f_equal.
  - pose proof (consistent_selected _ _ HcA) as Hsel. unfold selection in Hsel.
    induction Hsel as [|t sel [b Hb] _ IH]; [done|].
    cbn [omap list_omap]. by rewrite (od_get_app_l _ _ _ _ Hb), Hb, IH.
  - pose proof (consistent_selected _ _ HcB) as Hsel. unfold selection in Hsel.
    induction Hsel as [|t sel Ht _ IH]; [done|].
    cbn [omap list_omap]. rewrite od_get_app_r, IH; [done|].
    rewrite (cons_info _ _ HcA), elem_of_dedup.
    rewrite Forall_forall in Hids. apply Hids, elem_of_app. left.
    by apply (consistent_registered _ _ _ HcB).
Qed.

(** X15. Files that share no transcript and no gene can be processed one
    after the other or together: when a file that ends with a newline is
    followed by a second file whose records name no transcript and no gene
    of the first, the output for the concatenation is the output for the
    first followed by the output for the second, and so are the warnings,
    provided both runs complete. *)
Theorem concatenated_inputs gff outgff w ga oa wa wa' gb ob wb wb' textA textB outA outB :
  terminated textA = true →
  Forall (λ t, t ∉ mrna_ids (lines_of textA))
         (mrna_ids (lines_of textB) ++ cds_parents (lines_of textB)) →
  Forall (λ g, g ∉ genes (lines_of textA)) (genes (lines_of textB)) →
  files (truncated oa wa) !! ga = Some textA →
  Maxlen.main ga oa wa = (Ok (), wa') → files wa' !! oa = Some outA →
  files (truncated ob wb) !! gb = Some textB →
  Maxlen.main gb ob wb = (Ok (), wb') → files wb' !! ob = Some outB →
  write_errors w !! outgff = None → read_errors w !! gff = None →
  files (truncated outgff w) !! gff = Some (textA +:+ textB) →
  ∃ w' wsA wsB,
    Maxlen.main gff outgff w = (Ok (), w') ∧
    files w' !! outgff = Some (outA +:+ outB) ∧
    stderr wa' = stderr wa ++ wsA ∧ stderr wb' = stderr wb ++ wsB ∧
    stderr w' = stderr w ++ wsA ++ wsB.
Proof.
  intros Hterm Hids Hgenes HfA HrunA HoutA HfB HrunB HoutB Hw Hr Hf.
  pose proof (main_cases ga oa wa) as HcasesA.
  destruct (write_errors wa !! oa); [congruence|].
  destruct (read_errors wa !! ga); [congruence|]. rewrite HfA in HcasesA.
  destruct (steps (lines_of textA) empty_scan) as [[stA|e] wsA] eqn:HsA; [|congruence].
  rewrite HcasesA in HrunA. injection HrunA as <-. cbn [files stderr] in *.
  rewrite lookup_insert_eq in HoutA. injection HoutA as <-.
  pose proof (main_cases gb ob wb) as HcasesB.
  destruct (write_errors wb !! ob); [congruence|].
  destruct (read_errors wb !! gb); [congruence|]. rewrite HfB in HcasesB.
  destruct (steps (lines_of textB) empty_scan) as [[stB|e] wsB] eqn:HsB; [|congruence].
  rewrite HcasesB in HrunB. injection HrunB as <-. cbn [files stderr] in *.
  rewrite lookup_insert_eq in HoutB. injection HoutB as <-.
  pose proof (consistent_steps _ _ _ HsA) as HcA.
  pose proof (consistent_steps _ _ _ HsB) as HcB.
  destruct (steps_frame stA (lines_of textB) empty_scan stA stB wsB)
    as (st & Hs & Hext); [by eapply disjoint_fresh|by intros t g [=]| |done|].
  { unfold extends. by rewrite !app_nil_r. }
  assert (steps (lines_of (textA +:+ textB)) empty_scan = (Ok st, wsA ++ wsB)) as Hsteps.
  { rewrite <- (join_lines_of textA) at 1.
    rewrite lines_of_app by (by apply terminated_lines).
    by rewrite steps_app, HsA, Hs. }
  eexists _, wsA, wsB. split_and!; [by eapply main_run_ok| |done..].
  cbn [files]. rewrite lookup_insert_eq.
  by rewrite (blocks_extends _ _ _ _ _ HcA HcB Hids Hext), join_app.
Qed.

Lemma concatenated_inputs_witness :
  ∃ w' wsA wsB,
    Maxlen.main "in.gff" "out.gff" both_world = (Ok (), w') ∧
    files w' !! "out.gff" =
      Some (demo_output +:+
            default "" (files (Maxlen.main "in.gff" "out.gff" tie_world).2 !! "out.gff")) ∧
    stderr demo_final = stderr demo_world ++ wsA ∧
    stderr (Maxlen.main "in.gff" "out.gff" tie_world).2 = stderr tie_world ++ wsB ∧
    stderr w' = stderr both_world ++ wsA ++ wsB.
Proof.
  apply (concatenated_inputs "in.gff" "out.gff" both_world
           "in.gff" "out.gff" demo_world demo_final
           "in.gff" "out.gff" tie_world (Maxlen.main "in.gff" "out.gff" tie_world).2
           demo_text (join tie_lines)).
  - vm_compute. reflexivity.
  - apply (bool_decide_unpack _). vm_compute. exact I.
  - apply (bool_decide_unpack _). vm_compute. exact I.
  - vm_compute. reflexivity.
  - vm_compute. reflexivity.
  - vm_compute. reflexivity.
  - vm_compute. reflexivity.
  - vm_compute. reflexivity.
  - vm_compute. reflexivity.
  - vm_compute. reflexivity.
  - vm_compute. reflexivity.
  - vm_compute. reflexivity.
Defined.

(** ** No line is written twice *)

Lemma bind_block_lines_submseteq ids lines :
  NoDup ids → ids ≫= (λ t, block_lines t lines) ⊆+ lines.
Proof.
  intros Hnd. revert lines. induction Hnd as [|t ids Hnin Hnd IH]; intros lines.
  { apply submseteq_nil_l. }
  rewrite bind_cons.
  etrans; [|apply Permutation_submseteq,
             (filter_app_complement (λ line, owner line = Some t) lines)].
  apply submseteq_app; [done|].
  assert (Forall (λ t', block_lines t' lines =
            block_lines t' (filter (λ line, ¬ owner line = Some t) lines)) ids)
    as Hext.
  { apply Forall_forall. intros t' Ht'. unfold block_lines.
    rewrite list_filter_filter. apply list_filter_iff.
    intros line. split; [|by intros [? _]].
    intros Ho. split; [done|]. rewrite Ho. intros [= ->]. done. }
  etrans; [|apply (IH (filter (λ line, ¬ owner line = Some t) lines))].
  apply Permutation_submseteq.
  clear -Hext. induction Hext as [|t' ids Ht' _ IH']; [done|].
  by rewrite !bind_cons, Ht', IH'.
Qed.

(** X16. On a well-formed input no line is written twice: the output of a
    completed run is a concatenation of lines of the input in which no line
    stands more often than in the input.  (Without distinct [ID]s a block
    can be written once for each gene that declares its transcript.) *)
Theorem no_line_written_twice gff outgff w text w' :
  well_formed (lines_of text) →
  files (truncated outgff w) !! gff = Some text →
  Maxlen.main gff outgff w = (Ok (), w') →
  ∃ ls, files w' !! outgff = Some (join ls) ∧ ls ⊆+ lines_of text.
Proof.
  intros Hwf Hf Hrun. pose proof (main_cases gff outgff w) as Hcases.
  destruct (write_errors w !! outgff); [congruence|].
  destruct (read_errors w !! gff); [congruence|]. rewrite Hf in Hcases.
  destruct (well_formed_steps _ Hwf) as (st & ws & Hs & Hc & He).
  rewrite Hs in Hcases. rewrite Hcases in Hrun. injection Hrun as <-.
  exists (selection (gene_mrna_len st) ≫= (λ t, block_lines t (lines_of text))).
  split.
  - cbn [files]. by rewrite lookup_insert_eq, (exact_blocks _ _ Hc He), join_bind.
  - apply bind_block_lines_submseteq.
    apply (selection_NoDup (lines_of text) st); [done|apply Hwf| |done].
    by eapply consistent_gml_NoDup.
Qed.

Lemma no_line_written_twice_witness :
  ∃ ls, files demo_final !! "out.gff" = Some (join ls) ∧ ls ⊆+ lines_of demo_text.
Proof.
  apply (no_line_written_twice "in.gff" "out.gff" demo_world demo_text demo_final).
  - apply well_formedb_sound. vm_compute. reflexivity.
  - vm_compute. reflexivity.
  - vm_compute. reflexivity.
Defined.
